(** * The RTEMS glue layer of YAFFS ([rtems/rtems_yaffs.c])

    A shallow embedding of the adapter between the RTEMS file system
    callbacks and the YAFFS object engine, and the properties of it that the
    design document states.

    Conventions of the model.
    - A C pointer to an object or to a device is an index into a store
      ([objs], [devs]); [None] is the NULL pointer.  Dereferencing NULL or an
      index that is not in the store is undefined behaviour: [Fault].
    - The engine ([yaffs_guts.c]) is not part of this file of the port.  Its
      primitives are the fields of the class [Engine]; the theorems hold for
      every engine unless they say otherwise.
    - Constants that come from headers ([YAFFS_MAX_NAME_LENGTH], [NAME_MAX],
      the [S_IF*] masks, [sizeof(struct dirent)], the divider set) are the
      fields of the class [Platform].
    - Integer widths are those of the ILP32 targets of the port: [int],
      [long], [size_t] and [ssize_t] have 32 bits, [rtems_off64_t] has 64;
      [time_t] is [long].
    - [ylock]/[yunlock] call back into the host through [os_context]; they do
      not touch the object graph and are left out of this sequential model.
    - [h_find_object] and [h_follow_link] call each other and need not
      terminate on a cycle of symbolic links: they take fuel. *)

From Stdlib Require Import ZArith Ascii String List Lia Bool.
From stdpp Require Import base option gmap strings list.

(** ** Machine integers *)

Definition wrap_unsigned (w x : Z) : Z := (x mod 2 ^ w)%Z.
Definition wrap_signed (w x : Z) : Z :=
  ((x + 2 ^ (w - 1)) mod 2 ^ w - 2 ^ (w - 1))%Z.

Definition cast_int : Z -> Z := wrap_signed 32.
Definition cast_ssize_t : Z -> Z := wrap_signed 32.
Definition cast_size_t : Z -> Z := wrap_unsigned 32.
Definition cast_u32 : Z -> Z := wrap_unsigned 32.
Definition cast_off64 : Z -> Z := wrap_signed 64.
Definition cast_time_t : Z -> Z := wrap_signed 32.

(** [~x] on a 32-bit unsigned operand. *)
Definition not32 (x : Z) : Z := wrap_unsigned 32 (Z.lnot x).

Definition INT_MAX : Z := (2 ^ 31 - 1)%Z.
Definition SIZE_MAX : Z := (2 ^ 32 - 1)%Z.

Definition YAFFS_OK : Z := 1%Z.
Definition YAFFS_FAIL : Z := 0%Z.

(** ** errno *)

Inductive errno_val :=
| E_ZERO      (* the value 0 *)
| ENOENT | EIO | ENOMEM | EEXIST | EINVAL | ENOSPC | EROFS
| ENOSYS | ENOTEMPTY | ENOTSUP.

(** What a call did to [errno]: [None] when it did not assign it. *)
Definition errno_write := option errno_val.

(** ** Constants taken from headers *)

Class Platform := {
  YAFFS_PATH_DIVIDERS : string;
  YAFFS_MAX_NAME_LENGTH : nat;
  NAME_MAX : nat;
  S_IFMT : Z;
  S_IFDIR : Z;
  S_IFLNK : Z;
  S_IFREG : Z;
  sizeof_dirent : Z
}.

(** ** The object graph *)

Definition ptr := nat.

Inductive yaffs_obj_type :=
| YAFFS_OBJECT_TYPE_UNKNOWN
| YAFFS_OBJECT_TYPE_FILE
| YAFFS_OBJECT_TYPE_SYMLINK
| YAFFS_OBJECT_TYPE_DIRECTORY
| YAFFS_OBJECT_TYPE_HARDLINK
| YAFFS_OBJECT_TYPE_SPECIAL.

Definition obj_type_eqb (a b : yaffs_obj_type) : bool :=
  match a, b with
  | YAFFS_OBJECT_TYPE_UNKNOWN, YAFFS_OBJECT_TYPE_UNKNOWN
  | YAFFS_OBJECT_TYPE_FILE, YAFFS_OBJECT_TYPE_FILE
  | YAFFS_OBJECT_TYPE_SYMLINK, YAFFS_OBJECT_TYPE_SYMLINK
  | YAFFS_OBJECT_TYPE_DIRECTORY, YAFFS_OBJECT_TYPE_DIRECTORY
  | YAFFS_OBJECT_TYPE_HARDLINK, YAFFS_OBJECT_TYPE_HARDLINK
  | YAFFS_OBJECT_TYPE_SPECIAL, YAFFS_OBJECT_TYPE_SPECIAL => true
  | _, _ => false
  end.

(** The address of a [struct list_head]: the head of a directory's list of
    children ([&dir->variant.dir_variant.children]) or the link of an object
    ([&o->siblings]). *)
Inductive list_head :=
| children_of (dir : ptr)
| siblings_of (o : ptr).

Arguments children_of dir%_nat.
Arguments siblings_of o%_nat.

Definition list_head_eqb (a b : list_head) : bool :=
  match a, b with
  | children_of x, children_of y => Nat.eqb x y
  | siblings_of x, siblings_of y => Nat.eqb x y
  | _, _ => false
  end.

(** The union [variant] of [struct yaffs_obj]; for a directory the model
    keeps [children.next]. *)
Inductive yaffs_obj_variant :=
| file_variant (file_size : Z)
| dir_variant (children_next : list_head)
| symlink_variant (alias : string)
| hardlink_variant (equiv_obj : option ptr)
| no_variant.

Record yaffs_obj := {
  obj_id : Z;
  variant_type : yaffs_obj_type;
  variant : yaffs_obj_variant;
  my_dev : ptr;
  parent : option ptr;
  siblings_next : list_head;          (* siblings.next *)
  yst_mode : Z;
  yst_rdev : Z;
  yst_atime : Z;
  yst_mtime : Z;
  yst_ctime : Z;
  dirty : bool;
  short_name : string                 (* the name the engine keeps for it *)
}.

Record yaffs_dev := {
  is_mounted : bool;
  read_only : bool;
  root_dir : option ptr;
  data_bytes_per_chunk : Z
}.

Record fs_state := {
  objs : gmap nat yaffs_obj;
  devs : gmap nat yaffs_dev
}.

Definition set_objs (fs : fs_state) (m : gmap nat yaffs_obj) : fs_state :=
  {| objs := m; devs := devs fs |}.

(** ** Host structures *)

Record rtems_filesystem_location_info_t := {
  node_access : option ptr
}.

Record rtems_libio_t := {
  pathinfo : rtems_filesystem_location_info_t;
  offset : Z;                         (* rtems_off64_t *)
  data1 : option ptr;
  iop_size : Z                        (* the field [size] *)
}.

Record dirent := {
  d_ino : Z;
  d_off : Z;
  d_reclen : Z;
  d_namlen : Z;
  d_name : string
}.

Record stat := {
  st_dev : Z;
  st_ino : Z;
  st_mode : Z;
  st_nlink : Z;
  st_uid : Z;
  st_gid : Z;
  st_rdev : Z;
  st_size : Z;
  st_blksize : Z;
  st_blocks : Z;
  st_atime : Z;
  st_mtime : Z;
  st_ctime : Z
}.

(** ** Outcomes of a run *)

Inductive run (A : Type) :=
| Ret (a : A)
| Fault            (* undefined behaviour in C *)
| NoFuel.          (* the recursion budget ran out *)
Arguments Ret {A} a.
Arguments Fault {A}.
Arguments NoFuel {A}.

Definition run_bind {A B} (m : run A) (k : A -> run B) : run B :=
  match m with
  | Ret a => k a
  | Fault => Fault
  | NoFuel => NoFuel
  end.

Declare Scope run_scope.
Delimit Scope run_scope with run.
Notation "'do' x <- m ; k" := (run_bind m (fun x => k))
  (at level 10, x pattern, m at level 100, k at level 200) : run_scope.
Local Open Scope run_scope.

Definition deref (fs : fs_state) (p : ptr) : run yaffs_obj :=
  match objs fs !! p with
  | Some o => Ret o
  | None => Fault
  end.

Definition deref_opt (fs : fs_state) (p : option ptr) : run (ptr * yaffs_obj) :=
  match p with
  | Some q => do o <- deref fs q; Ret (q, o)
  | None => Fault
  end.

Definition deref_dev (fs : fs_state) (d : ptr) : run yaffs_dev :=
  match devs fs !! d with
  | Some v => Ret v
  | None => Fault
  end.

(** ** The engine *)

Class Engine := {
  (* identity on an object that is not a hard link *)
  yaffs_get_equivalent_obj : fs_state -> ptr -> option ptr;
  (* fills a buffer of the given size with the name; reads through NULL fault *)
  yaffs_get_obj_name : fs_state -> option ptr -> nat -> run string;
  yaffs_find_by_name : fs_state -> ptr -> string -> option ptr;
  yaffs_create_dir : fs_state -> ptr -> string -> Z -> fs_state * option ptr;
  yaffs_create_file : fs_state -> ptr -> string -> Z -> fs_state * option ptr;
  yaffs_flush_file : fs_state -> ptr -> fs_state * Z;
  yaffs_get_obj_length : fs_state -> ptr -> Z;
  yaffs_get_obj_link_count : fs_state -> ptr -> Z;
  (* object, offset, number of bytes: the bytes read and the count returned *)
  yaffs_file_rd : fs_state -> ptr -> Z -> Z -> fs_state * list Z * Z;
  (* object, buffer, offset, number of bytes: the count returned *)
  yaffs_wr_file : fs_state -> ptr -> list Z -> Z -> Z -> fs_state * Z
}.

(** ** C strings *)

(** [strchr s c]: the index of the first [c] in [s], [None] for NULL. *)
Fixpoint strchr (s : string) (c : ascii) : option nat :=
  match s with
  | EmptyString => None
  | String a s' =>
      if Ascii.eqb a c then Some 0
      else match strchr s' c with
           | Some i => Some (S i)
           | None => None
           end
  end.

(** [s[i] = '\0']: what the buffer reads as afterwards. *)
Definition cut_at (s : string) (i : nat) : string := substring 0 i s.

Section Resolver.
Context {P : Platform} {E : Engine}.

(** ** Helper functions *)

Fixpoint is_path_divider_from (str : string) (ch : ascii) : bool :=
  match str with
  | EmptyString => false
  | String c str' => if Ascii.eqb c ch then true else is_path_divider_from str' ch
  end.

Definition is_path_divider (ch : ascii) : bool :=
  is_path_divider_from YAFFS_PATH_DIVIDERS ch.

(** [is_path_divider( *s )]: the terminating NUL is no divider. *)
Definition starts_with_divider (s : string) : bool :=
  match s with
  | EmptyString => false
  | String c _ => is_path_divider c
  end.

(** [while(is_path_divider( *pathname)) pathname++;] *)
Fixpoint skip_dividers (pathname : string) : string :=
  match pathname with
  | EmptyString => EmptyString
  | String c rest => if is_path_divider c then skip_dividers rest else pathname
  end.

(** The loop that copies one name into [str]: at most
    [YAFFS_MAX_NAME_LENGTH] characters are kept, all are consumed.  Returns
    [str] and the advanced [pathname]. *)
Fixpoint scan_name (i : nat) (pathname : string) : string * string :=
  match pathname with
  | EmptyString => (EmptyString, EmptyString)
  | String c rest =>
      if is_path_divider c then (EmptyString, pathname)
      else if Nat.ltb i YAFFS_MAX_NAME_LENGTH then
        let '(str, pathname') := scan_name (S i) rest in
        (String c str, pathname')
      else scan_name i rest
  end.

Definition is_empty (s : string) : bool :=
  match s with EmptyString => true | _ => false end.

(** The value of [*out_of_fs] is threaded through: the suffix it points to,
    or [None] for NULL. *)
Definition found : Type := option ptr * option string.

Fixpoint h_follow_link (fuel : nat) (fs : fs_state) (obj : option ptr)
    (out_of_fs : option string) {struct fuel} : run found :=
  match fuel with
  | O => NoFuel
  | S fuel' =>
      let obj :=
        match obj with
        | Some p => yaffs_get_equivalent_obj fs p
        | None => None
        end in
      h_follow_link_while fuel' fs obj out_of_fs
  end

with h_follow_link_while (fuel : nat) (fs : fs_state) (obj : option ptr)
    (out_of_fs : option string) {struct fuel} : run found :=
  match fuel with
  | O => NoFuel
  | S fuel' =>
      match obj with
      | None => Ret (None, out_of_fs)
      | Some p =>
          do o <- deref fs p;
          if obj_type_eqb (variant_type o) YAFFS_OBJECT_TYPE_SYMLINK then
            match variant o with
            | symlink_variant alias =>
                do r <-
                  (if starts_with_divider alias
                   then h_find_object fuel' fs (my_dev o) None alias out_of_fs
                   else h_find_object fuel' fs (my_dev o) (parent o) alias out_of_fs);
                h_follow_link_while fuel' fs (fst r) (snd r)
            | _ => Fault
            end
          else Ret (Some p, out_of_fs)
      end
  end

with h_find_object (fuel : nat) (fs : fs_state) (dev : ptr) (dir : option ptr)
    (pathname : string) (out_of_fs : option string) {struct fuel} : run found :=
  match fuel with
  | O => NoFuel
  | S fuel' =>
      do shortcut <-
        (match strchr pathname "/" with
         | None =>
             do sux <- yaffs_get_obj_name fs dir NAME_MAX;
             Ret (String.eqb sux pathname)
         | Some _ => Ret false
         end);
      if (shortcut : bool) then Ret (dir, out_of_fs)
      else
        do d <- deref_dev fs dev;
        if negb (is_mounted d) then Ret (None, None)
        else
          let dir := match dir with None => root_dir d | Some _ => dir end in
          h_find_object_while fuel' fs dir pathname None
  end

with h_find_object_while (fuel : nat) (fs : fs_state) (dir : option ptr)
    (pathname : string) (out_of_fs : option string) {struct fuel} : run found :=
  match fuel with
  | O => NoFuel
  | S fuel' =>
      match dir with
      | None => Ret (None, out_of_fs)
      | Some p =>
          let pathname := skip_dividers pathname in
          let '(str, pathname) := scan_name 0 pathname in
          let at_end (r : found) : run found :=
            if is_empty pathname then Ret r
            else h_find_object_while fuel' fs (fst r) pathname (snd r) in
          if String.eqb str "." then at_end (Some p, out_of_fs)
          else if String.eqb str ".." then
            do o <- deref fs p;
            match parent o with
            | Some up => at_end (Some up, out_of_fs)
            | None => Ret (None, Some (skip_dividers pathname))
            end
          else
            do dir' <-
              (if negb (is_empty str) then
                 do o <- deref fs p;
                 if negb (obj_type_eqb (variant_type o) YAFFS_OBJECT_TYPE_DIRECTORY)
                 then Ret None
                 else Ret (Some (yaffs_find_by_name fs p str))
               else Ret (Some (Some p)));
            match dir' with
            | None => Ret (None, out_of_fs)
            | Some dir' =>
                do r <- h_follow_link fuel' fs dir' out_of_fs;
                at_end r
            end
      end
  end.

End Resolver.

(** ** RTEMS interface *)

Section Callbacks.
Context {P : Platform} {E : Engine}.
Local Open Scope Z_scope.

(** What a callback hands back: the graph afterwards, the value returned and
    the assignment to [errno], if any. *)
Definition cb_result : Type := fs_state * Z * errno_write.

Definition S_ISDIR (m : Z) : bool := Z.land m S_IFMT =? S_IFDIR.
Definition S_ISREG (m : Z) : bool := Z.land m S_IFMT =? S_IFREG.

(** [strdup_ok] tells whether [strdup] finds memory. *)
Definition ycb_mknod (strdup_ok : bool) (fs : fs_state) (path : string) (mode : Z)
    (the_dev : Z) (pathloc : rtems_filesystem_location_info_t) : run cb_result :=
  do (parent, po) <- deref_opt fs (node_access pathloc);
  let dev := my_dev po in
  if negb strdup_ok then Ret (fs, -1, Some ENOMEM)
  else
    let name :=
      match strchr path "/" with
      | Some s => cut_at path s
      | None => path
      end in
    do d <- deref_dev fs dev;
    if read_only d then Ret (fs, -1, Some EROFS)
    else
      match yaffs_find_by_name fs parent name with
      | Some _ => Ret (fs, -1, Some EEXIST)
      | None =>
          if S_ISDIR mode then
            match yaffs_create_dir fs parent name mode with
            | (fs', None) => Ret (fs', -1, Some ENOSPC)
            | (fs', Some _) => Ret (fs', 0, None)
            end
          else if S_ISREG mode then
            match yaffs_create_file fs parent name mode with
            | (fs', None) => Ret (fs', -1, Some ENOSPC)
            | (fs', Some _) => Ret (fs', 0, None)
            end
          else Ret (fs, -1, Some ENOSYS)
      end.

Definition ycb_chown (fs : fs_state) (pathloc : rtems_filesystem_location_info_t)
    (owner group : Z) : cb_result :=
  (fs, 0, Some E_ZERO).

(** [list_entry(l, struct yaffs_obj, siblings)]: only the link of an object
    lies inside an object. *)
Definition list_entry (l : list_head) : run ptr :=
  match l with
  | siblings_of o => Ret o
  | children_of _ => Fault
  end.

(** The loop of [ycb_dir_read]: [n] is [maxcount - i]; returns the records
    written to [de[i...]] and the final [iop->data1]. *)
Fixpoint ycb_dir_read_while (n : nat) (fs : fs_state) (obj : ptr)
    (data1 : option ptr) : run (list dirent * option ptr) :=
  match n with
  | O => Ret ([], data1)
  | S n' =>
      match data1 with
      | None => Ret ([], None)
      | Some cur =>
          do (_, eo) <- deref_opt fs (yaffs_get_equivalent_obj fs cur);
          do name <- yaffs_get_obj_name fs (Some cur) NAME_MAX;
          let de :=
            {| d_ino := cast_int (obj_id eo);
               d_off := 0;
               d_reclen := wrap_unsigned 16 sizeof_dirent;
               d_namlen := wrap_unsigned 16
                             (Z.of_nat (Nat.min (String.length name) NAME_MAX));
               d_name := name |} in
          do co <- deref fs cur;
          let next := siblings_next co in
          do data1' <-
            (if list_head_eqb next (children_of obj) then Ret None
             else do e <- list_entry next; Ret (Some e));
          do (rest, last) <- ycb_dir_read_while n' fs obj data1';
          Ret (de :: rest, last)
      end
  end.

(** Returns the handle afterwards, the records written to the buffer and the
    value returned. *)
Definition ycb_dir_read (fs : fs_state) (iop : rtems_libio_t) (count : Z)
    : run (rtems_libio_t * list dirent * Z) :=
  do (obj, o) <- deref_opt fs (node_access (pathinfo iop));
  if sizeof_dirent =? 0 then Fault
  else
    let maxcount := count / sizeof_dirent in
    do data1_0 <-
      (if offset iop =? 0 then
         match variant o with
         | dir_variant first =>
             if list_head_eqb first (children_of obj) then Ret None
             else do e <- list_entry first; Ret (Some e)
         | _ => Fault
         end
       else Ret (data1 iop));
    do (des, data1') <- ycb_dir_read_while (Z.to_nat maxcount) fs obj data1_0;
    let i := Z.of_nat (length des) in
    let readlen := cast_ssize_t (cast_size_t (i * sizeof_dirent)) in
    Ret ({| pathinfo := pathinfo iop;
            offset := cast_off64 (offset iop + readlen);
            data1 := data1';
            iop_size := iop_size iop |},
         des, readlen).

Definition SEEK_SET : Z := 0.

Definition ycb_dir_lseek (iop : rtems_libio_t) (length : Z) (whence : Z)
    : rtems_libio_t * Z * errno_write :=
  if negb (whence =? SEEK_SET) || negb (length =? 0)
  then (iop, -1, Some ENOTSUP)
  else ({| pathinfo := pathinfo iop; offset := 0;
           data1 := data1 iop; iop_size := iop_size iop |}, 0, None).

(** The file type bits that [ycb_fstat] ors in for a variant. *)
Definition type_bits (t : yaffs_obj_type) : Z :=
  match t with
  | YAFFS_OBJECT_TYPE_DIRECTORY => S_IFDIR
  | YAFFS_OBJECT_TYPE_SYMLINK => S_IFLNK
  | YAFFS_OBJECT_TYPE_FILE => S_IFREG
  | _ => 0
  end.

(** Returns [*buf] afterwards; the function always returns 0. *)
Definition ycb_fstat (fs : fs_state) (loc : rtems_filesystem_location_info_t)
    (buf : stat) : run (stat * Z) :=
  do (obj0, _) <- deref_opt fs (node_access loc);
  do (obj, o) <- deref_opt fs (yaffs_get_equivalent_obj fs obj0);
  do d <- deref_dev fs (my_dev o);
  let mode := Z.land (yst_mode o) (not32 S_IFMT) in
  let mode := Z.lor mode (type_bits (variant_type o)) in
  let size := yaffs_get_obj_length fs obj in
  let blksize := data_bytes_per_chunk d in
  if blksize =? 0 then Fault
  else
    Ret ({| st_dev := st_dev buf;
            st_ino := obj_id o;
            st_mode := mode;
            st_nlink := yaffs_get_obj_link_count fs obj;
            st_uid := 0;
            st_gid := 0;
            st_rdev := yst_rdev o;
            st_size := size;
            st_blksize := blksize;
            st_blocks := Z.quot (size + blksize - 1) blksize;
            st_atime := cast_time_t (yst_atime o);
            st_mtime := cast_time_t (yst_mtime o);
            st_ctime := cast_time_t (yst_ctime o) |}, 0).

Definition set_mode (o : yaffs_obj) (m : Z) : yaffs_obj :=
  {| obj_id := obj_id o; variant_type := variant_type o; variant := variant o;
     my_dev := my_dev o; parent := parent o; siblings_next := siblings_next o;
     yst_mode := m; yst_rdev := yst_rdev o; yst_atime := yst_atime o;
     yst_mtime := yst_mtime o; yst_ctime := yst_ctime o;
     dirty := true; short_name := short_name o |}.

(** [(obj->yst_mode & ~0777u) | mode] *)
Definition merge_mode (old mode : Z) : Z :=
  Z.lor (Z.land old (not32 511)) mode.

Definition ycb_fchmod (fs : fs_state) (loc : rtems_filesystem_location_info_t)
    (mode : Z) : run cb_result :=
  if negb (Z.land mode (not32 511) =? 0) then Ret (fs, -1, Some EINVAL)
  else
    do (obj0, o0) <- deref_opt fs (node_access loc);
    do d <- deref_dev fs (my_dev o0);
    if read_only d then Ret (fs, -1, Some EROFS)
    else
      do (fs', result) <-
        (match yaffs_get_equivalent_obj fs obj0 with
         | Some obj =>
             do o <- deref fs obj;
             let fs1 :=
               set_objs fs (<[obj := set_mode o (merge_mode (yst_mode o) mode)]> (objs fs)) in
             Ret (yaffs_flush_file fs1 obj)
         | None => Ret (fs, YAFFS_FAIL)
         end);
      if negb (result =? YAFFS_OK) then Ret (fs', -1, Some EIO)
      else Ret (fs', 0, None).

(** The number of bytes [ycb_file_read] asks the engine for, from the
    length [ol] of the object, [iop->offset] and [count]. *)
Definition read_request (ol off count : Z) : Z :=
  let maxread := if off >=? ol then 0 else cast_size_t (ol - cast_int off) in
  let count := if count >? maxread then maxread else count in
  cast_int count.

(** Returns the graph, the bytes put in the buffer, the value returned and the
    assignment to [errno]. *)
Definition ycb_file_read (fs : fs_state) (iop : rtems_libio_t) (count : Z)
    : run (fs_state * list Z * Z * errno_write) :=
  do (obj, _) <- deref_opt fs (node_access (pathinfo iop));
  let ol := yaffs_get_obj_length fs obj in
  let '(fs', bytes, nr) :=
    yaffs_file_rd fs obj (offset iop) (read_request ol (offset iop) count) in
  if nr <? 0 then Ret (fs', bytes, -1, Some ENOSPC)
  else Ret (fs', bytes, nr, None).

Definition ycb_file_write (fs : fs_state) (iop : rtems_libio_t) (buffer : list Z)
    (count : Z) : run cb_result :=
  do (obj, o) <- deref_opt fs (node_access (pathinfo iop));
  do d <- deref_dev fs (my_dev o);
  if read_only d then Ret (fs, -1, Some EROFS)
  else
    let '(fs', nw) := yaffs_wr_file fs obj buffer (offset iop) (cast_int count) in
    if nw <? 0 then Ret (fs', -1, Some ENOSPC)
    else Ret (fs', nw, None).

End Callbacks.

(** ** Invariants of the object graph

    The engine never hands out a hard link as an equivalent object, and the
    parent of an object and the root of a device are directories, hence no
    hard links. *)

Definition is_hardlink (fs : fs_state) (p : ptr) : bool :=
  match objs fs !! p with
  | Some o => obj_type_eqb (variant_type o) YAFFS_OBJECT_TYPE_HARDLINK
  | None => false
  end.

Definition no_hardlink (fs : fs_state) (q : option ptr) : Prop :=
  match q with
  | Some p => is_hardlink fs p = false
  | None => True
  end.

Definition equivalents_resolved {E : Engine} (fs : fs_state) : Prop :=
  forall p, no_hardlink fs (yaffs_get_equivalent_obj fs p).

Definition parents_resolved (fs : fs_state) : Prop :=
  map_Forall (fun (_ : nat) o => no_hardlink fs (parent o)) (objs fs).

Definition roots_resolved (fs : fs_state) : Prop :=
  map_Forall (fun (_ : nat) d => no_hardlink fs (root_dir d)) (devs fs).

(** What [h_follow_link] promises about the object it returns. *)
Definition terminal (fs : fs_state) (q : option ptr) : Prop :=
  match q with
  | Some p =>
      exists o, objs fs !! p = Some o
                /\ variant_type o <> YAFFS_OBJECT_TYPE_SYMLINK
                /\ variant_type o <> YAFFS_OBJECT_TYPE_HARDLINK
  | None => True
  end.

(** ** A reference platform and reference engines

    The theorems below are stated for every platform and every engine; the
    definitions here give them something to run on. *)

(** Modelled from the spec: the header constants ([YAFFS_PATH_DIVIDERS],
    [YAFFS_MAX_NAME_LENGTH], [NAME_MAX], the [S_IF*] masks and
    [sizeof(struct dirent)]) are not in [rtems_yaffs.c]; these are the values
    of YAFFS direct and of newlib on an ILP32 RTEMS target. *)
Definition rtems_platform : Platform :=
  {| YAFFS_PATH_DIVIDERS := "/";
     YAFFS_MAX_NAME_LENGTH := 255;
     NAME_MAX := 255;
     S_IFMT := 61440;       (* 0170000 *)
     S_IFDIR := 16384;      (* 0040000 *)
     S_IFLNK := 40960;      (* 0120000 *)
     S_IFREG := 32768;      (* 0100000 *)
     sizeof_dirent := 280 |}.

(** Modelled from the spec: the engine primitives of section 6, which live
    in [yaffs_guts.c] and not in [rtems_yaffs.c].  Every definition of the
    module [Arena] belongs to that model; the objects sit in the store and
    the children of a directory are chained through [siblings_next]. *)
Module Arena.
Local Open Scope Z_scope.

(** Modelled from the spec: resolve-equivalent(object) -> object, the
    identity for non-hardlinks (section 6); [yaffs_get_equivalent_obj] is
    engine code outside [rtems_yaffs.c]. *)
Definition get_equivalent_obj (fs : fs_state) (p : ptr) : option ptr :=
  match objs fs !! p with
  | Some o =>
      match variant_type o, variant o with
      | YAFFS_OBJECT_TYPE_HARDLINK, hardlink_variant e => e
      | _, _ => Some p
      end
  | None => None
  end.

(** Modelled from the spec: the stored name of an object, cut to the size of
    the buffer (section 4.6, "its own stored name"); [yaffs_get_obj_name] is
    engine code outside [rtems_yaffs.c]. *)
Definition get_obj_name (fs : fs_state) (p : option ptr) (buffer_size : nat)
    : run string :=
  do (_, o) <- deref_opt fs p;
  Ret (substring 0 (buffer_size - 1) (short_name o)).

(** Walks a list of siblings from link [l] to the head. *)
Fixpoint find_from (fuel : nat) (fs : fs_state) (l : list_head) (name : string)
    : option ptr :=
  match fuel with
  | O => None
  | S fuel' =>
      match l with
      | children_of _ => None
      | siblings_of c =>
          match objs fs !! c with
          | Some o =>
              if String.eqb (short_name o) name then Some c
              else find_from fuel' fs (siblings_next o) name
          | None => None
          end
      end
  end.

(** Modelled from the spec: find-child-by-name(directory, name) -> object or
    absent, by exact name match (sections 4.2 and 6); [yaffs_find_by_name] is
    engine code outside [rtems_yaffs.c]. *)
Definition find_by_name (fs : fs_state) (dir : ptr) (name : string) : option ptr :=
  match objs fs !! dir with
  | Some o =>
      match variant o with
      | dir_variant first => find_from (S (size (objs fs))) fs first name
      | _ => None
      end
  | None => None
  end.

Definition fresh_ptr (fs : fs_state) : ptr :=
  map_fold (fun k _ acc => Nat.max (S k) acc) 0%nat (objs fs).

Definition set_children (o : yaffs_obj) (first : list_head) : yaffs_obj :=
  {| obj_id := obj_id o; variant_type := variant_type o;
     variant := dir_variant first;
     my_dev := my_dev o; parent := parent o; siblings_next := siblings_next o;
     yst_mode := yst_mode o; yst_rdev := yst_rdev o; yst_atime := yst_atime o;
     yst_mtime := yst_mtime o; yst_ctime := yst_ctime o;
     dirty := dirty o; short_name := short_name o |}.

Definition set_dirty (o : yaffs_obj) (b : bool) : yaffs_obj :=
  {| obj_id := obj_id o; variant_type := variant_type o; variant := variant o;
     my_dev := my_dev o; parent := parent o; siblings_next := siblings_next o;
     yst_mode := yst_mode o; yst_rdev := yst_rdev o; yst_atime := yst_atime o;
     yst_mtime := yst_mtime o; yst_ctime := yst_ctime o;
     dirty := b; short_name := short_name o |}.

Definition set_variant (o : yaffs_obj) (v : yaffs_obj_variant) : yaffs_obj :=
  {| obj_id := obj_id o; variant_type := variant_type o; variant := v;
     my_dev := my_dev o; parent := parent o; siblings_next := siblings_next o;
     yst_mode := yst_mode o; yst_rdev := yst_rdev o; yst_atime := yst_atime o;
     yst_mtime := yst_mtime o; yst_ctime := yst_ctime o;
     dirty := dirty o; short_name := short_name o |}.

(** Modelled from the spec: create-file / create-directory (parent, name,
    mode) -> object or fail (section 6).  The new object is linked at the
    front of the parent's children; the engine refuses when the parent is no
    directory or the name is taken.  [yaffs_create_file] and
    [yaffs_create_dir] are engine code outside [rtems_yaffs.c]. *)
Definition create (t : yaffs_obj_type) (fs : fs_state) (parent : ptr)
    (name : string) (mode : Z) : fs_state * option ptr :=
  match objs fs !! parent with
  | Some po =>
      match variant po, find_by_name fs parent name with
      | dir_variant first, None =>
          let n := fresh_ptr fs in
          let v :=
            match t with
            | YAFFS_OBJECT_TYPE_DIRECTORY => dir_variant (children_of n)
            | _ => file_variant 0
            end in
          let o :=
            {| obj_id := Z.of_nat n; variant_type := t; variant := v;
               my_dev := my_dev po; parent := Some parent;
               siblings_next := first;
               yst_mode := cast_u32 mode; yst_rdev := 0; yst_atime := 0;
               yst_mtime := 0; yst_ctime := 0; dirty := true;
               short_name := name |} in
          (set_objs fs
             (<[n := o]> (<[parent := set_children po (siblings_of n)]> (objs fs))),
           Some n)
      | _, _ => (fs, None)
      end
  | None => (fs, None)
  end.

(** Modelled from the spec: flush-metadata(object) -> ok/fail (section 6);
    the object is clean afterwards.  [yaffs_flush_file] is engine code outside
    [rtems_yaffs.c]. *)
Definition flush_file (fs : fs_state) (p : ptr) : fs_state * Z :=
  match objs fs !! p with
  | Some o => (set_objs fs (<[p := set_dirty o false]> (objs fs)), YAFFS_OK)
  | None => (fs, YAFFS_FAIL)
  end.

(** Modelled from the spec: get-length(object) -> integer (section 6). *)
Definition get_obj_length (fs : fs_state) (p : ptr) : Z :=
  match objs fs !! p with
  | Some o =>
      match variant o with
      | file_variant n => n
      | symlink_variant a => Z.of_nat (String.length a)
      | _ => 0
      end
  | None => 0
  end.

(** Modelled from the spec: get-link-count(object) -> integer (section 6);
    this engine counts the object itself only. *)
Definition get_obj_link_count (fs : fs_state) (p : ptr) : Z := 1.

(** Modelled from the spec: read(object, buffer, offset, length) ->
    bytes-read or fail (section 6).  File contents are not part of the model:
    the bytes are zeros. *)
Definition file_rd (fs : fs_state) (p : ptr) (off n : Z) : fs_state * list Z * Z :=
  let got := Z.max 0 (Z.min n (get_obj_length fs p - off)) in
  (fs, repeat 0 (Z.to_nat got), got).

(** Modelled from the spec: write(object, buffer, offset, length, flags) ->
    bytes-written or fail (section 6); the engine extends the file. *)
Definition wr_file (fs : fs_state) (p : ptr) (buffer : list Z) (off n : Z)
    : fs_state * Z :=
  match objs fs !! p with
  | Some o =>
      match variant o with
      | file_variant len =>
          (set_objs fs (<[p := set_variant o (file_variant (Z.max len (off + n)))]> (objs fs)),
           Z.max 0 n)
      | _ => (fs, 0)
      end
  | None => (fs, 0)
  end.

(** Every hard link of the store carries its target, and the target is no
    hard link. *)
Definition links_resolved (fs : fs_state) : Prop :=
  map_Forall
    (fun (_ : nat) o =>
       variant_type o = YAFFS_OBJECT_TYPE_HARDLINK ->
       exists e, variant o = hardlink_variant e /\ no_hardlink fs e)
    (objs fs).

Definition engine : Engine :=
  {| yaffs_get_equivalent_obj := get_equivalent_obj;
     yaffs_get_obj_name := get_obj_name;
     yaffs_find_by_name := find_by_name;
     yaffs_create_dir := create YAFFS_OBJECT_TYPE_DIRECTORY;
     yaffs_create_file := create YAFFS_OBJECT_TYPE_FILE;
     yaffs_flush_file := flush_file;
     yaffs_get_obj_length := get_obj_length;
     yaffs_get_obj_link_count := get_obj_link_count;
     yaffs_file_rd := file_rd;
     yaffs_wr_file := wr_file |}.

(** Modelled from the spec: an engine on worn-out media, whose read, write,
    create and flush primitives all report failure (section 6, "or fail"). *)
Definition failing_engine : Engine :=
  {| yaffs_get_equivalent_obj := get_equivalent_obj;
     yaffs_get_obj_name := get_obj_name;
     yaffs_find_by_name := find_by_name;
     yaffs_create_dir := fun fs _ _ _ => (fs, None);
     yaffs_create_file := fun fs _ _ _ => (fs, None);
     yaffs_flush_file := fun fs _ => (fs, YAFFS_FAIL);
     yaffs_get_obj_length := get_obj_length;
     yaffs_get_obj_link_count := get_obj_link_count;
     yaffs_file_rd := fun fs _ _ _ => (fs, [], -1);
     yaffs_wr_file := fun fs _ _ _ _ => (fs, -1) |}.

(** *** A small volume

    Device 0, mounted and writable, with root 1:
<<
    /            1  directory
    /a           2  file, 5000 bytes, mode 0100644
    /d           3  directory
    /d/h         5  hard link to /a
    /d/ln        6  symbolic link to "h"
    /up          4  symbolic link to "../x/y"
>> *)
Definition mk_obj (id : nat) (t : yaffs_obj_type) (v : yaffs_obj_variant)
    (par : option ptr) (sib : list_head) (mode : Z) (name : string) : yaffs_obj :=
  {| obj_id := Z.of_nat id; variant_type := t; variant := v; my_dev := 0%nat;
     parent := par; siblings_next := sib; yst_mode := mode; yst_rdev := 0;
     yst_atime := 1000; yst_mtime := 2000; yst_ctime := 3000; dirty := false;
     short_name := name |}.

Arguments mk_obj id%_nat t v par sib mode%_Z name%_string.

Definition example_objs : gmap nat yaffs_obj :=
  <[1%nat := mk_obj 1 YAFFS_OBJECT_TYPE_DIRECTORY (dir_variant (siblings_of 2))
               None (siblings_of 1) 16877 ""]>
  (<[2%nat := mk_obj 2 YAFFS_OBJECT_TYPE_FILE (file_variant 5000)
               (Some 1%nat) (siblings_of 3) 33188 "a"]>
  (<[3%nat := mk_obj 3 YAFFS_OBJECT_TYPE_DIRECTORY (dir_variant (siblings_of 5))
               (Some 1%nat) (siblings_of 4) 16877 "d"]>
  (<[4%nat := mk_obj 4 YAFFS_OBJECT_TYPE_SYMLINK (symlink_variant "../x/y")
               (Some 1%nat) (children_of 1) 41471 "up"]>
  (<[5%nat := mk_obj 5 YAFFS_OBJECT_TYPE_HARDLINK (hardlink_variant (Some 2%nat))
               (Some 3%nat) (siblings_of 6) 0 "h"]>
  (<[6%nat := mk_obj 6 YAFFS_OBJECT_TYPE_SYMLINK (symlink_variant "h")
               (Some 3%nat) (children_of 3) 41471 "ln"]> ∅))))).

Definition example_dev (mounted ro : bool) : yaffs_dev :=
  {| is_mounted := mounted; read_only := ro; root_dir := Some 1%nat;
     data_bytes_per_chunk := 2048 |}.

Definition example_fs : fs_state :=
  {| objs := example_objs; devs := {[ 0%nat := example_dev true false ]} |}.

(** The same graph on a device that is not mounted. *)
Definition unmounted_fs : fs_state :=
  {| objs := example_objs; devs := {[ 0%nat := example_dev false false ]} |}.

Definition loc_of (p : ptr) : rtems_filesystem_location_info_t :=
  {| node_access := Some p |}.

Definition iop_of (p : ptr) (off : Z) (cur : option ptr) : rtems_libio_t :=
  {| pathinfo := loc_of p; offset := off; data1 := cur; iop_size := 0 |}.

End Arena.

(** ** The rest of the RTEMS interface

    The entry points below use engine primitives that the ones above do not
    need; they are the fields of [EngineOps]. *)

Class EngineOps := {
  (* old directory, old name, new directory, new name: YAFFS_OK or YAFFS_FAIL *)
  yaffs_rename_obj :
    fs_state -> option ptr -> string -> option ptr -> string -> fs_state * Z;
  yaffs_del_obj : fs_state -> ptr -> fs_state * Z;
  (* object and new size *)
  yaffs_resize_file : fs_state -> ptr -> Z -> fs_state * Z
}.

Definition SEEK_CUR : Z := 1%Z.
Definition SEEK_END : Z := 2%Z.

Inductive rtems_filesystem_node_types_t :=
| RTEMS_FILESYSTEM_DIRECTORY
| RTEMS_FILESYSTEM_DEVICE
| RTEMS_FILESYSTEM_HARD_LINK
| RTEMS_FILESYSTEM_SYM_LINK
| RTEMS_FILESYSTEM_MEMORY_FILE
| RTEMS_FILESYSTEM_INVALID.        (* the value -1 *)

Definition set_offset (iop : rtems_libio_t) (off : Z) : rtems_libio_t :=
  {| pathinfo := pathinfo iop; offset := off; data1 := data1 iop;
     iop_size := iop_size iop |}.

Definition set_iop_size (iop : rtems_libio_t) (n : Z) : rtems_libio_t :=
  {| pathinfo := pathinfo iop; offset := offset iop; data1 := data1 iop;
     iop_size := n |}.

(** [obj->dirty = 1; obj->yst_atime = obj->yst_ctime = a; obj->yst_mtime = m] *)
Definition set_times (o : yaffs_obj) (a m : Z) : yaffs_obj :=
  {| obj_id := obj_id o; variant_type := variant_type o; variant := variant o;
     my_dev := my_dev o; parent := parent o; siblings_next := siblings_next o;
     yst_mode := yst_mode o; yst_rdev := yst_rdev o; yst_atime := a;
     yst_mtime := m; yst_ctime := a;
     dirty := true; short_name := short_name o |}.

(** [strrchr s c]: the index of the last [c] in [s], [None] for NULL. *)
Fixpoint strrchr (s : string) (c : ascii) : option nat :=
  match s with
  | EmptyString => None
  | String a s' =>
      match strrchr s' c with
      | Some i => Some (S i)
      | None => if Ascii.eqb a c then Some 0 else None
      end
  end.

Fixpoint all_slashes (s : string) : bool :=
  match s with
  | EmptyString => true
  | String c s' => Ascii.eqb c "/" && all_slashes s'
  end.

(** The loop of [ycb_eval_path_for_make] that overwrites the ['/'] at the
    end of the copy with NUL: what the copy reads as afterwards. *)
Fixpoint strip_trailing_slashes (s : string) : string :=
  match s with
  | EmptyString => EmptyString
  | String c s' =>
      if all_slashes s then EmptyString
      else String c (strip_trailing_slashes s')
  end.

(** [s + n] on a pointer into a string. *)
Fixpoint advance (n : nat) (s : string) : string :=
  match n, s with
  | O, _ => s
  | S n', String _ s' => advance n' s'
  | S _, EmptyString => EmptyString
  end.

(** The handler table a location is bound to. *)
Inductive handlers_ref :=
| yaffs_directory_handlers
| yaffs_file_handlers
| other_handlers.

Definition is_directory_handlers (h : handlers_ref) : bool :=
  match h with yaffs_directory_handlers => true | _ => false end.

Section MoreCallbacks.
Context {P : Platform} {E : Engine} {X : EngineOps}.
Local Open Scope Z_scope.

Definition ycb_node_type (fs : fs_state)
    (pathloc : rtems_filesystem_location_info_t)
    : run (rtems_filesystem_node_types_t * errno_write) :=
  do (_, o) <- deref_opt fs (node_access pathloc);
  match variant_type o with
  | YAFFS_OBJECT_TYPE_FILE => Ret (RTEMS_FILESYSTEM_MEMORY_FILE, None)
  | YAFFS_OBJECT_TYPE_SYMLINK => Ret (RTEMS_FILESYSTEM_SYM_LINK, None)
  | YAFFS_OBJECT_TYPE_DIRECTORY => Ret (RTEMS_FILESYSTEM_DIRECTORY, None)
  | YAFFS_OBJECT_TYPE_HARDLINK => Ret (RTEMS_FILESYSTEM_HARD_LINK, None)
  | YAFFS_OBJECT_TYPE_SPECIAL => Ret (RTEMS_FILESYSTEM_DEVICE, None)
  | YAFFS_OBJECT_TYPE_UNKNOWN => Ret (RTEMS_FILESYSTEM_INVALID, Some EINVAL)
  end.

Definition ycb_utime (fs : fs_state) (pathloc : rtems_filesystem_location_info_t)
    (actime modtime : Z) : run cb_result :=
  do (obj0, _) <- deref_opt fs (node_access pathloc);
  match yaffs_get_equivalent_obj fs obj0 with
  | Some obj =>
      do o <- deref fs obj;
      Ret (set_objs fs
             (<[obj := set_times o (cast_u32 actime) (cast_u32 modtime)]> (objs fs)),
           0, None)
  | None => Ret (fs, 0, None)
  end.

Definition ycb_rename (fs : fs_state)
    (old_parent_loc old_loc new_parent_loc : rtems_filesystem_location_info_t)
    (name : string) : run cb_result :=
  do (obj, o) <- deref_opt fs (node_access old_loc);
  do d <- deref_dev fs (my_dev o);
  if read_only d then Ret (fs, -1, Some EROFS)
  else
    do oldname <- yaffs_get_obj_name fs (Some obj) NAME_MAX;
    let '(fs', r) :=
      yaffs_rename_obj fs (parent o) oldname (node_access new_parent_loc) name in
    if r =? YAFFS_FAIL then Ret (fs', -1, Some EIO)
    else Ret (fs', 0, None).

Definition ycb_dir_rmnod (fs : fs_state)
    (parent_loc pathloc : rtems_filesystem_location_info_t) : run cb_result :=
  do (obj, o) <- deref_opt fs (node_access pathloc);
  do d <- deref_dev fs (my_dev o);
  if read_only d then Ret (fs, -1, Some EROFS)
  else
    let '(fs', r) := yaffs_del_obj fs obj in
    if r =? YAFFS_FAIL then Ret (fs', -1, Some ENOTEMPTY)
    else Ret (fs', 0, None).

Definition ycb_unlink (fs : fs_state)
    (parent_pathloc pathloc : rtems_filesystem_location_info_t) : run cb_result :=
  ycb_dir_rmnod fs parent_pathloc pathloc.

(** Returns the handle afterwards, the value returned and the assignment to
    [errno]. *)
Definition ycb_file_lseek (fs : fs_state) (iop : rtems_libio_t) (length whence : Z)
    : run (rtems_libio_t * Z * errno_write) :=
  if whence =? SEEK_SET then
    Ret (set_offset iop length, length, None)
  else if whence =? SEEK_CUR then
    let off := cast_off64 (offset iop + length) in
    Ret (set_offset iop off, off, None)
  else if whence =? SEEK_END then
    do (obj, _) <- deref_opt fs (node_access (pathinfo iop));
    let off := cast_off64 (yaffs_get_obj_length fs obj + length) in
    Ret (set_offset iop off, off, None)
  else Ret (iop, -1, Some EINVAL).

(** Returns the graph and the handle afterwards, the value returned and the
    assignment to [errno]. *)
Definition ycb_file_ftruncate (fs : fs_state) (iop : rtems_libio_t) (length : Z)
    : run (fs_state * rtems_libio_t * Z * errno_write) :=
  do (obj, _) <- deref_opt fs (node_access (pathinfo iop));
  let '(fs', r) := yaffs_resize_file fs obj length in
  if r =? YAFFS_FAIL then Ret (fs', iop, -1, Some EIO)
  else Ret (fs', set_iop_size iop length, 0, None).

End MoreCallbacks.

(** [ycb_eval_path_for_make] splits a path and evaluates the part before the
    last name with [ycb_eval_path].  [ycb_eval_path] hands an escape to the
    mount above through pointer arithmetic on its own arguments, which
    strings as values do not carry, so it is a parameter here, together with
    what it leaves in [*pathloc]: [W] is the state it works on, [handlers_of]
    reads [pathloc->handlers], [freenod] is [pathloc->ops->freenod_h].
    [strdup1_ok] and [strdup2_ok] tell whether the two [strdup] find memory;
    [name] is [*name] on entry. *)
Section EvalPathForMake.
Context {W : Type}.
Variable ycb_eval_path : string -> Z -> Z -> W -> W * Z * errno_write.
Variable handlers_of : W -> handlers_ref.
Variable freenod : W -> W.
Local Open Scope Z_scope.

Definition ycb_eval_path_for_make (strdup1_ok strdup2_ok : bool) (path : string)
    (w : W) (name : option string) : W * option string * Z * errno_write :=
  if negb strdup1_ok then (w, name, -1, Some ENOMEM)
  else
    let path1 := strip_trailing_slashes path in
    match strrchr path1 "/" with
    | None =>
        let '(w', r, e) :=
          ycb_eval_path "." (cast_size_t (Z.of_nat (String.length path))) 0 w in
        (w', Some path, r, e)
    | Some s =>
        let name := Some (advance (S s) path) in
        if negb strdup2_ok then (w, name, -1, Some ENOMEM)
        else
          let path2 := cut_at path s in
          let '(w', r, e) :=
            ycb_eval_path path2 (cast_size_t (Z.of_nat (String.length path2))) 0 w in
          if (r =? 0) && negb (is_directory_handlers (handlers_of w'))
          then (freenod w', name, -1, Some EINVAL)
          else (w', name, r, e)
    end.

End EvalPathForMake.

(** ** Chains of siblings

    [sibling_chain fs obj cur cs]: from the cursor [cur] the links
    [siblings.next] visit the objects [cs] in turn and then reach the head of
    the list of children of [obj]. *)
Fixpoint sibling_chain (fs : fs_state) (obj : ptr) (cur : option ptr)
    (cs : list ptr) : Prop :=
  match cs with
  | [] => cur = None
  | c :: cs' =>
      cur = Some c
      /\ exists o, objs fs !! c = Some o
                   /\ match cs' with
                      | [] => siblings_next o = children_of obj
                      | c' :: _ => siblings_next o = siblings_of c'
                      end
                   /\ sibling_chain fs obj (head cs') cs'
  end.

Definition no_symlinks (fs : fs_state) : Prop :=
  map_Forall (fun (_ : nat) o => variant_type o <> YAFFS_OBJECT_TYPE_SYMLINK)
    (objs fs).

(** The two outcomes that [ycb_eval_path] tells apart when the object is
    NULL do not mix with a found object: an object comes with [*out_of_fs]
    NULL, and a suffix left in [*out_of_fs] starts with no divider. *)
Definition signal_ok {P : Platform} (r : found) : Prop :=
  (fst r <> None -> snd r = None)
  /\ (forall s, snd r = Some s -> starts_with_divider s = false).

(** ** Where a resolution stands

    [ends_with_name s]: the last character of [s] is no divider. *)
Fixpoint ends_with_name {P : Platform} (s : string) : bool :=
  match s with
  | EmptyString => false
  | String c s' =>
      match s' with
      | EmptyString => negb (is_path_divider c)
      | String _ _ => ends_with_name s'
      end
  end.

(** [arrives n fs start pre rel p out]: the loop of [h_find_object], entered
    on the object [start] with the path [pre ++ rel], comes to stand on the
    object [p] with [rel] left to read and [out] in [*out_of_fs].  Either
    nothing has been read yet, or [pre] ends with a name, [rel] starts with a
    divider, and the loop run on [pre] alone returns [p], with fuel [n]. *)
Definition arrives {P : Platform} {E : Engine} (n : nat) (fs : fs_state)
    (start : option ptr) (pre rel : string) (p : ptr) (out : option string)
    : Prop :=
  (pre = EmptyString /\ start = Some p /\ out = None)
  \/ (ends_with_name pre = true
      /\ starts_with_divider rel = true
      /\ h_find_object_while n fs start pre None = Ret (Some p, out)).

(** ** More to run on *)

Module Fixtures.
Local Open Scope Z_scope.

(** Modelled from the spec: resize(object, length) -> ok/fail and
    delete(object) -> ok/fail, rename(...) -> ok/fail (section 6), for the
    reference engine: a file takes the new length, anything else is refused;
    the name space of this engine is fixed, so delete and rename are
    refused.  [yaffs_resize_file], [yaffs_del_obj] and [yaffs_rename_obj] are
    engine code outside [rtems_yaffs.c]. *)
Definition ops : EngineOps :=
  {| yaffs_rename_obj := fun fs _ _ _ _ => (fs, YAFFS_FAIL);
     yaffs_del_obj := fun fs _ => (fs, YAFFS_FAIL);
     yaffs_resize_file := fun fs p len =>
       match objs fs !! p with
       | Some o =>
           match variant o with
           | file_variant _ =>
               (set_objs fs (<[p := Arena.set_variant o (file_variant len)]> (objs fs)),
                YAFFS_OK)
           | _ => (fs, YAFFS_FAIL)
           end
       | None => (fs, YAFFS_FAIL)
       end |}.

(** The small volume on a device mounted read-only. *)
Definition read_only_fs : fs_state :=
  {| objs := Arena.example_objs; devs := {[ 0%nat := Arena.example_dev true true ]} |}.

(** A volume without links: the root 1 with the file [a] (2) and the empty
    directory [d] (3). *)
Definition plain_objs : gmap nat yaffs_obj :=
  <[1%nat := Arena.mk_obj 1 YAFFS_OBJECT_TYPE_DIRECTORY (dir_variant (siblings_of 2))
               None (siblings_of 1) 16877 ""]>
  (<[2%nat := Arena.mk_obj 2 YAFFS_OBJECT_TYPE_FILE (file_variant 5000)
               (Some 1%nat) (siblings_of 3) 33188 "a"]>
  (<[3%nat := Arena.mk_obj 3 YAFFS_OBJECT_TYPE_DIRECTORY (dir_variant (children_of 3))
               (Some 1%nat) (children_of 1) 16877 "d"]> ∅)).

Definition plain_fs : fs_state :=
  {| objs := plain_objs; devs := {[ 0%nat := Arena.example_dev true false ]} |}.

(** The small volume after [utime] of [/a] with the access time -1, one
    second before the epoch, and the modification time 5. *)
Definition touched_fs : fs_state :=
  set_objs Arena.example_fs
    (<[2%nat := set_times
                  (Arena.mk_obj 2 YAFFS_OBJECT_TYPE_FILE (file_variant 5000)
                     (Some 1%nat) (siblings_of 3) 33188 "a")
                  4294967295 5]> Arena.example_objs).

(** The reference platform with names of at most three characters. *)
Definition short_names_platform : Platform :=
  {| YAFFS_PATH_DIVIDERS := "/"; YAFFS_MAX_NAME_LENGTH := 3; NAME_MAX := 255;
     S_IFMT := 61440; S_IFDIR := 16384; S_IFLNK := 40960; S_IFREG := 32768;
     sizeof_dirent := 280 |}.

(** A stand-in for [ycb_eval_path] on a state that records the path it was
    given: it succeeds and binds the directory handlers. *)
Definition record_eval_path (pathname : string) (pathnamelen flags : Z)
    (w : list string) : list string * Z * errno_write :=
  (pathname :: w, 0, None).

End Fixtures.

(** * Properties *)

Local Open Scope string_scope.

(** ** Path resolution *)

Section ResolverFacts.
Context {P : Platform} {E : Engine}.

Lemma deref_Some (fs : fs_state) (p : ptr) (o : yaffs_obj) :
  objs fs !! p = Some o -> deref fs p = Ret o.
Proof. intros H. unfold deref. now rewrite H. Qed.

Lemma deref_dev_Some (fs : fs_state) (dev : ptr) (d : yaffs_dev) :
  devs fs !! dev = Some d -> deref_dev fs dev = Ret d.
Proof. intros H. unfold deref_dev. now rewrite H. Qed.

Lemma deref_Ret (fs : fs_state) (p : ptr) (o : yaffs_obj) :
  deref fs p = Ret o -> objs fs !! p = Some o.
Proof. unfold deref. destruct (objs fs !! p); congruence. Qed.

(** Once the object in hand is NULL both loops return at once, whatever
    [*out_of_fs] holds: an escape signal raised in a nested resolution
    reaches the outermost caller unchanged. *)
Lemma h_follow_link_while_null (fuel : nat) (fs : fs_state) (out : option string) :
  h_follow_link_while (S fuel) fs None out = Ret (None, out).
Proof. reflexivity. Qed.

Lemma h_find_object_while_null (fuel : nat) (fs : fs_state) (pathname : string)
    (out : option string) :
  h_find_object_while (S fuel) fs None pathname out = Ret (None, out).
Proof. reflexivity. Qed.

(** C3 (amended).  On a device that is not mounted [h_find_object] returns
    NULL and clears [*out_of_fs], unless the shortcut at its head applies:
    the path has no ['/'] and equals the name of the starting object. *)
Theorem h_find_object_not_mounted (fuel : nat) (fs : fs_state) (dev : ptr)
    (d : yaffs_dev) (dir : option ptr) (pathname : string)
    (out_of_fs : option string) :
  devs fs !! dev = Some d ->
  is_mounted d = false ->
  (strchr pathname "/" = None ->
   exists sux, yaffs_get_obj_name fs dir NAME_MAX = Ret sux /\ sux <> pathname) ->
  h_find_object (S fuel) fs dev dir pathname out_of_fs = Ret (None, None).
Proof.
  intros Hd Hm Hs. cbn [h_find_object].
  destruct (strchr pathname "/") as [i|] eqn:Hc.
  - cbn. rewrite (deref_dev_Some _ _ _ Hd). cbn. now rewrite Hm.
  - destruct (Hs eq_refl) as (sux & Hn & Hne). rewrite Hn. cbn.
    apply String.eqb_neq in Hne. rewrite Hne.
    rewrite (deref_dev_Some _ _ _ Hd). cbn. now rewrite Hm.
Qed.

End ResolverFacts.

(** C3 as stated fails: on the device that is not mounted, resolving [d]
    from the directory named [d] returns that directory. *)
Lemma h_find_object_not_mounted_returns_object :
  (devs Arena.unmounted_fs !! 0%nat = Some (Arena.example_dev false false)) /\
  is_mounted (Arena.example_dev false false) = false /\
  @h_find_object rtems_platform Arena.engine 1 Arena.unmounted_fs 0%nat
    (Some 3%nat) "d" None
  = Ret (Some 3%nat, None).
Proof. repeat split; reflexivity. Qed.

(** C3 (amended), on the device that is not mounted: [a] from the directory
    named [d] is not found. *)
Lemma h_find_object_not_mounted_witness :
  @h_find_object rtems_platform Arena.engine 1 Arena.unmounted_fs 0%nat
    (Some 3%nat) "a" None
  = Ret (None, None).
Proof.
  apply (@h_find_object_not_mounted rtems_platform Arena.engine 0
           Arena.unmounted_fs 0%nat (Arena.example_dev false false)).
  - reflexivity.
  - reflexivity.
  - intros _. exists "d". split; [reflexivity | discriminate].
Defined.

(** ** The symlink follower *)

Section FollowLinkFacts.
Context {P : Platform} {E : Engine}.
Variable fs : fs_state.
Hypothesis Hequiv : equivalents_resolved fs.
Hypothesis Hparents : parents_resolved fs.
Hypothesis Hroots : roots_resolved fs.

Lemma run_bind_Ret_inv {A B : Type} (m : run A) (k : A -> run B) (b : B) :
  run_bind m k = Ret b -> exists a, m = Ret a /\ k a = Ret b.
Proof. destruct m as [a| |]; cbn; intros H; try discriminate. eauto. Qed.

Lemma run_bind_Ret_intro {A B : Type} (m : run A) (k : A -> run B) (a : A) (b : B) :
  m = Ret a -> k a = Ret b -> run_bind m k = Ret b.
Proof. intros -> H. exact H. Qed.

Lemma terminal_no_hardlink (q : option ptr) : terminal fs q -> no_hardlink fs q.
Proof.
  destruct q as [p|]; cbn; [|trivial]. intros (o & Ho & _ & Hh).
  unfold is_hardlink. rewrite Ho. destruct (variant_type o); cbn; congruence.
Qed.

Lemma parent_no_hardlink (p : ptr) (o : yaffs_obj) :
  objs fs !! p = Some o -> no_hardlink fs (parent o).
Proof. intros Ho. exact (Hparents p o Ho). Qed.

(** The four functions of the mutual recursion, for one amount of fuel:
    [h_follow_link] and its loop return a terminal object, [h_find_object]
    and its loop return no hard link when they start from none. *)
Lemma resolver_results (n : nat) :
  (forall obj out r, h_follow_link n fs obj out = Ret r -> terminal fs (fst r))
  /\ (forall obj out r,
        no_hardlink fs obj ->
        h_follow_link_while n fs obj out = Ret r -> terminal fs (fst r))
  /\ (forall dev dir pathname out r,
        no_hardlink fs dir ->
        h_find_object n fs dev dir pathname out = Ret r -> no_hardlink fs (fst r))
  /\ (forall dir pathname out r,
        no_hardlink fs dir ->
        h_find_object_while n fs dir pathname out = Ret r ->
        no_hardlink fs (fst r)).
Proof.
  induction n as [|n (IHf & IHfw & IHo & IHow)].
  { repeat split; cbn; intros; discriminate. }
  assert (Hend : forall pathname r r',
             no_hardlink fs (fst r) ->
             (if is_empty pathname then Ret r
              else h_find_object_while n fs (fst r) pathname (snd r)) = Ret r' ->
             no_hardlink fs (fst r')).
  { intros pathname r r' Hr H. destruct (is_empty pathname).
    - now inversion H; subst.
    - eapply IHow; eauto. }
  repeat split.
  - (* h_follow_link *)
    intros obj out r H. cbn [h_follow_link] in H.
    eapply IHfw; [|exact H].
    destruct obj as [p|]; [apply Hequiv | exact I].
  - (* the loop of h_follow_link *)
    intros obj out r Hobj H. cbn [h_follow_link_while] in H.
    destruct obj as [p|]; [|inversion H; exact I].
    apply run_bind_Ret_inv in H as (o & Ho & H). apply deref_Ret in Ho.
    destruct (obj_type_eqb (variant_type o) YAFFS_OBJECT_TYPE_SYMLINK) eqn:Hsym.
    + destruct (variant o) as [| |alias| |]; try discriminate.
      apply run_bind_Ret_inv in H as (r0 & H0 & H).
      eapply IHfw; [|exact H].
      destruct (starts_with_divider alias).
      * eapply IHo; [|exact H0]. exact I.
      * eapply IHo; [|exact H0]. eapply parent_no_hardlink; eauto.
    + inversion H; subst; cbn. exists o. split; [exact Ho|]. split.
      * intros Ht. rewrite Ht in Hsym. discriminate.
      * intros Ht. cbn in Hobj. unfold is_hardlink in Hobj.
        rewrite Ho, Ht in Hobj. discriminate.
  - (* h_find_object *)
    intros dev dir pathname out r Hdir H. cbn [h_find_object] in H.
    apply run_bind_Ret_inv in H as (shortcut & _ & H).
    destruct shortcut; [inversion H; subst; exact Hdir|].
    apply run_bind_Ret_inv in H as (d & Hd & H).
    destruct (negb (is_mounted d)); [inversion H; exact I|].
    eapply IHow; [|exact H].
    destruct dir as [q|]; [exact Hdir|].
    unfold deref_dev in Hd. destruct (devs fs !! dev) as [d'|] eqn:Hd'; [|discriminate].
    inversion Hd; subst. exact (Hroots dev d Hd').
  - (* the loop of h_find_object *)
    intros dir pathname out r Hdir H. cbn [h_find_object_while] in H.
    destruct dir as [p|]; [|inversion H; exact I].
    destruct (scan_name 0 (skip_dividers pathname)) as [str rest].
    destruct (String.eqb str ".").
    { eapply (Hend rest (Some p, out)); eauto. }
    destruct (String.eqb str "..").
    { apply run_bind_Ret_inv in H as (o & Ho & H). apply deref_Ret in Ho.
      pose proof (parent_no_hardlink p o Ho) as Hup.
      destruct (parent o) as [up|]; [|inversion H; exact I].
      eapply (Hend rest (Some up, out)); eauto. }
    apply run_bind_Ret_inv in H as (dir' & _ & H).
    destruct dir' as [dir'|]; [|inversion H; exact I].
    apply run_bind_Ret_inv in H as (r1 & H1 & H).
    eapply (Hend rest r1); [|exact H].
    apply terminal_no_hardlink. eapply IHf; eauto.
Qed.

(** C5.  When [h_follow_link] returns an object, that object is neither a
    symbolic link nor a hard link: the loop leaves only on NULL or on an
    object that is no symbolic link, hard links are resolved by
    [yaffs_get_equivalent_obj] on entry, and every object that the nested
    resolution finds by name has gone through [h_follow_link] itself.  The
    graph is assumed well formed: equivalent objects, parents and roots are
    no hard links. *)
Theorem h_follow_link_terminal (fuel : nat) (obj : option ptr)
    (out out' : option string) (p : ptr) :
  h_follow_link fuel fs obj out = Ret (Some p, out') ->
  exists o, objs fs !! p = Some o
            /\ variant_type o <> YAFFS_OBJECT_TYPE_SYMLINK
            /\ variant_type o <> YAFFS_OBJECT_TYPE_HARDLINK.
Proof.
  intros H. destruct (resolver_results fuel) as (Hf & _).
  exact (Hf obj out (Some p, out') H).
Qed.

End FollowLinkFacts.

(** The reference engine keeps the contract on equivalent objects when every
    hard link of the store points to an object that is none. *)
Lemma arena_equivalents_resolved (fs : fs_state) :
  Arena.links_resolved fs -> equivalents_resolved (E := Arena.engine) fs.
Proof.
  intros H p. cbn. unfold Arena.get_equivalent_obj.
  destruct (objs fs !! p) as [o|] eqn:Ho; [|exact I].
  destruct (variant_type o) eqn:Ht;
    try (cbn; unfold is_hardlink; rewrite Ho, Ht; reflexivity).
  destruct (H p o Ho Ht) as (e & He & Hn). rewrite He. exact Hn.
Qed.

Lemma example_links_resolved : Arena.links_resolved Arena.example_fs.
Proof.
  unfold Arena.links_resolved.
  change (objs Arena.example_fs) with Arena.example_objs.
  unfold Arena.example_objs.
  repeat (apply map_Forall_insert_2;
          [cbv beta; intros Ht; cbn in Ht;
           first [discriminate Ht
                 | eexists; split; [reflexivity | vm_compute; reflexivity]] |]).
  intros k x Hk. rewrite lookup_empty in Hk. discriminate Hk.
Qed.

Lemma example_parents_resolved : parents_resolved Arena.example_fs.
Proof.
  unfold parents_resolved.
  change (objs Arena.example_fs) with Arena.example_objs.
  unfold Arena.example_objs.
  repeat (apply map_Forall_insert_2; [cbv beta; reflexivity |]).
  intros k x Hk. rewrite lookup_empty in Hk. discriminate Hk.
Qed.

Lemma example_roots_resolved : roots_resolved Arena.example_fs.
Proof.
  unfold roots_resolved. cbn [devs Arena.example_fs].
  apply map_Forall_singleton. reflexivity.
Qed.

(** C5, on the small volume: the symbolic link [/d/ln] names the hard link
    [/d/h]; following it ends on the file [/a]. *)
Lemma h_follow_link_terminal_witness :
  @h_follow_link rtems_platform Arena.engine 6 Arena.example_fs (Some 6%nat) None
  = Ret (Some 2%nat, None)
  /\ exists o, objs Arena.example_fs !! 2%nat = Some o
               /\ variant_type o <> YAFFS_OBJECT_TYPE_SYMLINK
               /\ variant_type o <> YAFFS_OBJECT_TYPE_HARDLINK.
Proof.
  split; [reflexivity |].
  exact (@h_follow_link_terminal rtems_platform Arena.engine Arena.example_fs
           (arena_equivalents_resolved _ example_links_resolved)
           example_parents_resolved example_roots_resolved
           6%nat (Some 6%nat) None None 2%nat eq_refl).
Defined.

(** ** C strings *)

Lemma strchr_cut_at (s : string) (c : ascii) (i : nat) :
  strchr s c = Some i -> strchr (cut_at s i) c = None.
Proof.
  unfold cut_at. revert i. induction s as [|a s IH]; intros i H; cbn in H.
  - discriminate.
  - destruct (Ascii.eqb a c) eqn:Hac.
    + inversion H; subst. reflexivity.
    + destruct (strchr s c) as [j|] eqn:Hj; [|discriminate].
      inversion H; subst. cbn. rewrite Hac. now rewrite (IH j eq_refl).
Qed.

Lemma strchr_split (s : string) (c : ascii) (i : nat) :
  strchr s c = Some i -> exists rest, s = cut_at s i ++ String c rest.
Proof.
  unfold cut_at. revert i. induction s as [|a s IH]; intros i H; cbn in H.
  - discriminate.
  - destruct (Ascii.eqb a c) eqn:Hac.
    + inversion H; subst. apply Ascii.eqb_eq in Hac. subst. exists s. reflexivity.
    + destruct (strchr s c) as [j|] eqn:Hj; [|discriminate].
      inversion H; subst. destruct (IH j eq_refl) as (rest & Hr).
      exists rest. cbn [substring].
      change (String a s = String a (substring 0 j s ++ String c rest)).
      f_equal. exact Hr.
Qed.

(** ** Machine integers *)

Lemma wrap_signed_small (w x : Z) :
  (0 < w)%Z -> (- 2 ^ (w - 1) <= x < 2 ^ (w - 1))%Z -> wrap_signed w x = x.
Proof.
  intros Hw Hx. unfold wrap_signed.
  assert (2 ^ w = 2 * 2 ^ (w - 1))%Z as ->.
  { rewrite <- Z.pow_succ_r by lia. f_equal. lia. }
  rewrite Z.mod_small; lia.
Qed.

Lemma wrap_unsigned_small (w x : Z) :
  (0 <= x < 2 ^ w)%Z -> wrap_unsigned w x = x.
Proof. intros Hx. unfold wrap_unsigned. now apply Z.mod_small. Qed.

(** A conversion between the signed and the unsigned type of one width keeps
    the bits. *)
Lemma wrap_signed_unsigned (w x : Z) :
  wrap_signed w (wrap_unsigned w x) = wrap_signed w x.
Proof. unfold wrap_signed, wrap_unsigned. now rewrite Zplus_mod_idemp_l. Qed.

Lemma wrap_unsigned_signed (w x : Z) :
  wrap_unsigned w (wrap_signed w x) = wrap_unsigned w x.
Proof.
  unfold wrap_signed, wrap_unsigned. rewrite Zminus_mod_idemp_l.
  f_equal. lia.
Qed.

Lemma not32_testbit (x i : Z) :
  (0 <= i)%Z ->
  Z.testbit (not32 x) i = (i <? 32)%Z && negb (Z.testbit x i).
Proof.
  intros Hi. unfold not32, wrap_unsigned.
  destruct (Z.ltb_spec i 32).
  - rewrite Z.mod_pow2_bits_low by lia. now rewrite Z.lnot_spec.
  - rewrite Z.mod_pow2_bits_high by lia. reflexivity.
Qed.

Lemma land_not32_self (x : Z) : Z.land x (not32 x) = 0%Z.
Proof.
  apply Z.bits_inj'. intros i Hi.
  rewrite Z.land_spec, not32_testbit, Z.bits_0 by lia.
  destruct (Z.testbit x i), (i <? 32)%Z; reflexivity.
Qed.

(** A 32-bit value without bits in [~m] lies within [m]. *)
Lemma land_not32_zero (x m : Z) :
  (0 <= x < 2 ^ 32)%Z -> Z.land x (not32 m) = 0%Z -> Z.land x m = x.
Proof.
  intros Hx H. apply Z.bits_inj'. intros i Hi.
  rewrite Z.land_spec.
  assert (Hb : Z.testbit (Z.land x (not32 m)) i = false) by (rewrite H; apply Z.bits_0).
  rewrite Z.land_spec, not32_testbit in Hb by lia.
  destruct (Z.ltb_spec i 32).
  - destruct (Z.testbit x i), (Z.testbit m i); cbn in *; congruence.
  - assert (Z.testbit x i = false) as ->; [|reflexivity].
    destruct (Z.eq_dec x 0%Z) as [->|Hx0]; [apply Z.bits_0|].
    apply Z.bits_above_log2; [lia|].
    assert (Z.log2 x < 32)%Z by (apply Z.log2_lt_pow2; lia). lia.
Qed.

(** Or-ing [b] over [a & ~m], for [b] within [m]: the bits of [m] are those
    of [b], the others those of [a]. *)
Lemma overlay_bits (a b m : Z) :
  Z.land b m = b ->
  let r := Z.lor (Z.land a (not32 m)) b in
  Z.land r m = b /\ Z.land r (not32 m) = Z.land a (not32 m).
Proof.
  intros Hb r. subst r. split.
  - rewrite Z.land_lor_distr_l, <- Z.land_assoc.
    rewrite (Z.land_comm (not32 m) m), land_not32_self, Z.land_0_r, Hb.
    apply Z.lor_0_l.
  - rewrite Z.land_lor_distr_l, <- Z.land_assoc, Z.land_diag.
    rewrite <- Hb, <- Z.land_assoc, land_not32_self, Z.land_0_r.
    apply Z.lor_0_r.
Qed.

(** ** Create, chown, chmod *)

Section NodeFacts.
Context {P : Platform} {E : Engine}.
Local Open Scope Z_scope.

(** C2 (amended).  [ycb_mknod] does not reject a name with a ['/']: it cuts
    the name at the first ['/'] and goes on with the part before it, so the
    call is the same as the call for that part, which has no ['/'] left.  On
    a writable volume without an entry of that name the cut name is handed to
    the engine: to [yaffs_create_dir] for a directory mode, to
    [yaffs_create_file] for the mode of a regular file.  The call returns 0
    when the engine hands back the new object and fails with [ENOSPC] when it
    does not. *)
Theorem ycb_mknod_cuts_name (strdup_ok : bool) (fs : fs_state) (path : string)
    (mode the_dev : Z) (pathloc : rtems_filesystem_location_info_t) (i : nat) :
  strchr path "/" = Some i ->
  let name := cut_at path i in
  (exists rest, path = name ++ String "/" rest)%string
  /\ strchr name "/" = None
  /\ ycb_mknod strdup_ok fs path mode the_dev pathloc
     = ycb_mknod strdup_ok fs name mode the_dev pathloc
  /\ (forall parent po d,
        node_access pathloc = Some parent ->
        objs fs !! parent = Some po ->
        devs fs !! my_dev po = Some d ->
        strdup_ok = true ->
        read_only d = false ->
        yaffs_find_by_name fs parent name = None ->
        (S_ISDIR mode = true ->
         ycb_mknod strdup_ok fs path mode the_dev pathloc
         = match yaffs_create_dir fs parent name mode with
           | (fs', Some _) => Ret (fs', 0, None)
           | (fs', None) => Ret (fs', -1, Some ENOSPC)
           end)
        /\ (S_ISDIR mode = false ->
            S_ISREG mode = true ->
            ycb_mknod strdup_ok fs path mode the_dev pathloc
            = match yaffs_create_file fs parent name mode with
              | (fs', Some _) => Ret (fs', 0, None)
              | (fs', None) => Ret (fs', -1, Some ENOSPC)
              end)).
Proof.
  intros Hi name. pose proof (strchr_cut_at _ _ _ Hi) as Hcut.
  split; [exact (strchr_split _ _ _ Hi)|]. split; [exact Hcut|]. split.
  - unfold ycb_mknod. subst name. now rewrite Hi, Hcut.
  - intros parent po d Hloc Hpo Hd -> Hro Hfind.
    assert (Hrun : ycb_mknod true fs path mode the_dev pathloc
                   = if S_ISDIR mode then
                       match yaffs_create_dir fs parent name mode with
                       | (fs', None) => Ret (fs', -1, Some ENOSPC)
                       | (fs', Some _) => Ret (fs', 0, None)
                       end
                     else if S_ISREG mode then
                       match yaffs_create_file fs parent name mode with
                       | (fs', None) => Ret (fs', -1, Some ENOSPC)
                       | (fs', Some _) => Ret (fs', 0, None)
                       end
                     else Ret (fs, -1, Some ENOSYS)).
    { unfold ycb_mknod. rewrite Hi, Hloc. fold name. cbn.
      rewrite (deref_Some _ _ _ Hpo). cbn.
      rewrite (deref_dev_Some _ _ _ Hd). cbn.
      now rewrite Hro, Hfind. }
    split.
    + intros Hdir. rewrite Hrun, Hdir.
      destruct (yaffs_create_dir fs parent name mode) as [fs' [obj|]]; reflexivity.
    + intros Hdir Hreg. rewrite Hrun, Hdir, Hreg.
      destruct (yaffs_create_file fs parent name mode) as [fs' [obj|]]; reflexivity.
Qed.

(** C6.  [ycb_fchmod] answers a mode with a bit outside [0777] with [EINVAL]
    and leaves the graph as it is.  For a mode within [0777], on a writable
    device, the mode stored in the equivalent object becomes
    [(yst_mode & ~0777) | mode] before the object is flushed: its low nine
    bits are the new mode, its other bits are the old ones. *)
Theorem ycb_fchmod_permission_bits (fs : fs_state)
    (loc : rtems_filesystem_location_info_t) (mode : Z) :
  0 <= mode < 2 ^ 32 ->
  (Z.land mode (not32 511) <> 0 ->
   ycb_fchmod fs loc mode = Ret (fs, -1, Some EINVAL))
  /\ (Z.land mode (not32 511) = 0 ->
      forall obj0 o0 d obj o,
        node_access loc = Some obj0 ->
        objs fs !! obj0 = Some o0 ->
        devs fs !! my_dev o0 = Some d ->
        read_only d = false ->
        yaffs_get_equivalent_obj fs obj0 = Some obj ->
        objs fs !! obj = Some o ->
        let m := merge_mode (yst_mode o) mode in
        let fs1 := set_objs fs (<[obj := set_mode o m]> (objs fs)) in
        Z.land m 511 = mode
        /\ Z.land m (not32 511) = Z.land (yst_mode o) (not32 511)
        /\ ycb_fchmod fs loc mode
           = (let (fs', result) := yaffs_flush_file fs1 obj in
              if result =? YAFFS_OK then Ret (fs', 0, None)
              else Ret (fs', -1, Some EIO))).
Proof.
  intros Hmode. split.
  - intros Hbad. unfold ycb_fchmod.
    apply Z.eqb_neq in Hbad. now rewrite Hbad.
  - intros Hok obj0 o0 d obj o Hloc Ho0 Hd Hro Heq Ho m fs1.
    pose proof (land_not32_zero mode 511 Hmode Hok) as Hlow.
    destruct (overlay_bits (yst_mode o) mode 511 Hlow) as (H1 & H2).
    split; [exact H1|]. split; [exact H2|].
    unfold ycb_fchmod. rewrite Hok, Hloc. cbn.
    rewrite (deref_Some _ _ _ Ho0). cbn.
    rewrite (deref_dev_Some _ _ _ Hd). cbn.
    rewrite Hro, Heq. rewrite (deref_Some _ _ _ Ho). cbn.
    fold m. fold fs1.
    destruct (yaffs_flush_file fs1 obj) as [fs' result]. cbn.
    destruct (result =? YAFFS_OK); reflexivity.
Qed.

End NodeFacts.

(** C4 (amended).  [ycb_chown] changes nothing, sets [errno] to 0 and
    returns 0, whatever its arguments. *)
Theorem ycb_chown_succeeds (fs : fs_state)
    (pathloc : rtems_filesystem_location_info_t) (owner group : Z) :
  ycb_chown fs pathloc owner group = (fs, 0%Z, Some E_ZERO).
Proof. reflexivity. Qed.

(** C4 as stated fails: on the small volume [chown] of the root returns 0
    and does not set [ENOSYS]. *)
Lemma ycb_chown_not_ENOSYS :
  let r := ycb_chown Arena.example_fs (Arena.loc_of 1) 0 0 in
  snd (fst r) = 0%Z /\ snd (fst r) <> (-1)%Z /\ snd r <> Some ENOSYS.
Proof. cbn. repeat split; discriminate. Qed.

(** C2 as stated fails: on the small volume, creating the regular file
    [new/leaf] under the root succeeds and leaves a new object named [new]. *)
Lemma ycb_mknod_creates_despite_separator :
  strchr "new/leaf" "/" = Some 3%nat
  /\ Arena.find_by_name Arena.example_fs 1 "new" = None
  /\ exists fs',
       @ycb_mknod rtems_platform Arena.engine true Arena.example_fs "new/leaf"
         33188 0 (Arena.loc_of 1)
       = Ret (fs', 0%Z, None)
       /\ Arena.find_by_name fs' 1 "new" = Some 7%nat
       /\ objs Arena.example_fs !! 7%nat = None
       /\ (short_name <$> objs fs' !! 7%nat) = Some "new".
Proof.
  split; [reflexivity|]. split; [vm_compute; reflexivity|].
  eexists. split; [vm_compute; reflexivity|].
  repeat split; vm_compute; reflexivity.
Qed.

(** C2 (amended), on the small volume: the regular file [new/leaf] is
    created as [new], and so is the directory [new/leaf] (mode [040755]). *)
Lemma ycb_mknod_cuts_name_witness :
  strchr "new/leaf" "/" = Some 3%nat
  /\ @ycb_mknod rtems_platform Arena.engine true Arena.example_fs "new/leaf"
       33188 0 (Arena.loc_of 1)
     = @ycb_mknod rtems_platform Arena.engine true Arena.example_fs "new"
         33188 0 (Arena.loc_of 1)
  /\ exists fs',
       @ycb_mknod rtems_platform Arena.engine true Arena.example_fs "new/leaf"
         16877 0 (Arena.loc_of 1)
       = Ret (fs', 0%Z, None)
       /\ (variant_type <$> objs fs' !! 7%nat) = Some YAFFS_OBJECT_TYPE_DIRECTORY
       /\ (short_name <$> objs fs' !! 7%nat) = Some "new".
Proof.
  split; [reflexivity|]. split.
  - exact (proj1 (proj2 (proj2
      (@ycb_mknod_cuts_name rtems_platform Arena.engine true Arena.example_fs
         "new/leaf" 33188 0 (Arena.loc_of 1) 3%nat eq_refl)))).
  - pose proof (proj1 (proj2 (proj2 (proj2
      (@ycb_mknod_cuts_name rtems_platform Arena.engine true Arena.example_fs
         "new/leaf" 16877 0 (Arena.loc_of 1) 3%nat eq_refl)))
      1%nat _ (Arena.example_dev true false)
      eq_refl eq_refl eq_refl eq_refl eq_refl eq_refl) eq_refl) as H.
    eexists. split; [rewrite H; vm_compute; reflexivity|].
    split; vm_compute; reflexivity.
Defined.

(** C6, on the small volume: [01000] is refused and nothing changes; [0700]
    on the directory [/d] (mode [040755]) stores [040700]. *)
Lemma ycb_fchmod_permission_bits_witness :
  @ycb_fchmod Arena.engine Arena.example_fs (Arena.loc_of 3) 512
  = Ret (Arena.example_fs, (-1)%Z, Some EINVAL)
  /\ Z.land (merge_mode 16877 448) 511 = 448%Z
  /\ Z.land (merge_mode 16877 448) (not32 511) = Z.land 16877 (not32 511)
  /\ exists fs',
       @ycb_fchmod Arena.engine Arena.example_fs (Arena.loc_of 3) 448
       = Ret (fs', 0%Z, None)
       /\ (yst_mode <$> objs fs' !! 3%nat) = Some 16832%Z.
Proof.
  split.
  { apply (proj1 (@ycb_fchmod_permission_bits Arena.engine Arena.example_fs
                    (Arena.loc_of 3) 512 ltac:(lia))).
    discriminate. }
  pose proof (proj2 (@ycb_fchmod_permission_bits Arena.engine Arena.example_fs
                       (Arena.loc_of 3) 448 ltac:(lia)) eq_refl
                3%nat _ _ 3%nat _ eq_refl eq_refl eq_refl eq_refl eq_refl eq_refl)
    as (H1 & H2 & H3).
  split; [exact H1|]. split; [exact H2|].
  eexists. split; [rewrite H3; vm_compute; reflexivity|].
  vm_compute. reflexivity.
Defined.

(** ** File I/O, stat and directory reads *)

Section IoFacts.
Context {P : Platform} {E : Engine}.
Local Open Scope Z_scope.

Lemma read_request_clamped (ol off count : Z) :
  0 <= ol <= INT_MAX ->
  - 2 ^ 31 <= off ->
  0 <= count <= SIZE_MAX ->
  Z.min count (Z.max 0 (ol - off)) <= INT_MAX ->
  read_request ol off count = Z.min count (Z.max 0 (ol - off)).
Proof.
  unfold INT_MAX, SIZE_MAX, read_request. intros Hol Hoff Hcount Hfit.
  destruct (Z.geb_spec off ol) as [Hge|Hlt].
  - rewrite Z.max_l by lia.
    assert ((if count >? 0 then 0 else count) = 0) as ->.
    { destruct (Z.gtb_spec count 0); lia. }
    rewrite Z.min_r by lia. reflexivity.
  - unfold cast_int, cast_size_t.
    rewrite (wrap_signed_small 32 off) by lia.
    rewrite (wrap_unsigned_small 32 (ol - off)) by lia.
    rewrite Z.max_r in * by lia.
    destruct (Z.gtb_spec count (ol - off)).
    + rewrite Z.min_r in * by lia. apply wrap_signed_small; lia.
    + rewrite Z.min_l in * by lia. apply wrap_signed_small; lia.
Qed.

(** C7 (amended).  For a file of length [L] (an [int]), a handle at an
    offset [off] from 0 on and a request of [N] bytes (a [size_t]),
    [ycb_file_read] calls [yaffs_file_rd] at [off] for
    [min(N, max(0, L - off))] bytes, so that no byte past the end of the file
    is asked for; at or past the end that is 0 bytes, and the call fails only
    when the engine returns a negative count.  The same holds at a negative
    offset as long as the offset and the request are within the [int] range
    the code casts them to. *)
Theorem ycb_file_read_clamps (fs : fs_state) (iop : rtems_libio_t) (N : Z)
    (obj : ptr) (o : yaffs_obj) :
  node_access (pathinfo iop) = Some obj ->
  objs fs !! obj = Some o ->
  let L := yaffs_get_obj_length fs obj in
  let off := offset iop in
  let len := Z.min N (Z.max 0 (L - off)) in
  0 <= L <= INT_MAX ->
  0 <= N <= SIZE_MAX ->
  (0 <= off \/ (- 2 ^ 31 <= off /\ len <= INT_MAX)) ->
  read_request L off N = len
  /\ ycb_file_read fs iop N
     = (let '(fs', bytes, nr) := yaffs_file_rd fs obj off len in
        if nr <? 0 then Ret (fs', bytes, -1, Some ENOSPC)
        else Ret (fs', bytes, nr, None))
  /\ 0 <= len <= N
  /\ off + len <= Z.max L off
  /\ (L <= off -> len = 0).
Proof.
  intros Hloc Ho L off len HL HN Hoff.
  assert (Hreq : read_request L off N = len).
  { subst len. unfold INT_MAX in *. clearbody L off.
    apply read_request_clamped; unfold INT_MAX; lia. }
  split; [exact Hreq|]. split.
  - unfold ycb_file_read. rewrite Hloc. cbn.
    rewrite (deref_Some _ _ _ Ho). cbn. fold L. fold off. rewrite Hreq. reflexivity.
  - subst len. clearbody L off. unfold INT_MAX in *. repeat split; lia.
Qed.

(** C9.  When [yaffs_file_rd] returns a negative count, [ycb_file_read]
    returns -1 with [errno = ENOSPC]; when [yaffs_wr_file] returns a negative
    count on a writable device, so does [ycb_file_write]. *)
Theorem file_io_failure_is_ENOSPC (fs : fs_state) (iop : rtems_libio_t)
    (obj : ptr) (o : yaffs_obj) :
  node_access (pathinfo iop) = Some obj ->
  objs fs !! obj = Some o ->
  (forall count fs' bytes nr,
     yaffs_file_rd fs obj (offset iop)
       (read_request (yaffs_get_obj_length fs obj) (offset iop) count)
     = (fs', bytes, nr) ->
     nr < 0 ->
     ycb_file_read fs iop count = Ret (fs', bytes, -1, Some ENOSPC))
  /\ (forall d buffer count fs' nw,
        devs fs !! my_dev o = Some d ->
        read_only d = false ->
        yaffs_wr_file fs obj buffer (offset iop) (cast_int count) = (fs', nw) ->
        nw < 0 ->
        ycb_file_write fs iop buffer count = Ret (fs', -1, Some ENOSPC)).
Proof.
  intros Hloc Ho. split.
  - intros count fs' bytes nr Hrd Hneg. unfold ycb_file_read.
    rewrite Hloc. cbn. rewrite (deref_Some _ _ _ Ho). cbn. rewrite Hrd.
    apply Z.ltb_lt in Hneg. now rewrite Hneg.
  - intros d buffer count fs' nw Hd Hro Hwr Hneg. unfold ycb_file_write.
    rewrite Hloc. cbn. rewrite (deref_Some _ _ _ Ho). cbn.
    rewrite (deref_dev_Some _ _ _ Hd). cbn. rewrite Hro, Hwr.
    apply Z.ltb_lt in Hneg. now rewrite Hneg.
Qed.


(** C10.  With a buffer smaller than one [struct dirent], [ycb_dir_read] on
    an open directory writes no record, returns 0 and leaves [iop->offset] as
    it was; any read that follows behaves as it would have without the short
    one. *)
Theorem ycb_dir_read_short_buffer (fs : fs_state) (iop : rtems_libio_t)
    (count : Z) (obj : ptr) (o : yaffs_obj) (first : list_head) :
  node_access (pathinfo iop) = Some obj ->
  objs fs !! obj = Some o ->
  variant o = dir_variant first ->
  (first = children_of obj \/ exists c, first = siblings_of c) ->
  - 2 ^ 63 <= offset iop < 2 ^ 63 ->
  0 <= count < sizeof_dirent ->
  exists iop',
    ycb_dir_read fs iop count = Ret (iop', [], 0)
    /\ offset iop' = offset iop
    /\ pathinfo iop' = pathinfo iop
    /\ (offset iop <> 0 -> data1 iop' = data1 iop)
    /\ forall count', ycb_dir_read fs iop' count' = ycb_dir_read fs iop count'.
Proof.
  intros Hloc Ho Hvar Hfirst Hoff Hcount.
  assert (Hsz : (sizeof_dirent =? 0) = false) by (apply Z.eqb_neq; lia).
  assert (Hmax : Z.to_nat (count / sizeof_dirent) = 0%nat).
  { rewrite Z.div_small by lia. reflexivity. }
  assert (Hlen : cast_ssize_t (cast_size_t (Z.of_nat (length (@nil dirent)) * sizeof_dirent)) = 0)
    by reflexivity.
  assert (Hkeep : cast_off64 (offset iop + 0) = offset iop).
  { rewrite Z.add_0_r. apply wrap_signed_small; lia. }
  assert (Hrun : forall (it : rtems_libio_t) n,
             pathinfo it = pathinfo iop ->
             ycb_dir_read fs it n
             = do data1_0 <-
                 (if offset it =? 0 then
                    if list_head_eqb first (children_of obj) then Ret None
                    else do e <- list_entry first; Ret (Some e)
                  else Ret (data1 it));
               do r <- ycb_dir_read_while (Z.to_nat (n / sizeof_dirent)) fs obj data1_0;
               let i := Z.of_nat (length (fst r)) in
               let readlen := cast_ssize_t (cast_size_t (i * sizeof_dirent)) in
               Ret ({| pathinfo := pathinfo it;
                       offset := cast_off64 (offset it + readlen);
                       data1 := snd r;
                       iop_size := iop_size it |},
                    fst r, readlen)).
  { intros it n Hit. unfold ycb_dir_read. rewrite Hit, Hloc.
    cbn [deref_opt run_bind]. rewrite (deref_Some _ _ _ Ho).
    cbn [run_bind]. rewrite Hsz, Hvar.
    destruct (if offset it =? 0 then _ else _) as [c| |]; cbn [run_bind]; try reflexivity.
    destruct (ycb_dir_read_while _ fs obj c) as [[des last]| |]; reflexivity. }
  assert (Hstart : exists c0,
             (if list_head_eqb first (children_of obj) then Ret None
              else do e <- list_entry first; Ret (Some e)) = Ret c0).
  { destruct Hfirst as [->|(c & ->)].
    - exists None. cbn. now rewrite Nat.eqb_refl.
    - exists (Some c). reflexivity. }
  destruct Hstart as (c0 & Hc0).
  rewrite (Hrun iop count eq_refl), Hmax.
  destruct (Z.eqb_spec (offset iop) 0) as [Hz|Hnz].
  - (* at the start: the cursor is set to the first child again *)
    rewrite Hc0. cbn [run_bind ycb_dir_read_while fst snd]. rewrite Hlen, Hkeep.
    eexists. split; [reflexivity|]. cbn [offset pathinfo data1].
    split; [reflexivity|]. split; [reflexivity|].
    split; [intros H; contradiction|].
    intros count'. rewrite !Hrun by reflexivity.
    cbn [offset pathinfo data1 iop_size]. rewrite Hz. reflexivity.
  - cbn [run_bind ycb_dir_read_while fst snd]. rewrite Hlen, Hkeep.
    eexists. split; [reflexivity|]. cbn [offset pathinfo data1].
    split; [reflexivity|]. split; [reflexivity|].
    split; [reflexivity|].
    intros count'. rewrite !Hrun by reflexivity.
    cbn [offset pathinfo data1 iop_size]. reflexivity.
Qed.

End IoFacts.

(** C7 as stated fails: a seek to [-2^32], which [ycb_file_lseek] accepts,
    then a read of 6000 bytes from the 5000-byte file [/a].  The offset is cut
    to an [int], which makes it 0, so that 5000 bytes are asked for, where
    [min(N, max(0, L - off))] is 6000. *)
Lemma ycb_file_read_below_int_range :
  @ycb_file_lseek Arena.engine Arena.example_fs (Arena.iop_of 2 0 None)
    (- 2 ^ 32) SEEK_SET
  = Ret (Arena.iop_of 2 (- 2 ^ 32) None, (- 2 ^ 32)%Z, None)
  /\ @yaffs_get_obj_length Arena.engine Arena.example_fs 2%nat = 5000%Z
  /\ read_request 5000 (- 2 ^ 32) 6000 = 5000%Z
  /\ Z.min 6000 (Z.max 0 (5000 - - 2 ^ 32)) = 6000%Z
  /\ @ycb_file_read Arena.engine Arena.example_fs
       (Arena.iop_of 2 (- 2 ^ 32) None) 6000
     = (let '(fs', bytes, nr) :=
          @yaffs_file_rd Arena.engine Arena.example_fs 2%nat (- 2 ^ 32) 5000 in
        Ret (fs', bytes, nr, None)).
Proof. repeat split; vm_compute; reflexivity. Qed.

(** C7 (amended), on the small volume: 100 bytes asked 10 bytes before the
    end of the 5000-byte file [/a] give a request for 10. *)
Lemma ycb_file_read_clamps_witness :
  read_request 5000 4990 100 = 10%Z
  /\ @ycb_file_read Arena.engine Arena.example_fs (Arena.iop_of 2 4990 None) 100
     = Ret (Arena.example_fs, repeat 0%Z 10, 10%Z, None).
Proof.
  assert (H : (0 <= 5000 <= INT_MAX)%Z /\ (0 <= 100 <= SIZE_MAX)%Z /\ (0 <= 4990)%Z)
    by (unfold INT_MAX, SIZE_MAX; lia).
  destruct H as (HL & HN & Hoff).
  destruct (@ycb_file_read_clamps Arena.engine Arena.example_fs
              (Arena.iop_of 2 4990 None) 100 2%nat _ eq_refl eq_refl HL HN
              (or_introl Hoff))
    as (H1 & H2 & _).
  split; [exact H1|]. rewrite H2. reflexivity.
Defined.

(** C7, at the end of the file: one byte asked at offset 5000 gives a request
    for none, and no error. *)
Lemma ycb_file_read_at_eof :
  @ycb_file_read Arena.engine Arena.example_fs (Arena.iop_of 2 5000 None) 1
  = Ret (Arena.example_fs, [], 0%Z, None).
Proof. reflexivity. Qed.

(** C9, on the engine that fails: both calls return -1 with [ENOSPC]. *)
Lemma file_io_failure_is_ENOSPC_witness :
  @ycb_file_read Arena.failing_engine Arena.example_fs (Arena.iop_of 2 0 None) 1
  = Ret (Arena.example_fs, [], (-1)%Z, Some ENOSPC)
  /\ @ycb_file_write Arena.failing_engine Arena.example_fs (Arena.iop_of 2 0 None)
       [65%Z] 1
     = Ret (Arena.example_fs, (-1)%Z, Some ENOSPC).
Proof.
  destruct (@file_io_failure_is_ENOSPC Arena.failing_engine Arena.example_fs
              (Arena.iop_of 2 0 None) 2%nat _ eq_refl eq_refl) as (Hrd & Hwr).
  split.
  - apply (Hrd 1%Z Arena.example_fs [] (-1)%Z); [reflexivity | lia].
  - apply (Hwr (Arena.example_dev true false) [65%Z] 1%Z Arena.example_fs (-1)%Z);
      [reflexivity | reflexivity | reflexivity | lia].
Defined.



(** C10, on the small volume: 100 bytes of buffer at the start of the root
    directory give no record; the read of three records that follows lists
    [a], [d] and [up]. *)
Lemma ycb_dir_read_short_buffer_witness :
  exists iop',
    @ycb_dir_read rtems_platform Arena.engine Arena.example_fs
      (Arena.iop_of 1 0 None) 100
    = Ret (iop', [], 0%Z)
    /\ offset iop' = 0%Z
    /\ (fmap (fun r => map d_name (snd (fst r)))
          (match @ycb_dir_read rtems_platform Arena.engine Arena.example_fs iop' 840 with
           | Ret r => Some r
           | _ => None
           end))
       = Some ["a"; "d"; "up"].
Proof.
  destruct (@ycb_dir_read_short_buffer rtems_platform Arena.engine
              Arena.example_fs (Arena.iop_of 1 0 None) 100 1%nat _ (siblings_of 2)
              eq_refl eq_refl eq_refl
              (or_intror (ex_intro _ 2%nat eq_refl))
              ltac:(cbn; lia) ltac:(cbn; lia))
    as (iop' & Hrd & Hoff & _ & _ & Hnext).
  exists iop'. split; [exact Hrd|]. split; [exact Hoff|].
  rewrite Hnext. reflexivity.
Defined.

(** ** Fuel

    Fuel only bounds the recursion: a run that returns with some fuel returns
    the same with more. *)

Section FuelFacts.
Context {P : Platform} {E : Engine}.
Variable fs : fs_state.

Lemma resolver_fuel_step (n : nat) :
  (forall obj out r,
      h_follow_link n fs obj out = Ret r ->
      h_follow_link (S n) fs obj out = Ret r)
  /\ (forall obj out r,
        h_follow_link_while n fs obj out = Ret r ->
        h_follow_link_while (S n) fs obj out = Ret r)
  /\ (forall dev dir pathname out r,
        h_find_object n fs dev dir pathname out = Ret r ->
        h_find_object (S n) fs dev dir pathname out = Ret r)
  /\ (forall dir pathname out r,
        h_find_object_while n fs dir pathname out = Ret r ->
        h_find_object_while (S n) fs dir pathname out = Ret r).
Proof.
  induction n as [|n (IHf & IHfw & IHo & IHow)].
  { repeat split; cbn; intros; discriminate. }
  assert (Hend : forall pathname r r',
             (if is_empty pathname then Ret r
              else h_find_object_while n fs (fst r) pathname (snd r)) = Ret r' ->
             (if is_empty pathname then Ret r
              else h_find_object_while (S n) fs (fst r) pathname (snd r)) = Ret r').
  { intros pathname r r' H. destruct (is_empty pathname); [exact H|].
    now apply IHow. }
  repeat split.
  - intros obj out r H. cbn [h_follow_link] in H.
    remember (S n) as m eqn:Hm. cbn [h_follow_link]. subst m.
    now apply IHfw.
  - intros obj out r H. cbn [h_follow_link_while] in H.
    remember (S n) as m eqn:Hm. cbn [h_follow_link_while]. subst m.
    destruct obj as [p|]; [|exact H].
    destruct (deref fs p) as [o| |]; cbn [run_bind] in *; try discriminate.
    destruct (obj_type_eqb (variant_type o) YAFFS_OBJECT_TYPE_SYMLINK); [|exact H].
    destruct (variant o) as [| |alias| |]; try discriminate.
    apply run_bind_Ret_inv in H as (r0 & H0 & H).
    eapply run_bind_Ret_intro; [|apply IHfw; exact H].
    destruct (starts_with_divider alias); now apply IHo.
  - intros dev dir pathname out r H. cbn [h_find_object] in H.
    remember (S n) as m eqn:Hm. cbn [h_find_object]. subst m.
    destruct (match strchr pathname "/" with
              | Some _ => Ret false
              | None => _
              end) as [shortcut| |]; cbn [run_bind] in *; try discriminate.
    destruct shortcut; [exact H|].
    destruct (deref_dev fs dev) as [d| |]; cbn [run_bind] in *; try discriminate.
    destruct (negb (is_mounted d)); [exact H|].
    now apply IHow.
  - intros dir pathname out r H. cbn [h_find_object_while] in H.
    remember (S n) as m eqn:Hm. cbn [h_find_object_while]. subst m.
    destruct dir as [p|]; [|exact H].
    destruct (scan_name 0 (skip_dividers pathname)) as [str rest].
    destruct (String.eqb str "."); [now apply Hend|].
    destruct (String.eqb str "..").
    { destruct (deref fs p) as [o| |]; cbn [run_bind] in *; try discriminate.
      destruct (parent o) as [up|]; [now apply Hend | exact H]. }
    destruct (if negb (is_empty str) then _ else _) as [dir'| |];
      cbn [run_bind] in *; try discriminate.
    destruct dir' as [dir'|]; [|exact H].
    apply run_bind_Ret_inv in H as (r1 & H1 & H).
    eapply run_bind_Ret_intro; [apply IHf; exact H1|]. now apply Hend.
Qed.

(** More fuel does not change what [h_find_object] returns. *)
Lemma h_find_object_fuel_mono (n m : nat) (dev : ptr) (dir : option ptr)
    (pathname : string) (out : option string) (r : found) :
  (n <= m)%nat ->
  h_find_object n fs dev dir pathname out = Ret r ->
  h_find_object m fs dev dir pathname out = Ret r.
Proof.
  intros Hle H. induction Hle as [|m Hle IH]; [exact H|].
  now apply (proj1 (proj2 (proj2 (resolver_fuel_step m)))).
Qed.

(** More fuel does not change what the loop of [h_find_object] returns. *)
Lemma h_find_object_while_fuel_mono (n m : nat) (dir : option ptr)
    (pathname : string) (out : option string) (r : found) :
  (n <= m)%nat ->
  h_find_object_while n fs dir pathname out = Ret r ->
  h_find_object_while m fs dir pathname out = Ret r.
Proof.
  intros Hle H. induction Hle as [|m Hle IH]; [exact H|].
  now apply (proj2 (proj2 (proj2 (resolver_fuel_step m)))).
Qed.

(** More fuel does not change what [h_follow_link] returns. *)
Lemma h_follow_link_fuel_mono (n m : nat) (obj : option ptr)
    (out : option string) (r : found) :
  (n <= m)%nat ->
  h_follow_link n fs obj out = Ret r ->
  h_follow_link m fs obj out = Ret r.
Proof.
  intros Hle H. induction Hle as [|m Hle IH]; [exact H|].
  now apply (proj1 (resolver_fuel_step m)).
Qed.

End FuelFacts.

(** ** The escape at the root *)

Lemma string_app_assoc (a b c : string) : (a ++ (b ++ c) = (a ++ b) ++ c)%string.
Proof.
  induction a as [|x a IH]; [reflexivity|].
  change (String x (a ++ (b ++ c)) = String x ((a ++ b) ++ c)). now f_equal.
Qed.

Section TokenizerSplit.
Context {P : Platform}.

Lemma skip_dividers_stops (pathname : string) :
  starts_with_divider (skip_dividers pathname) = false.
Proof.
  induction pathname as [|c rest IH]; [reflexivity|].
  cbn [skip_dividers]. destruct (is_path_divider c) eqn:Hc; [exact IH|].
  cbn. exact Hc.
Qed.

Lemma starts_with_divider_nonempty (rel : string) :
  starts_with_divider rel = true ->
  exists d rel', rel = String d rel' /\ is_path_divider d = true.
Proof. destruct rel as [|d rel']; [discriminate|]. cbn. eauto. Qed.

Lemma skip_dividers_app (pre rel : string) :
  ends_with_name pre = true ->
  skip_dividers (pre ++ rel) = skip_dividers pre ++ rel
  /\ ends_with_name (skip_dividers pre) = true.
Proof.
  induction pre as [|c s IH]; [discriminate|]. intros H.
  change (String c s ++ rel) with (String c (s ++ rel)).
  cbn [skip_dividers]. destruct (is_path_divider c) eqn:Hc.
  - destruct s as [|c' s']; [cbn in H; rewrite Hc in H; discriminate H|].
    apply IH. exact H.
  - split; [reflexivity | exact H].
Qed.

Lemma scan_name_app_rel (i : nat) (s rel : string) :
  starts_with_divider rel = true ->
  scan_name i (s ++ rel) = (fst (scan_name i s), snd (scan_name i s) ++ rel).
Proof.
  intros Hrel. revert i. induction s as [|c s IH]; intros i.
  - destruct (starts_with_divider_nonempty rel Hrel) as (d & rel' & -> & Hd).
    change ("" ++ String d rel') with (String d rel').
    cbn [scan_name]. now rewrite Hd.
  - change (String c s ++ rel) with (String c (s ++ rel)).
    cbn [scan_name]. destruct (is_path_divider c); [reflexivity|].
    destruct (Nat.ltb i YAFFS_MAX_NAME_LENGTH).
    + rewrite IH. destruct (scan_name (S i) s). reflexivity.
    + apply IH.
Qed.

Lemma ends_with_name_scan (i : nat) (s : string) :
  ends_with_name s = true ->
  snd (scan_name i s) <> "" ->
  ends_with_name (snd (scan_name i s)) = true.
Proof.
  revert i. induction s as [|c s IH]; intros i H Hne; [discriminate H|].
  cbn [scan_name] in *. destruct (is_path_divider c); [exact H|].
  assert (Hs : ends_with_name s = true).
  { destruct s as [|c' s']; [|exact H].
    exfalso. apply Hne. destruct (Nat.ltb i YAFFS_MAX_NAME_LENGTH); reflexivity. }
  destruct (Nat.ltb i YAFFS_MAX_NAME_LENGTH).
  - specialize (IH (S i) Hs). destruct (scan_name (S i) s) as [str rest].
    cbn [snd] in *. now apply IH.
  - now apply IH.
Qed.

Lemma skip_dividers_suffix (s : string) : exists ds, s = ds ++ skip_dividers s.
Proof.
  induction s as [|c s (ds & IH)]; [now exists ""|].
  cbn [skip_dividers]. destruct (is_path_divider c).
  - exists (String c ds).
    change (String c ds ++ skip_dividers s) with (String c (ds ++ skip_dividers s)).
    now f_equal.
  - now exists "".
Qed.

Lemma scan_name_suffix (i : nat) (s : string) :
  exists seg, s = seg ++ snd (scan_name i s).
Proof.
  revert i. induction s as [|c s IH]; intros i; [now exists ""|].
  cbn [scan_name]. destruct (is_path_divider c); [now exists ""|].
  destruct (Nat.ltb i YAFFS_MAX_NAME_LENGTH).
  - destruct (IH (S i)) as (seg & Hseg).
    destruct (scan_name (S i) s) as [str rest].
    cbn [snd] in *. exists (String c seg).
    change (String c seg ++ rest) with (String c (seg ++ rest)). now f_equal.
  - destruct (IH i) as (seg & Hseg). exists (String c seg).
    change (String c seg ++ snd (scan_name i s))
      with (String c (seg ++ snd (scan_name i s))).
    now f_equal.
Qed.

End TokenizerSplit.

Section EscapeFacts.
Context {P : Platform} {E : Engine}.
Variable fs : fs_state.

(** When the loop run on [pre] returns the object [q], the loop run on
    [pre ++ rel] goes on from [q] with [rel]. *)
Lemma h_find_object_while_app (n m : nat) (dir : option ptr) (pre rel : string)
    (out out' : option string) (q : ptr) (r' : found) :
  ends_with_name pre = true ->
  starts_with_divider rel = true ->
  h_find_object_while n fs dir pre out = Ret (Some q, out') ->
  h_find_object_while m fs (Some q) rel out' = Ret r' ->
  h_find_object_while (n + m) fs dir (pre ++ rel) out = Ret r'.
Proof.
  intros Hpre Hrel H Hm. revert dir pre out Hpre H.
  induction n as [|n IH]; intros dir pre out Hpre H; [discriminate H|].
  cbn [h_find_object_while] in H.
  change (S n + m)%nat with (S (n + m)).
  remember (n + m)%nat as k eqn:Hk. cbn [h_find_object_while].
  destruct dir as [p|]; [|discriminate H].
  destruct (skip_dividers_app pre rel Hpre) as (Hskip & Hends).
  rewrite Hskip, (scan_name_app_rel 0 _ rel Hrel).
  pose proof (ends_with_name_scan 0 _ Hends) as Hrest.
  destruct (scan_name 0 (skip_dividers pre)) as [str rest].
  cbn [fst snd] in *.
  assert (Hne : is_empty (rest ++ rel) = false).
  { destruct rest; [|reflexivity]. destruct rel; [discriminate Hrel | reflexivity]. }
  assert (Hend : forall r : found,
             (if is_empty rest then Ret r
              else h_find_object_while n fs (fst r) rest (snd r)) = Ret (Some q, out') ->
             h_find_object_while k fs (fst r) (rest ++ rel) (snd r) = Ret r').
  { intros r Hr. destruct rest as [|c rest'].
    - cbn [is_empty] in Hr. inversion Hr; subst r. cbn [fst snd].
      change ("" ++ rel) with rel. subst k.
      apply (h_find_object_while_fuel_mono fs m); [lia | exact Hm].
    - cbn [is_empty] in Hr. subst k. apply IH; [|exact Hr].
      apply Hrest. discriminate. }
  rewrite Hne.
  destruct (String.eqb str "."); [apply (Hend (Some p, out)); exact H|].
  destruct (String.eqb str "..").
  { destruct (deref fs p) as [o| |]; cbn [run_bind] in *; try discriminate H.
    destruct (parent o) as [up|]; [apply (Hend (Some up, out)); exact H | discriminate H]. }
  destruct (if negb (is_empty str) then _ else _) as [dir'| |];
    cbn [run_bind] in *; try discriminate H.
  destruct dir' as [dir'|]; [|discriminate H].
  apply run_bind_Ret_inv in H as (r1 & H1 & H).
  eapply run_bind_Ret_intro; [|apply Hend; exact H].
  apply (h_follow_link_fuel_mono fs n); [lia | exact H1].
Qed.

(** Past the shortcut and the test of [is_mounted], [h_find_object] is its
    loop, entered with [*out_of_fs] NULL. *)
Lemma h_find_object_enter (f : nat) (dev : ptr) (d : yaffs_dev) (dir : option ptr)
    (pathname : string) (out : option string) :
  devs fs !! dev = Some d ->
  is_mounted d = true ->
  (strchr pathname "/" = None ->
   exists sux, yaffs_get_obj_name fs dir NAME_MAX = Ret sux /\ sux <> pathname) ->
  h_find_object (S f) fs dev dir pathname out
  = h_find_object_while f fs
      (match dir with None => root_dir d | Some _ => dir end) pathname None.
Proof.
  intros Hd Hm Hs. cbn [h_find_object].
  assert (Hcut : (match strchr pathname "/" with
                  | None =>
                      run_bind (yaffs_get_obj_name fs dir NAME_MAX)
                        (fun sux => Ret (String.eqb sux pathname))
                  | Some _ => Ret false
                  end) = Ret false).
  { destruct (strchr pathname "/") as [i|]; [reflexivity|].
    destruct (Hs eq_refl) as (sux & -> & Hne). cbn [run_bind].
    apply String.eqb_neq in Hne. now rewrite Hne. }
  rewrite Hcut. cbn [run_bind]. rewrite (deref_dev_Some _ _ _ Hd). cbn [run_bind].
  now rewrite Hm.
Qed.

(** From where the loop stands, the rest of the run decides the result. *)
Lemma h_find_object_from (n m f : nat) (dev : ptr) (d : yaffs_dev)
    (dir : option ptr) (pre rel : string) (p : ptr) (out0 out : option string)
    (r' : found) :
  devs fs !! dev = Some d ->
  is_mounted d = true ->
  (strchr (pre ++ rel) "/" = None ->
   exists sux, yaffs_get_obj_name fs dir NAME_MAX = Ret sux /\ sux <> pre ++ rel) ->
  arrives n fs (match dir with None => root_dir d | Some _ => dir end) pre rel p out ->
  h_find_object_while m fs (Some p) rel out = Ret r' ->
  (S (n + m) <= f)%nat ->
  h_find_object f fs dev dir (pre ++ rel) out0 = Ret r'.
Proof.
  intros Hd Hm Hs Ha Hrun Hf.
  apply (h_find_object_fuel_mono fs (S (n + m))); [exact Hf|].
  rewrite (h_find_object_enter _ _ _ _ _ _ Hd Hm Hs).
  destruct Ha as [(-> & -> & ->)|(Hpre & Hrel & Hwalk)].
  - change ("" ++ rel) with rel.
    apply (h_find_object_while_fuel_mono fs m); [lia | exact Hrun].
  - now apply (h_find_object_while_app n m _ pre rel None out p).
Qed.

(** One round of the loop on a directory without parent, the next name
    being [..]. *)
Lemma h_find_object_while_dotdot (m : nat) (p : ptr) (o : yaffs_obj)
    (rel rest : string) (out : option string) :
  objs fs !! p = Some o ->
  parent o = None ->
  scan_name 0 (skip_dividers rel) = ("..", rest) ->
  h_find_object_while (S m) fs (Some p) rel out
  = Ret (None, Some (skip_dividers rest)).
Proof.
  intros Ho Hp Hs. cbn [h_find_object_while]. rewrite Hs.
  cbn [String.eqb Ascii.eqb Bool.eqb]. cbn.
  rewrite (deref_Some _ _ _ Ho). cbn. now rewrite Hp.
Qed.

(** One round of the loop in which following the object found gives NULL:
    the loop returns NULL and hands [*out_of_fs] on as it is. *)
Lemma h_find_object_while_null_link (k : nat) (p : ptr) (po : yaffs_obj)
    (rel a rest : string) (out out' : option string) :
  objs fs !! p = Some po ->
  variant_type po = YAFFS_OBJECT_TYPE_DIRECTORY ->
  scan_name 0 (skip_dividers rel) = (a, rest) ->
  a <> "." -> a <> ".." -> a <> "" ->
  h_follow_link k fs (yaffs_find_by_name fs p a) out = Ret (None, out') ->
  h_find_object_while (S (S k)) fs (Some p) rel out = Ret (None, out').
Proof.
  intros Ho Hdir Hs H1 H2 H3 Hl.
  remember (S k) as k1 eqn:Hk. cbn [h_find_object_while]. rewrite Hs.
  apply String.eqb_neq in H1, H2. rewrite H1, H2.
  assert (is_empty a = false) as -> by (destruct a; [now elim H3 | reflexivity]).
  cbn [negb]. rewrite (deref_Some _ _ _ Ho). cbn [run_bind]. rewrite Hdir.
  cbn [obj_type_eqb negb run_bind].
  eapply run_bind_Ret_intro.
  { apply (h_follow_link_fuel_mono fs k); [lia | exact Hl]. }
  cbn [fst snd]. destruct (is_empty rest); [reflexivity|]. subst k1. reflexivity.
Qed.

(** Following a symbolic link whose alias does not resolve gives NULL, with
    the [*out_of_fs] that the resolution of the alias left. *)
Lemma h_follow_link_null_alias (k : nat) (obj0 l : ptr) (lo : yaffs_obj)
    (alias : string) (out out' : option string) :
  yaffs_get_equivalent_obj fs obj0 = Some l ->
  objs fs !! l = Some lo ->
  variant_type lo = YAFFS_OBJECT_TYPE_SYMLINK ->
  variant lo = symlink_variant alias ->
  h_find_object k fs (my_dev lo)
    (if starts_with_divider alias then None else parent lo) alias out
  = Ret (None, out') ->
  h_follow_link (S (S k)) fs (Some obj0) out = Ret (None, out').
Proof.
  intros He Ho Ht Hv Hr.
  destruct k as [|k]; [discriminate Hr|].
  remember (S k) as k1 eqn:Hk. cbn [h_follow_link h_follow_link_while].
  rewrite He, (deref_Some _ _ _ Ho). cbn [run_bind]. rewrite Ht, Hv.
  cbn [obj_type_eqb].
  assert (Hcall : (if starts_with_divider alias
                   then h_find_object k1 fs (my_dev lo) None alias out
                   else h_find_object k1 fs (my_dev lo) (parent lo) alias out)
                  = Ret (None, out')).
  { destruct (starts_with_divider alias); exact Hr. }
  eapply run_bind_Ret_intro; [exact Hcall|].
  cbn [fst snd]. subst k1. reflexivity.
Qed.

(** What an escape carries is a suffix of the path in hand. *)
Lemma escape_is_suffix (pre rel rest name : string) :
  scan_name 0 (skip_dividers rel) = (name, rest) ->
  exists consumed, pre ++ rel = consumed ++ skip_dividers rest.
Proof.
  intros Hs.
  destruct (skip_dividers_suffix rel) as (ds & Hrel).
  destruct (scan_name_suffix 0 (skip_dividers rel)) as (seg & Hseg).
  rewrite Hs in Hseg. cbn [snd] in Hseg.
  destruct (skip_dividers_suffix rest) as (ds' & Hrest).
  exists (((pre ++ ds) ++ seg) ++ ds').
  rewrite <- !string_app_assoc. rewrite <- Hrest, <- Hseg, <- Hrel. reflexivity.
Qed.


End EscapeFacts.



(** ** Runs on the small volume *)

(** [..] met at the root after other names: the escape carries what is left
    of the path. *)
Example h_find_object_escape_from_root :
  @h_find_object rtems_platform Arena.engine 10 Arena.example_fs 0%nat None
    "/d/..//..///q/r" None
  = Ret (None, Some "q/r").
Proof. reflexivity. Qed.

(** [..] met at the root while the alias of [/up] is resolved: the escape
    reaches the caller, with what is left of the alias. *)
Example h_find_object_escape_in_alias :
  @h_find_object rtems_platform Arena.engine 10 Arena.example_fs 0%nat None
    "/up/zz" None
  = Ret (None, Some "x/y").
Proof. reflexivity. Qed.

(** A name that is not there is not found: NULL, and [*out_of_fs] is NULL. *)
Example h_find_object_absent :
  @h_find_object rtems_platform Arena.engine 10 Arena.example_fs 0%nat None
    "/d/nothing" None
  = Ret (None, None).
Proof. reflexivity. Qed.

(** A hard link and a symbolic link to it both resolve to the file. *)
Example h_find_object_links :
  @h_find_object rtems_platform Arena.engine 10 Arena.example_fs 0%nat None
    "/d/h" None = Ret (Some 2%nat, None)
  /\ @h_find_object rtems_platform Arena.engine 10 Arena.example_fs 0%nat None
       "/d/ln" None = Ret (Some 2%nat, None).
Proof. split; reflexivity. Qed.

(** A directory read of two records, then of the rest. *)
Example ycb_dir_read_batches :
  exists iop1 iop2,
    @ycb_dir_read rtems_platform Arena.engine Arena.example_fs
      (Arena.iop_of 1 0 None) 600
    = Ret (iop1, [Build_dirent 2 0 280 1 "a"; Build_dirent 3 0 280 1 "d"], 560%Z)
    /\ @ycb_dir_read rtems_platform Arena.engine Arena.example_fs iop1 600
       = Ret (iop2, [Build_dirent 4 0 280 2 "up"], 280%Z)
    /\ offset iop2 = 840%Z /\ data1 iop2 = None.
Proof. do 2 eexists. repeat split; reflexivity. Qed.

(** * Further properties of the code *)

(** ** The tokenizer *)

Section TokenizerFacts.
Context {P : Platform}.

(** X1.  [skip_dividers] removes a prefix made of dividers only and stops at
    the first character that is none: the result is a suffix of the path that
    does not start with a divider. *)
Theorem skip_dividers_spec (pathname : string) :
  exists ds,
    pathname = ds ++ skip_dividers pathname
    /\ Forall (fun c => is_path_divider c = true) (list_ascii_of_string ds)
    /\ starts_with_divider (skip_dividers pathname) = false.
Proof.
  induction pathname as [|c rest (ds & Heq & Hds & Hstart)].
  - exists "". repeat split; constructor.
  - cbn [skip_dividers]. destruct (is_path_divider c) eqn:Hc.
    + exists (String c ds). split; [|split].
      * change (String c rest = String c (ds ++ skip_dividers rest)).
        f_equal. exact Heq.
      * cbn. constructor; assumption.
      * exact Hstart.
    + exists "". split; [reflexivity|]. split; [constructor|]. cbn. exact Hc.
Qed.

Lemma skip_dividers_idem (pathname : string) :
  skip_dividers (skip_dividers pathname) = skip_dividers pathname.
Proof.
  induction pathname as [|c rest IH]; [reflexivity|].
  cbn [skip_dividers]. destruct (is_path_divider c) eqn:Hc; [exact IH|].
  cbn [skip_dividers]. now rewrite Hc.
Qed.

Lemma scan_name_from (i : nat) (pathname : string) :
  exists seg,
    pathname = seg ++ snd (scan_name i pathname)
    /\ Forall (fun c => is_path_divider c = false) (list_ascii_of_string seg)
    /\ fst (scan_name i pathname) = substring 0 (YAFFS_MAX_NAME_LENGTH - i) seg
    /\ (snd (scan_name i pathname) = ""
        \/ starts_with_divider (snd (scan_name i pathname)) = true).
Proof.
  revert i. induction pathname as [|c rest IH]; intros i.
  - exists "". cbn. split; [reflexivity|]. split; [constructor|]. split.
    + now destruct (YAFFS_MAX_NAME_LENGTH - i).
    + now left.
  - cbn [scan_name]. destruct (is_path_divider c) eqn:Hc.
    + exists "". cbn. split; [reflexivity|]. split; [constructor|]. split.
      * now destruct (YAFFS_MAX_NAME_LENGTH - i).
      * right. exact Hc.
    + destruct (Nat.ltb_spec i YAFFS_MAX_NAME_LENGTH) as [Hlt|Hge].
      * destruct (IH (S i)) as (seg & Heq & Hseg & Hstr & Hrest).
        destruct (scan_name (S i) rest) as [str rest'] eqn:Hscan. cbn in *.
        exists (String c seg). split; [|split; [|split]].
        -- change (String c rest = String c (seg ++ rest')). f_equal. exact Heq.
        -- constructor; assumption.
        -- replace (YAFFS_MAX_NAME_LENGTH - i)%nat
             with (S (YAFFS_MAX_NAME_LENGTH - S i)) by lia.
           cbn. f_equal. exact Hstr.
        -- exact Hrest.
      * destruct (IH i) as (seg & Heq & Hseg & Hstr & Hrest).
        exists (String c seg). split; [|split; [|split]].
        -- change (String c rest = String c (seg ++ snd (scan_name i rest))).
           f_equal. exact Heq.
        -- constructor; assumption.
        -- rewrite Hstr.
           replace (YAFFS_MAX_NAME_LENGTH - i)%nat with 0%nat by lia.
           cbn. now destruct seg.
        -- exact Hrest.
Qed.

Lemma substring_length_le (n : nat) (s : string) :
  (String.length (substring 0 n s) <= n)%nat.
Proof.
  revert s. induction n as [|n IH]; intros s.
  - destruct s; cbn; lia.
  - destruct s as [|c s]; cbn; [lia|]. specialize (IH s). lia.
Qed.

(** X2.  One name scanned by [h_find_object]: the path is cut into the
    longest run [seg] of characters that are no dividers and the rest, which
    is empty or starts with a divider; the name kept is [seg] cut to
    [YAFFS_MAX_NAME_LENGTH] characters, the surplus is consumed and dropped. *)
Theorem scan_name_spec (pathname : string) :
  exists seg,
    pathname = seg ++ snd (scan_name 0 pathname)
    /\ Forall (fun c => is_path_divider c = false) (list_ascii_of_string seg)
    /\ fst (scan_name 0 pathname) = substring 0 YAFFS_MAX_NAME_LENGTH seg
    /\ (String.length (fst (scan_name 0 pathname)) <= YAFFS_MAX_NAME_LENGTH)%nat
    /\ (snd (scan_name 0 pathname) = ""
        \/ starts_with_divider (snd (scan_name 0 pathname)) = true).
Proof.
  destruct (scan_name_from 0 pathname) as (seg & Heq & Hseg & Hstr & Hrest).
  rewrite Nat.sub_0_r in Hstr.
  exists seg. repeat split; try assumption.
  rewrite Hstr. apply substring_length_le.
Qed.

End TokenizerFacts.

(** ** More on path resolution *)

Section MoreResolverFacts.
Context {P : Platform} {E : Engine}.
Variable fs : fs_state.

(** The loop looks at its path only after the leading dividers. *)
Lemma h_find_object_while_skip (n : nat) (dir : option ptr) (pathname : string)
    (out : option string) :
  h_find_object_while n fs dir pathname out
  = h_find_object_while n fs dir (skip_dividers pathname) out.
Proof.
  destruct n as [|n]; [reflexivity|]. destruct dir as [p|]; [|reflexivity].
  cbn [h_find_object_while]. now rewrite skip_dividers_idem.
Qed.

Lemma scan_name_app (i : nat) (a : string) (d : ascii) :
  Forall (fun c => is_path_divider c = false) (list_ascii_of_string a) ->
  is_path_divider d = true ->
  exists str, forall rest, scan_name i (a ++ String d rest) = (str, String d rest).
Proof.
  intros Ha Hd. revert i. induction a as [|c a IH]; intros i.
  - exists "". intros rest. change ("" ++ String d rest)%string with (String d rest).
    cbn [scan_name]. now rewrite Hd.
  - cbn in Ha. inversion Ha as [|? ? Hc Ha']; subst.
    destruct (Nat.ltb i YAFFS_MAX_NAME_LENGTH) eqn:Hi.
    + destruct (IH Ha' (S i)) as (str & Hstr). exists (String c str). intros rest.
      change (String c a ++ String d rest)%string with (String c (a ++ String d rest)).
      cbn [scan_name]. now rewrite Hc, Hi, Hstr.
    + destruct (IH Ha' i) as (str & Hstr). exists str. intros rest.
      change (String c a ++ String d rest)%string with (String c (a ++ String d rest)).
      cbn [scan_name]. now rewrite Hc, Hi, Hstr.
Qed.

(** X3.  Surplus dividers after a name are thrown away: with [a] free of
    dividers and [d] a divider, resolving [a d d rest] is resolving
    [a d rest], for the object found and for the escape suffix alike. *)
Theorem h_find_object_surplus_divider (n : nat) (dir : option ptr)
    (a : string) (d : ascii) (rest : string) (out : option string) :
  Forall (fun c => is_path_divider c = false) (list_ascii_of_string a) ->
  is_path_divider d = true ->
  h_find_object_while n fs dir (a ++ String d (String d rest)) out
  = h_find_object_while n fs dir (a ++ String d rest) out.
Proof.
  intros Ha Hd.
  assert (Hskip : skip_dividers (String d (String d rest))
                  = skip_dividers (String d rest)).
  { cbn [skip_dividers]. now rewrite Hd. }
  assert (Hrec : forall m q o,
             h_find_object_while m fs q (String d (String d rest)) o
             = h_find_object_while m fs q (String d rest) o).
  { intros m q o. rewrite (h_find_object_while_skip m q (String d (String d rest))).
    rewrite (h_find_object_while_skip m q (String d rest)). now rewrite Hskip. }
  destruct a as [|c a].
  { change ("" ++ String d (String d rest))%string with (String d (String d rest)).
    change ("" ++ String d rest)%string with (String d rest). apply Hrec. }
  destruct n as [|n]; [reflexivity|]. destruct dir as [p|]; [|reflexivity].
  destruct (scan_name_app 0 (String c a) d Ha Hd) as (str & Hstr).
  cbn in Ha. inversion Ha as [|? ? Hc Ha']; subst.
  cbn [h_find_object_while].
  assert (Hs : forall X, skip_dividers (String c a ++ String d X)
                         = (String c a ++ String d X)%string).
  { intros X. change (String c a ++ String d X)%string
      with (String c (a ++ String d X)).
    cbn [skip_dividers]. now rewrite Hc. }
  rewrite !Hs, !Hstr. cbn [is_empty].
  destruct (String.eqb str "."); [apply Hrec|].
  destruct (String.eqb str "..").
  { destruct (deref fs p) as [o| |]; cbn [run_bind]; try reflexivity.
    destruct (parent o); [apply Hrec | now rewrite Hskip]. }
  destruct (if negb (is_empty str) then _ else _) as [[dir'|]| |];
    cbn [run_bind]; try reflexivity.
  match goal with
  | |- run_bind ?m _ = _ => destruct m as [r1| |]; cbn [run_bind]; try reflexivity
  end.
  apply Hrec.
Qed.

(** X4.  What [h_find_object] returns when [*out_of_fs] starts as NULL: an
    object never comes with an escape suffix, and an escape suffix never
    starts with a divider.  NULL with [*out_of_fs] NULL, NULL with a suffix,
    and an object are three cases that exclude each other, as
    [ycb_eval_path] takes them. *)
Theorem h_find_object_signal (n : nat) (dev : ptr) (dir : option ptr)
    (pathname : string) (r : found) :
  h_find_object n fs dev dir pathname None = Ret r -> signal_ok r.
Proof.
  assert (Hnone : forall q : option ptr, signal_ok (q, None)).
  { intros q. split; [reflexivity | discriminate]. }
  assert (Hnull : forall out : option string,
             signal_ok (None, out) ->
             forall q, q = None -> signal_ok (q, out)).
  { now intros out H q ->. }
  assert (Hout : forall (p : ptr) out, signal_ok (Some p, out) -> out = None).
  { intros p out (H & _). now apply H. }
  assert (Hall :
    (forall obj out r,
        signal_ok (obj, out) -> h_follow_link n fs obj out = Ret r -> signal_ok r)
    /\ (forall obj out r,
          signal_ok (obj, out) ->
          h_follow_link_while n fs obj out = Ret r -> signal_ok r)
    /\ (forall dev dir pathname r,
          h_find_object n fs dev dir pathname None = Ret r -> signal_ok r)
    /\ (forall dir pathname out r,
          signal_ok (dir, out) ->
          h_find_object_while n fs dir pathname out = Ret r -> signal_ok r)).
  { clear dev dir pathname r.
    induction n as [|n (IHf & IHfw & IHo & IHow)].
    { repeat split; cbn; intros; discriminate. }
    assert (Hend : forall pathname (r r' : found),
               signal_ok r ->
               (if is_empty pathname then Ret r
                else h_find_object_while n fs (fst r) pathname (snd r)) = Ret r' ->
               signal_ok r').
    { intros pathname r r' Hr H. destruct (is_empty pathname).
      - now inversion H; subst.
      - eapply IHow; [|exact H]. now destruct r. }
    split; [|split; [|split]].
    - intros obj out r Hin H. cbn [h_follow_link] in H.
      eapply IHfw; [|exact H].
      destruct obj as [p|]; [|exact Hin].
      rewrite (Hout p out Hin). apply Hnone.
    - intros obj out r Hin H. cbn [h_follow_link_while] in H.
      destruct obj as [p|]; [|now inversion H; subst].
      pose proof (Hout p out Hin) as ->.
      apply run_bind_Ret_inv in H as (o & _ & H).
      destruct (obj_type_eqb (variant_type o) YAFFS_OBJECT_TYPE_SYMLINK).
      + destruct (variant o) as [| |alias| |]; try discriminate.
        apply run_bind_Ret_inv in H as (r0 & H0 & H).
        eapply IHfw; [|exact H].
        assert (signal_ok r0) by (destruct (starts_with_divider alias); eapply IHo; eauto).
        now destruct r0.
      + inversion H; subst. apply Hnone.
    - intros dev dir pathname r H. cbn [h_find_object] in H.
      apply run_bind_Ret_inv in H as (shortcut & _ & H).
      destruct shortcut; [inversion H; subst; apply Hnone|].
      apply run_bind_Ret_inv in H as (d & _ & H).
      destruct (negb (is_mounted d)); [inversion H; subst; apply Hnone|].
      eapply IHow; [|exact H]. apply Hnone.
    - intros dir pathname out r Hin H. cbn [h_find_object_while] in H.
      destruct dir as [p|]; [|now inversion H; subst].
      pose proof (Hout p out Hin) as ->.
      destruct (scan_name 0 (skip_dividers pathname)) as [str rest].
      destruct (String.eqb str ".").
      { eapply (Hend rest (Some p, None)); [apply Hnone | exact H]. }
      destruct (String.eqb str "..").
      { apply run_bind_Ret_inv in H as (o & _ & H).
        destruct (parent o) as [up|].
        - eapply (Hend rest (Some up, None)); [apply Hnone | exact H].
        - inversion H; subst. split; [intros Hq; now elim Hq|].
          intros s Hs. cbn in Hs. inversion Hs; subst.
          apply skip_dividers_stops. }
      apply run_bind_Ret_inv in H as (dir' & _ & H).
      destruct dir' as [dir'|]; [|inversion H; subst; apply Hnone].
      apply run_bind_Ret_inv in H as (r1 & H1 & H).
      eapply (Hend rest r1); [|exact H].
      eapply IHf; [|exact H1]. apply Hnone. }
  intros H. exact (proj1 (proj2 (proj2 Hall)) dev dir pathname r H).
Qed.

End MoreResolverFacts.

(** ** Following links twice, and termination *)

Section LinkFacts.
Context {P : Platform} {E : Engine}.
Variable fs : fs_state.

(** X5.  [h_follow_link] is idempotent: on a well-formed graph, with an
    engine for which an object that is no hard link is its own equivalent,
    following links from an object that [h_follow_link] returned gives that
    object again, in two steps of the recursion. *)
Theorem h_follow_link_idempotent (n k : nat) (obj : option ptr)
    (out out' : option string) (p : ptr) :
  equivalents_resolved fs ->
  parents_resolved fs ->
  roots_resolved fs ->
  (forall q o,
      objs fs !! q = Some o ->
      variant_type o <> YAFFS_OBJECT_TYPE_HARDLINK ->
      yaffs_get_equivalent_obj fs q = Some q) ->
  h_follow_link n fs obj out = Ret (Some p, out') ->
  h_follow_link (S (S k)) fs (Some p) out' = Ret (Some p, out').
Proof.
  intros He Hp Hr Hid H.
  destruct (proj1 (resolver_results fs He Hp Hr n) obj out _ H)
    as (o & Ho & Hsym & Hhard).
  cbn [h_follow_link h_follow_link_while].
  rewrite (Hid p o Ho Hhard). rewrite (deref_Some _ _ _ Ho). cbn [run_bind].
  destruct (variant_type o); cbn; congruence.
Qed.

Lemma h_follow_link_no_symlinks (k : nat) (obj : option ptr) (out : option string) :
  no_symlinks fs -> h_follow_link (S (S k)) fs obj out <> NoFuel.
Proof.
  intros Hns. cbn [h_follow_link h_follow_link_while].
  destruct (match obj with Some p => yaffs_get_equivalent_obj fs p | None => None end)
    as [q|]; [|discriminate].
  unfold deref. destruct (objs fs !! q) as [o|] eqn:Ho; cbn [run_bind]; [|discriminate].
  pose proof (Hns q o Ho) as Hq. cbn in Hq.
  destruct (variant_type o); cbn; congruence.
Qed.

Lemma scan_name_rest_le (i : nat) (pathname : string) :
  (String.length (snd (scan_name i pathname)) <= String.length pathname)%nat.
Proof.
  revert i. induction pathname as [|c rest IH]; intros i; [cbn; lia|].
  cbn [scan_name]. destruct (is_path_divider c); [cbn; lia|].
  destruct (Nat.ltb i YAFFS_MAX_NAME_LENGTH).
  - specialize (IH (S i)). destruct (scan_name (S i) rest). cbn in *. lia.
  - specialize (IH i). cbn. lia.
Qed.

Lemma skip_dividers_le (pathname : string) :
  (String.length (skip_dividers pathname) <= String.length pathname)%nat.
Proof.
  induction pathname as [|c rest IH]; [cbn; lia|].
  cbn [skip_dividers]. destruct (is_path_divider c); cbn in *; lia.
Qed.

(** Each round of the loop consumes at least one character of a path that is
    not empty. *)
Lemma scan_consumes (pathname : string) :
  pathname <> "" ->
  (String.length (snd (scan_name 0 (skip_dividers pathname)))
   < String.length pathname)%nat.
Proof.
  destruct pathname as [|c rest]; [congruence|]. intros _.
  cbn [skip_dividers]. destruct (is_path_divider c) eqn:Hc.
  - pose proof (scan_name_rest_le 0 (skip_dividers rest)).
    pose proof (skip_dividers_le rest). cbn. lia.
  - cbn [scan_name]. rewrite Hc.
    destruct (Nat.ltb 0 YAFFS_MAX_NAME_LENGTH).
    + pose proof (scan_name_rest_le 1 rest).
      destruct (scan_name 1 rest). cbn in *. lia.
    + pose proof (scan_name_rest_le 0 rest). cbn. lia.
Qed.

Lemma run_bind_fuel {A B : Type} (m : run A) (k : A -> run B) :
  m <> NoFuel -> (forall a, k a <> NoFuel) -> run_bind m k <> NoFuel.
Proof. destruct m; cbn; [auto | discriminate | congruence]. Qed.

(** X6.  Without symbolic links in the store the resolver loop of
    [h_find_object] terminates: it needs no more rounds than the path has
    characters, so fuel beyond the length of the path by three is never used
    up. *)
Theorem h_find_object_terminates (n : nat) (dir : option ptr)
    (pathname : string) (out : option string) :
  no_symlinks fs ->
  (String.length pathname + 3 <= n)%nat ->
  h_find_object_while n fs dir pathname out <> NoFuel.
Proof.
  intros Hns. revert dir pathname out.
  induction n as [|n IH]; intros dir pathname out Hn; [lia|].
  cbn [h_find_object_while]. destruct dir as [p|]; [|discriminate].
  pose proof (scan_consumes pathname) as Hlt.
  destruct (scan_name 0 (skip_dividers pathname)) as [str rest] eqn:Hscan.
  cbn [snd] in Hlt.
  assert (Hend : forall r : found,
             (if is_empty rest then Ret r
              else h_find_object_while n fs (fst r) rest (snd r)) <> NoFuel).
  { intros r. destruct rest as [|c rest']; [discriminate|]. cbn [is_empty].
    apply IH. destruct pathname as [|c0 path']; [discriminate Hscan|].
    assert (String c0 path' <> "") as Hne by discriminate.
    specialize (Hlt Hne). lia. }
  destruct (String.eqb str "."); [apply Hend|].
  destruct (String.eqb str "..").
  { apply run_bind_fuel.
    - unfold deref. destruct (objs fs !! p); discriminate.
    - intros o. destruct (parent o); [apply Hend | discriminate]. }
  apply run_bind_fuel.
  - destruct (negb (is_empty str)); [|discriminate].
    apply run_bind_fuel.
    + unfold deref. destruct (objs fs !! p); discriminate.
    + intros o. destruct (negb _); discriminate.
  - intros [dir'|]; [|discriminate].
    apply run_bind_fuel; [|apply Hend].
    destruct n as [|[|k]]; [lia | lia |].
    now apply h_follow_link_no_symlinks.
Qed.

End LinkFacts.

(** ** Mutating entry points *)

Section MutationFacts.
Context {P : Platform} {E : Engine} {X : EngineOps}.
Local Open Scope Z_scope.

(** X7.  On a device mounted read-only the entry points that create, remove,
    rename, write or change the mode fail with [EROFS] before they call the
    engine, and leave the graph as it is. *)
Theorem read_only_volume_refuses (fs : fs_state) (obj : ptr) (o : yaffs_obj)
    (d : yaffs_dev) :
  objs fs !! obj = Some o ->
  devs fs !! my_dev o = Some d ->
  read_only d = true ->
  let loc := {| node_access := Some obj |} in
  (forall path mode the_dev,
      ycb_mknod true fs path mode the_dev loc = Ret (fs, -1, Some EROFS))
  /\ (forall mode,
        Z.land mode (not32 511) = 0 ->
        ycb_fchmod fs loc mode = Ret (fs, -1, Some EROFS))
  /\ (forall iop buffer count,
        pathinfo iop = loc ->
        ycb_file_write fs iop buffer count = Ret (fs, -1, Some EROFS))
  /\ (forall old_parent new_parent name,
        ycb_rename fs old_parent loc new_parent name = Ret (fs, -1, Some EROFS))
  /\ (forall parent_loc,
        ycb_dir_rmnod fs parent_loc loc = Ret (fs, -1, Some EROFS)
        /\ ycb_unlink fs parent_loc loc = Ret (fs, -1, Some EROFS)).
Proof.
  intros Ho Hd Hro loc.
  assert (Hobj : deref_opt fs (node_access loc) = Ret (obj, o)).
  { cbn. now rewrite (deref_Some _ _ _ Ho). }
  repeat split.
  - intros path mode the_dev. unfold ycb_mknod. rewrite Hobj. cbn.
    rewrite (deref_dev_Some _ _ _ Hd). cbn. now rewrite Hro.
  - intros mode Hmode. unfold ycb_fchmod. rewrite Hmode, Hobj. cbn.
    rewrite (deref_dev_Some _ _ _ Hd). cbn. now rewrite Hro.
  - intros iop buffer count Hiop. unfold ycb_file_write. rewrite Hiop, Hobj. cbn.
    rewrite (deref_dev_Some _ _ _ Hd). cbn. now rewrite Hro.
  - intros old_parent new_parent name. unfold ycb_rename. rewrite Hobj. cbn.
    rewrite (deref_dev_Some _ _ _ Hd). cbn. now rewrite Hro.
  - unfold ycb_dir_rmnod. rewrite Hobj. cbn.
    rewrite (deref_dev_Some _ _ _ Hd). cbn. now rewrite Hro.
  - unfold ycb_unlink, ycb_dir_rmnod. rewrite Hobj. cbn.
    rewrite (deref_dev_Some _ _ _ Hd). cbn. now rewrite Hro.
Qed.

(** X8.  What [ycb_mknod] can return: 0 without touching [errno], or -1 with
    [errno] one of [ENOMEM], [EROFS], [EEXIST], [ENOSPC], [ENOSYS]; only a
    refusal of the engine ([ENOSPC]) can come with a changed graph. *)
Theorem ycb_mknod_outcomes (strdup_ok : bool) (fs fs' : fs_state) (path : string)
    (mode the_dev : Z) (pathloc : rtems_filesystem_location_info_t)
    (r : Z) (e : errno_write) :
  ycb_mknod strdup_ok fs path mode the_dev pathloc = Ret (fs', r, e) ->
  (r = 0 /\ e = None)
  \/ (r = -1
      /\ exists c, e = Some c
                   /\ In c [ENOMEM; EROFS; EEXIST; ENOSPC; ENOSYS]
                   /\ (c <> ENOSPC -> fs' = fs)).
Proof.
  unfold ycb_mknod. intros H.
  apply run_bind_Ret_inv in H as ([parent po] & _ & H).
  assert (Hfail : forall c,
             In c [ENOMEM; EROFS; EEXIST; ENOSYS] ->
             Ret (fs, -1, Some c) = Ret (fs', r, e) ->
             r = -1 /\ exists c, e = Some c
                                 /\ In c [ENOMEM; EROFS; EEXIST; ENOSPC; ENOSYS]
                                 /\ (c <> ENOSPC -> fs' = fs)).
  { intros c Hc Hr. inversion Hr; subst. split; [reflexivity|].
    exists c. split; [reflexivity|]. split; [|reflexivity].
    cbn in *. intuition. }
  destruct (negb strdup_ok); [right; apply (Hfail ENOMEM); cbn; auto|].
  apply run_bind_Ret_inv in H as (d & _ & H).
  destruct (read_only d); [right; apply (Hfail EROFS); cbn; auto|].
  destruct (yaffs_find_by_name fs parent _);
    [right; apply (Hfail EEXIST); cbn; auto|].
  destruct (S_ISDIR mode).
  { destruct (yaffs_create_dir fs parent _ mode) as [fs1 [obj|]];
      inversion H; subst; [now left|].
    right. split; [reflexivity|]. exists ENOSPC. cbn. intuition. }
  destruct (S_ISREG mode); [|right; apply (Hfail ENOSYS); cbn; auto].
  destruct (yaffs_create_file fs parent _ mode) as [fs1 [obj|]];
    inversion H; subst; [now left|].
  right. split; [reflexivity|]. exists ENOSPC. cbn. intuition.
Qed.

(** X9.  [ycb_utime] stores the access time as access and as change time and
    the modification time, each cut to 32 bits, in the equivalent object,
    marks it dirty and returns 0; the mode, the id, the type and the links of
    that object, every other object and the devices stay as they are.  The
    read-only flag of the device is not looked at. *)
Theorem ycb_utime_stores (fs : fs_state) (loc : rtems_filesystem_location_info_t)
    (actime modtime : Z) (obj0 obj : ptr) (o0 o : yaffs_obj) :
  node_access loc = Some obj0 ->
  objs fs !! obj0 = Some o0 ->
  yaffs_get_equivalent_obj fs obj0 = Some obj ->
  objs fs !! obj = Some o ->
  exists fs' o',
    ycb_utime fs loc actime modtime = Ret (fs', 0, None)
    /\ devs fs' = devs fs
    /\ (forall q, q <> obj -> objs fs' !! q = objs fs !! q)
    /\ objs fs' !! obj = Some o'
    /\ yst_atime o' = cast_u32 actime
    /\ yst_ctime o' = cast_u32 actime
    /\ yst_mtime o' = cast_u32 modtime
    /\ dirty o' = true
    /\ yst_mode o' = yst_mode o
    /\ obj_id o' = obj_id o
    /\ variant_type o' = variant_type o
    /\ variant o' = variant o
    /\ parent o' = parent o
    /\ my_dev o' = my_dev o.
Proof.
  intros Hloc Ho0 Heq Ho. unfold ycb_utime. rewrite Hloc. cbn.
  rewrite (deref_Some _ _ _ Ho0). cbn. rewrite Heq.
  rewrite (deref_Some _ _ _ Ho). cbn.
  eexists _, _. split; [reflexivity|]. split; [reflexivity|]. split.
  - intros q Hq. cbn. now rewrite lookup_insert_ne.
  - split; [cbn; apply lookup_insert_eq|]. repeat split.
Qed.

(** X10.  [stat] after [utime] gives back the times that were set: for
    times of the type [time_t], negative ones included, access and change
    time are the access time given and the modification time is the one
    given, since the conversion to [u32] on the way in and the one to
    [time_t] on the way out keep the 32 bits; inode and mode are those of the
    object before the call.  The engine is taken to name the same equivalent
    object after the update. *)
Theorem ycb_utime_then_fstat (fs : fs_state)
    (loc : rtems_filesystem_location_info_t) (buf : stat) (actime modtime : Z)
    (obj0 obj : ptr) (o0 o : yaffs_obj) (d : yaffs_dev) :
  node_access loc = Some obj0 ->
  objs fs !! obj0 = Some o0 ->
  yaffs_get_equivalent_obj fs obj0 = Some obj ->
  objs fs !! obj = Some o ->
  devs fs !! my_dev o = Some d ->
  data_bytes_per_chunk d <> 0 ->
  let fs1 :=
    set_objs fs
      (<[obj := set_times o (cast_u32 actime) (cast_u32 modtime)]> (objs fs)) in
  yaffs_get_equivalent_obj fs1 obj0 = Some obj ->
  - 2 ^ 31 <= actime < 2 ^ 31 ->
  - 2 ^ 31 <= modtime < 2 ^ 31 ->
  exists st,
    ycb_utime fs loc actime modtime = Ret (fs1, 0, None)
    /\ ycb_fstat fs1 loc buf = Ret (st, 0)
    /\ st_atime st = actime
    /\ st_ctime st = actime
    /\ st_mtime st = modtime
    /\ st_ino st = obj_id o
    /\ st_mode st
       = Z.lor (Z.land (yst_mode o) (not32 S_IFMT)) (type_bits (variant_type o)).
Proof.
  intros Hloc Ho0 Heq Ho Hd Hbs fs1 Heq1 Hac Hmod.
  assert (Hback : forall t, - 2 ^ 31 <= t < 2 ^ 31 -> cast_time_t (cast_u32 t) = t).
  { intros t Ht. unfold cast_time_t, cast_u32. rewrite wrap_signed_unsigned.
    apply wrap_signed_small; lia. }
  assert (Hut : ycb_utime fs loc actime modtime = Ret (fs1, 0, None)).
  { unfold ycb_utime. rewrite Hloc. cbn. rewrite (deref_Some _ _ _ Ho0). cbn.
    rewrite Heq. now rewrite (deref_Some _ _ _ Ho). }
  assert (Ho1 : objs fs1 !! obj = Some (set_times o (cast_u32 actime) (cast_u32 modtime))).
  { cbn. apply lookup_insert_eq. }
  assert (Ho01 : exists o01, objs fs1 !! obj0 = Some o01).
  { cbn. destruct (decide (obj = obj0)) as [->|Hne].
    - rewrite lookup_insert_eq. eauto.
    - rewrite lookup_insert_ne by exact Hne. eauto. }
  destruct Ho01 as (o01 & Ho01).
  unfold ycb_fstat. rewrite Hloc. cbn [deref_opt run_bind].
  rewrite (deref_Some _ _ _ Ho01). cbn [run_bind]. rewrite Heq1.
  cbn [deref_opt run_bind]. rewrite (deref_Some _ _ _ Ho1). cbn [run_bind].
  change (my_dev (set_times o (cast_u32 actime) (cast_u32 modtime))) with (my_dev o).
  change (devs fs1) with (devs fs) in *.
  rewrite (deref_dev_Some fs1 _ _ Hd). cbn [run_bind].
  apply Z.eqb_neq in Hbs. rewrite Hbs.
  eexists. split; [exact Hut|]. split; [reflexivity|].
  cbn [st_atime st_ctime st_mtime st_ino st_mode set_times
       yst_atime yst_ctime yst_mtime obj_id yst_mode variant_type].
  rewrite !Hback by assumption. repeat split.
Qed.

End MutationFacts.

(** ** Reading a directory *)

Section DirectoryFacts.
Context {P : Platform} {E : Engine}.
Local Open Scope Z_scope.

Lemma ycb_dir_read_while_null (n : nat) (fs : fs_state) (obj : ptr) :
  ycb_dir_read_while n fs obj None = Ret ([], None).
Proof. now destruct n. Qed.

(** The record that the loop writes for the child [cur]. *)
Lemma ycb_dir_read_while_step (n : nat) (fs : fs_state) (obj cur : ptr)
    (des : list dirent) (last : option ptr) :
  ycb_dir_read_while (S n) fs obj (Some cur) = Ret (des, last) ->
  exists e eo name co next rest,
    yaffs_get_equivalent_obj fs cur = Some e
    /\ objs fs !! e = Some eo
    /\ yaffs_get_obj_name fs (Some cur) NAME_MAX = Ret name
    /\ objs fs !! cur = Some co
    /\ (if list_head_eqb (siblings_next co) (children_of obj) then Ret None
        else do x <- list_entry (siblings_next co); Ret (Some x)) = Ret next
    /\ ycb_dir_read_while n fs obj next = Ret (rest, last)
    /\ des = {| d_ino := cast_int (obj_id eo);
                d_off := 0;
                d_reclen := wrap_unsigned 16 sizeof_dirent;
                d_namlen := wrap_unsigned 16
                              (Z.of_nat (Nat.min (String.length name) NAME_MAX));
                d_name := name |} :: rest.
Proof.
  cbn [ycb_dir_read_while]. intros H.
  apply run_bind_Ret_inv in H as ([e eo] & He & H).
  unfold deref_opt in He. destruct (yaffs_get_equivalent_obj fs cur) as [e'|]; [|discriminate].
  apply run_bind_Ret_inv in He as (eo' & Heo & He). inversion He; subst.
  apply deref_Ret in Heo.
  apply run_bind_Ret_inv in H as (name & Hname & H).
  apply run_bind_Ret_inv in H as (co & Hco & H). apply deref_Ret in Hco.
  apply run_bind_Ret_inv in H as (next & Hnext & H).
  apply run_bind_Ret_inv in H as ([rest last'] & Hrest & H).
  inversion H; subst.
  exists e, eo, name, co, next, rest. repeat split; assumption.
Qed.

Lemma ycb_dir_read_while_bounds (n : nat) (fs : fs_state) (obj : ptr)
    (cur : option ptr) (des : list dirent) (last : option ptr) :
  ycb_dir_read_while n fs obj cur = Ret (des, last) ->
  (length des <= n)%nat
  /\ ((length des < n)%nat -> last = None)
  /\ (des = [] -> last = cur)
  /\ Forall (fun de =>
               d_off de = 0
               /\ d_reclen de = wrap_unsigned 16 sizeof_dirent
               /\ d_namlen de
                  = wrap_unsigned 16
                      (Z.of_nat (Nat.min (String.length (d_name de)) NAME_MAX)))
       des.
Proof.
  revert cur des last. induction n as [|n IH]; intros cur des last H.
  - cbn in H. inversion H; subst. cbn. repeat split; try lia. constructor.
  - destruct cur as [cur|].
    + apply ycb_dir_read_while_step in H
        as (e & eo & name & co & next & rest & _ & _ & _ & _ & _ & Hrest & ->).
      destruct (IH _ _ _ Hrest) as (Hlen & Hlast & _ & Hall).
      cbn [length]. repeat split; try lia.
      * intros Hlt. apply Hlast. lia.
      * discriminate.
      * constructor; [repeat split | exact Hall].
    + cbn in H. inversion H; subst. cbn. repeat split; try lia. constructor.
Qed.

(** X11.  [ycb_dir_read] never writes past the buffer: the records it writes
    take no more than [count] bytes, each carries the size of a record and the
    length of its name, the value returned is their total size, the offset of
    the handle grows by it, and fewer records than the buffer holds means
    that the cursor is at the end. *)
Theorem ycb_dir_read_fits (fs : fs_state) (iop iop' : rtems_libio_t) (count r : Z)
    (des : list dirent) :
  0 < sizeof_dirent ->
  0 <= count < 2 ^ 31 ->
  ycb_dir_read fs iop count = Ret (iop', des, r) ->
  let records := Z.of_nat (length des) in
  records * sizeof_dirent <= count
  /\ r = records * sizeof_dirent
  /\ offset iop' = cast_off64 (offset iop + r)
  /\ pathinfo iop' = pathinfo iop
  /\ (records < count / sizeof_dirent -> data1 iop' = None)
  /\ Forall (fun de =>
               d_off de = 0
               /\ d_reclen de = wrap_unsigned 16 sizeof_dirent
               /\ d_namlen de
                  = wrap_unsigned 16
                      (Z.of_nat (Nat.min (String.length (d_name de)) NAME_MAX)))
       des.
Proof.
  intros Hpos Hcount H records. unfold ycb_dir_read in H.
  apply run_bind_Ret_inv in H as ([obj o] & _ & H).
  destruct (Z.eqb_spec sizeof_dirent 0) as [|Hsz]; [discriminate|].
  apply run_bind_Ret_inv in H as (cur & _ & H).
  apply run_bind_Ret_inv in H as ([des' last] & Hloop & H).
  destruct (ycb_dir_read_while_bounds _ _ _ _ _ _ Hloop) as (Hlen & Hlast & _ & Hall).
  inversion H; subst. clear H. subst records.
  assert (Hq : 0 <= count / sizeof_dirent) by (apply Z.div_pos; lia).
  assert (Hmul : sizeof_dirent * (count / sizeof_dirent) <= count)
    by (apply Z.mul_div_le; lia).
  assert (Hfit : Z.of_nat (length des) * sizeof_dirent <= count) by nia.
  assert (Hr : cast_ssize_t (cast_size_t (Z.of_nat (length des) * sizeof_dirent))
               = Z.of_nat (length des) * sizeof_dirent).
  { unfold cast_ssize_t, cast_size_t.
    rewrite wrap_unsigned_small by nia. apply wrap_signed_small; nia. }
  rewrite Hr. cbn [offset pathinfo data1].
  split; [exact Hfit|]. split; [reflexivity|]. split; [reflexivity|].
  split; [reflexivity|]. split; [|exact Hall].
  intros Hlt. apply Hlast. lia.
Qed.

(** Reading [n + m] records is reading [n] and then [m] from where the
    first read stopped. *)
Lemma ycb_dir_read_while_app (n m : nat) (fs : fs_state) (obj : ptr)
    (cur : option ptr) :
  ycb_dir_read_while (n + m) fs obj cur
  = do r1 <- ycb_dir_read_while n fs obj cur;
    do r2 <- ycb_dir_read_while m fs obj (snd r1);
    Ret ((fst r1 ++ fst r2)%list, snd r2).
Proof.
  revert cur. induction n as [|n IH]; intros cur.
  - cbn [Nat.add ycb_dir_read_while run_bind fst snd].
    destruct (ycb_dir_read_while m fs obj cur) as [[l2 c2]| |]; reflexivity.
  - destruct cur as [cur|].
    + change (S n + m)%nat with (S (n + m)). cbn [ycb_dir_read_while].
      destruct (deref_opt fs (yaffs_get_equivalent_obj fs cur)) as [[e eo]| |];
        cbn [run_bind]; try reflexivity.
      destruct (yaffs_get_obj_name fs (Some cur) NAME_MAX) as [name| |];
        cbn [run_bind]; try reflexivity.
      destruct (deref fs cur) as [co| |]; cbn [run_bind]; try reflexivity.
      destruct (if list_head_eqb (siblings_next co) (children_of obj) then _ else _)
        as [next| |]; cbn [run_bind]; try reflexivity.
      rewrite IH.
      destruct (ycb_dir_read_while n fs obj next) as [[l1 c1]| |];
        cbn [run_bind fst snd]; try reflexivity.
      destruct (ycb_dir_read_while m fs obj c1) as [[l2 c2]| |]; reflexivity.
    + rewrite !ycb_dir_read_while_null. cbn [run_bind fst snd].
      now rewrite ycb_dir_read_while_null.
Qed.

(** The cursor a read starts from. *)
Lemma ycb_dir_read_unfold (fs : fs_state) (iop : rtems_libio_t) (count : Z)
    (obj : ptr) (o : yaffs_obj) :
  node_access (pathinfo iop) = Some obj ->
  objs fs !! obj = Some o ->
  sizeof_dirent <> 0 ->
  ycb_dir_read fs iop count
  = do cur <-
      (if offset iop =? 0 then
         match variant o with
         | dir_variant first =>
             if list_head_eqb first (children_of obj) then Ret None
             else do e <- list_entry first; Ret (Some e)
         | _ => Fault
         end
       else Ret (data1 iop));
    do r <- ycb_dir_read_while (Z.to_nat (count / sizeof_dirent)) fs obj cur;
    let readlen :=
      cast_ssize_t (cast_size_t (Z.of_nat (length (fst r)) * sizeof_dirent)) in
    Ret ({| pathinfo := pathinfo iop;
            offset := cast_off64 (offset iop + readlen);
            data1 := snd r;
            iop_size := iop_size iop |}, fst r, readlen).
Proof.
  intros Hloc Ho Hsz. unfold ycb_dir_read. rewrite Hloc.
  cbn [deref_opt run_bind]. rewrite (deref_Some _ _ _ Ho). cbn [run_bind].
  apply Z.eqb_neq in Hsz. rewrite Hsz.
  destruct (if offset iop =? 0 then _ else _) as [cur| |]; cbn [run_bind];
    try reflexivity.
  destruct (ycb_dir_read_while _ fs obj cur) as [[des last]| |]; reflexivity.
Qed.

(** X12.  Reading a directory in two batches gives what one read with room
    for both gives: the records of the second read follow those of the first,
    and the handle ends in the same state.  The handle is at an offset from 0
    on and the sizes stay below [2^31]. *)
Theorem ycb_dir_read_batches_compose (fs : fs_state)
    (iop iop1 iop2 : rtems_libio_t) (count1 count2 r1 r2 : Z)
    (des1 des2 : list dirent) :
  0 < sizeof_dirent ->
  0 <= count1 ->
  0 <= count2 ->
  0 <= offset iop ->
  offset iop + (count1 / sizeof_dirent + count2 / sizeof_dirent) * sizeof_dirent
    < 2 ^ 31 ->
  ycb_dir_read fs iop count1 = Ret (iop1, des1, r1) ->
  ycb_dir_read fs iop1 count2 = Ret (iop2, des2, r2) ->
  ycb_dir_read fs iop
    ((count1 / sizeof_dirent + count2 / sizeof_dirent) * sizeof_dirent)
  = Ret (iop2, (des1 ++ des2)%list, r1 + r2).
Proof.
  intros Hpos Hc1 Hc2 Hoff Hrange H1 H2.
  assert (Hn1 : 0 <= count1 / sizeof_dirent) by (apply Z.div_pos; lia).
  assert (Hn2 : 0 <= count2 / sizeof_dirent) by (apply Z.div_pos; lia).
  remember (count1 / sizeof_dirent) as n1 eqn:En1.
  remember (count2 / sizeof_dirent) as n2 eqn:En2.
  assert (Hobj : exists obj o,
             node_access (pathinfo iop) = Some obj /\ objs fs !! obj = Some o).
  { unfold ycb_dir_read in H1.
    apply run_bind_Ret_inv in H1 as ([obj o] & Hd & _).
    unfold deref_opt in Hd. destruct (node_access (pathinfo iop)) as [q|]; [|discriminate].
    apply run_bind_Ret_inv in Hd as (o' & Ho' & Hd). inversion Hd; subst.
    apply deref_Ret in Ho'. eauto. }
  destruct Hobj as (obj & o & Hloc & Ho).
  assert (Hsz : sizeof_dirent <> 0) by lia.
  rewrite (ycb_dir_read_unfold fs iop count1 obj o Hloc Ho Hsz) in H1.
  apply run_bind_Ret_inv in H1 as (cur & Hcur & H1).
  apply run_bind_Ret_inv in H1 as ([l1 c1] & Hl1 & H1).
  cbn [fst snd] in H1. rewrite <- En1 in Hl1.
  destruct (ycb_dir_read_while_bounds _ _ _ _ _ _ Hl1) as (Hlen1 & _ & Hnil1 & _).
  assert (Hcast : forall k : nat,
             (k <= Z.to_nat (n1 + n2))%nat ->
             cast_ssize_t (cast_size_t (Z.of_nat k * sizeof_dirent)) = Z.of_nat k * sizeof_dirent).
  { intros k Hk. unfold cast_ssize_t, cast_size_t.
    assert (0 <= Z.of_nat k * sizeof_dirent < 2 ^ 31) by nia.
    rewrite wrap_unsigned_small by lia. apply wrap_signed_small; lia. }
  rewrite (Hcast (length l1)) in H1 by lia.
  assert (Hoff1 : cast_off64 (offset iop + Z.of_nat (length l1) * sizeof_dirent)
                  = offset iop + Z.of_nat (length l1) * sizeof_dirent).
  { apply wrap_signed_small; [lia|]. nia. }
  rewrite Hoff1 in H1. inversion H1; subst iop1 des1 r1. clear H1.
  match type of H2 with
  | ycb_dir_read fs ?it _ = _ =>
      rewrite (ycb_dir_read_unfold fs it count2 obj o Hloc Ho Hsz) in H2
  end.
  cbn [offset data1 pathinfo iop_size] in H2.
  (* the second read starts where the first one stopped *)
  assert (Hcur2 : (if offset iop + Z.of_nat (length l1) * sizeof_dirent =? 0 then
                     match variant o with
                     | dir_variant first =>
                         if list_head_eqb first (children_of obj) then Ret None
                         else do e <- list_entry first; Ret (Some e)
                     | _ => Fault
                     end
                   else Ret c1) = Ret c1).
  { destruct (Z.eqb_spec (offset iop + Z.of_nat (length l1) * sizeof_dirent) 0) as [Hz|]; [|reflexivity].
    assert (offset iop = 0) as Hz0 by nia.
    assert (length l1 = 0%nat) as Hl0 by nia.
    destruct l1; [|discriminate]. rewrite (Hnil1 eq_refl).
    rewrite Hz0 in Hcur. cbn in Hcur. exact Hcur. }
  rewrite Hcur2 in H2. cbn [run_bind] in H2.
  apply run_bind_Ret_inv in H2 as ([l2 c2] & Hl2 & H2).
  cbn [fst snd] in H2. rewrite <- En2 in Hl2.
  destruct (ycb_dir_read_while_bounds _ _ _ _ _ _ Hl2) as (Hlen2 & _ & _ & _).
  rewrite (Hcast (length l2)) in H2 by lia.
  assert (Hoff2 : cast_off64 (offset iop + Z.of_nat (length l1) * sizeof_dirent
                              + Z.of_nat (length l2) * sizeof_dirent)
                  = offset iop + Z.of_nat (length l1) * sizeof_dirent + Z.of_nat (length l2) * sizeof_dirent).
  { apply wrap_signed_small; [lia|]. nia. }
  rewrite Hoff2 in H2. inversion H2; subst iop2 des2 r2. clear H2.
  (* the single read *)
  rewrite (ycb_dir_read_unfold fs iop _ obj o Hloc Ho Hsz).
  rewrite Hcur. cbn [run_bind].
  rewrite Z.div_mul by exact Hsz.
  rewrite Z2Nat.inj_add by lia.
  rewrite ycb_dir_read_while_app, Hl1. cbn [run_bind fst snd]. rewrite Hl2.
  cbn [run_bind fst snd].
  rewrite (Hcast (length (l1 ++ l2)%list)) by (rewrite length_app; lia).
  rewrite length_app, Nat2Z.inj_add.
  assert (Hoff3 : cast_off64 (offset iop + (Z.of_nat (length l1) + Z.of_nat (length l2)) * sizeof_dirent)
                  = offset iop + Z.of_nat (length l1) * sizeof_dirent + Z.of_nat (length l2) * sizeof_dirent).
  { unfold cast_off64. rewrite wrap_signed_small; [ring | lia | nia]. }
  rewrite Hoff3. do 3 f_equal. lia.
Qed.

End DirectoryFacts.

Section ChainFacts.
Context {P : Platform} {E : Engine}.
Local Open Scope Z_scope.

(** X13.  [ycb_dir_read] walks the chain of siblings: when the links from
    the cursor visit the children [cs] and then the head of the directory,
    and [ents] are the records of these children (inode of the equivalent
    object, stored name), a read with room for [n] records writes the first
    [n] of [ents], in the order of the chain, and leaves the cursor on the
    child after them; with [n] at least the number of children each child
    is listed once and the cursor is NULL. *)
Theorem ycb_dir_read_follows_chain (n : nat) (fs : fs_state) (obj : ptr)
    (cur : option ptr) (cs : list ptr) (ents : list dirent) :
  sibling_chain fs obj cur cs ->
  Forall2
    (fun c de =>
       exists e eo,
         yaffs_get_equivalent_obj fs c = Some e
         /\ objs fs !! e = Some eo
         /\ yaffs_get_obj_name fs (Some c) NAME_MAX = Ret (d_name de)
         /\ de = {| d_ino := cast_int (obj_id eo);
                    d_off := 0;
                    d_reclen := wrap_unsigned 16 sizeof_dirent;
                    d_namlen := wrap_unsigned 16
                                  (Z.of_nat (Nat.min (String.length (d_name de)) NAME_MAX));
                    d_name := d_name de |})
    cs ents ->
  ycb_dir_read_while n fs obj cur = Ret (take n ents, head (drop n cs)).
Proof.
  revert cur cs ents. induction n as [|n IH]; intros cur cs ents Hchain Hents.
  - cbn. destruct cs as [|c cs]; cbn in Hchain.
    + now subst.
    + destruct Hchain as (-> & _). reflexivity.
  - destruct cs as [|c cs]; cbn [sibling_chain] in Hchain.
    + subst cur. inversion Hents; subst. reflexivity.
    + destruct Hchain as (-> & o & Ho & Hnext & Hchain).
      inversion Hents as [|? de ? ents' (e & eo & He & Heo & Hname & Hde) Hents']; subst.
      cbn [ycb_dir_read_while]. rewrite He. cbn [deref_opt run_bind].
      rewrite (deref_Some _ _ _ Heo). cbn [run_bind]. rewrite Hname.
      cbn [run_bind]. rewrite (deref_Some _ _ _ Ho). cbn [run_bind].
      assert (Hcur : (if list_head_eqb (siblings_next o) (children_of obj)
                      then Ret None
                      else do x <- list_entry (siblings_next o); Ret (Some x))
                     = Ret (head cs)).
      { destruct cs as [|c' cs']; rewrite Hnext; cbn.
        - now rewrite Nat.eqb_refl.
        - reflexivity. }
      rewrite Hcur. cbn [run_bind].
      rewrite (IH (head cs) cs ents' Hchain Hents'). cbn [run_bind].
      rewrite <- Hde. reflexivity.
Qed.

End ChainFacts.

(** X14.  [ycb_dir_lseek] supports the rewind only: for [SEEK_SET] with
    offset 0 it returns 0, and the read that follows starts from the first
    child wherever the cursor stood; every other request fails with
    [ENOTSUP] and leaves the handle as it is. *)
Theorem ycb_dir_lseek_rewinds {P : Platform} {E : Engine} (iop : rtems_libio_t)
    (length whence : Z) :
  (whence = SEEK_SET /\ length = 0%Z ->
   exists iop',
     ycb_dir_lseek iop length whence = (iop', 0%Z, None)
     /\ offset iop' = 0%Z
     /\ forall fs count cursor,
          ycb_dir_read fs iop' count
          = ycb_dir_read fs
              {| pathinfo := pathinfo iop; offset := 0%Z; data1 := cursor;
                 iop_size := iop_size iop |} count)
  /\ (~ (whence = SEEK_SET /\ length = 0%Z) ->
      ycb_dir_lseek iop length whence = (iop, (-1)%Z, Some ENOTSUP)).
Proof.
  split.
  - intros (-> & ->). eexists. split; [reflexivity|]. split; [reflexivity|].
    intros fs count cursor. reflexivity.
  - intros Hno. unfold ycb_dir_lseek.
    destruct (Z.eqb_spec whence SEEK_SET) as [Hw|Hw];
      destruct (Z.eqb_spec length 0) as [Hl|Hl]; cbn; try reflexivity.
    elim Hno. now split.
Qed.

(** ** Seeking in a file *)

Section SeekFacts.
Context {P : Platform} {E : Engine}.
Local Open Scope Z_scope.

(** X15.  Seeking to the end of a file, or past it, and reading: the seek
    returns the length of the file plus the distance, and the read that
    follows asks the engine for 0 bytes at that offset, whatever count the
    caller gives. *)
Theorem ycb_file_lseek_end_then_read (fs : fs_state) (iop : rtems_libio_t)
    (delta N : Z) (obj : ptr) (o : yaffs_obj) :
  node_access (pathinfo iop) = Some obj ->
  objs fs !! obj = Some o ->
  let L := yaffs_get_obj_length fs obj in
  0 <= L <= INT_MAX ->
  0 <= delta ->
  L + delta < 2 ^ 63 ->
  0 <= N <= SIZE_MAX ->
  exists iop',
    ycb_file_lseek fs iop delta SEEK_END = Ret (iop', L + delta, None)
    /\ offset iop' = L + delta
    /\ ycb_file_read fs iop' N
       = (let '(fs', bytes, nr) := yaffs_file_rd fs obj (L + delta) 0 in
          if nr <? 0 then Ret (fs', bytes, -1, Some ENOSPC)
          else Ret (fs', bytes, nr, None)).
Proof.
  intros Hloc Ho L HL Hdelta Hrange HN.
  assert (Hoff : cast_off64 (L + delta) = L + delta).
  { apply wrap_signed_small; [lia|]. unfold INT_MAX in HL. lia. }
  unfold ycb_file_lseek. cbn [Z.eqb SEEK_END SEEK_SET SEEK_CUR].
  rewrite Hloc. cbn [deref_opt run_bind]. rewrite (deref_Some _ _ _ Ho).
  cbn [run_bind]. fold L. rewrite Hoff.
  eexists. split; [reflexivity|]. split; [reflexivity|].
  unfold ycb_file_read. cbn [set_offset pathinfo offset]. rewrite Hloc.
  cbn [deref_opt run_bind]. rewrite (deref_Some _ _ _ Ho). cbn [run_bind].
  fold L.
  assert (Hreq : read_request L (L + delta) N = 0).
  { rewrite read_request_clamped; unfold INT_MAX in *; lia. }
  rewrite Hreq. reflexivity.
Qed.

(** X16.  [ycb_file_lseek] by [whence].  [SEEK_SET] stores the argument and
    [SEEK_CUR] the old offset plus the argument, [SEEK_END] the length of the
    file plus the argument; each returns the offset stored, without any check
    of its sign.  Any other [whence] fails: -1 with [EINVAL], and the handle
    stays as it is.  Whatever the call returns, nothing of the handle but the
    offset has changed. *)
Theorem ycb_file_lseek_outcomes (fs : fs_state) (iop : rtems_libio_t)
    (length whence : Z) :
  (whence = SEEK_SET ->
   ycb_file_lseek fs iop length whence = Ret (set_offset iop length, length, None))
  /\ (whence = SEEK_CUR ->
      let off := cast_off64 (offset iop + length) in
      ycb_file_lseek fs iop length whence = Ret (set_offset iop off, off, None))
  /\ (whence = SEEK_END ->
      forall obj o,
        node_access (pathinfo iop) = Some obj ->
        objs fs !! obj = Some o ->
        let off := cast_off64 (yaffs_get_obj_length fs obj + length) in
        ycb_file_lseek fs iop length whence = Ret (set_offset iop off, off, None))
  /\ (whence <> SEEK_SET -> whence <> SEEK_CUR -> whence <> SEEK_END ->
      ycb_file_lseek fs iop length whence = Ret (iop, -1, Some EINVAL))
  /\ (forall iop' r e,
        ycb_file_lseek fs iop length whence = Ret (iop', r, e) ->
        pathinfo iop' = pathinfo iop
        /\ data1 iop' = data1 iop
        /\ iop_size iop' = iop_size iop
        /\ ((e = None
             /\ r = offset iop'
             /\ (whence = SEEK_SET -> r = length)
             /\ (whence = SEEK_CUR -> r = cast_off64 (offset iop + length)))
            \/ (e = Some EINVAL
                /\ r = -1
                /\ iop' = iop
                /\ whence <> SEEK_SET /\ whence <> SEEK_CUR /\ whence <> SEEK_END))).
Proof.
  unfold ycb_file_lseek.
  split; [intros ->; reflexivity|].
  split; [intros ->; reflexivity|].
  split.
  { intros -> obj o Hloc Ho. cbn -[cast_off64]. rewrite Hloc.
    cbn [deref_opt run_bind]. rewrite (deref_Some _ _ _ Ho). reflexivity. }
  split.
  { intros Hs Hc He. apply Z.eqb_neq in Hs, Hc, He. now rewrite Hs, Hc, He. }
  intros iop' r e H.
  destruct (Z.eqb_spec whence SEEK_SET) as [Hs|Hs].
  { inversion H; subst. repeat split. left. repeat split.
    intros Hc. discriminate Hc. }
  destruct (Z.eqb_spec whence SEEK_CUR) as [Hc|Hc].
  { inversion H; subst. repeat split. left. repeat split.
    intros Hset. discriminate Hset. }
  destruct (Z.eqb_spec whence SEEK_END) as [He|He].
  { apply run_bind_Ret_inv in H as ([obj o] & _ & H). inversion H; subst.
    repeat split. left. repeat split; intros Hx; discriminate Hx. }
  inversion H; subst. repeat split. right. repeat split; assumption.
Qed.

End SeekFacts.

(** ** Splitting a path for [mknod] *)

Lemma all_slashes_strip (tail : string) :
  all_slashes tail = true -> strip_trailing_slashes tail = "".
Proof. destruct tail as [|c tail]; [reflexivity|]. cbn [strip_trailing_slashes]. now intros ->. Qed.

Lemma strchr_head (c : ascii) (s : string) (a : ascii) :
  strchr (String c s) a = None -> Ascii.eqb c a = false /\ strchr s a = None.
Proof.
  cbn. destruct (Ascii.eqb c a); [discriminate|].
  destruct (strchr s a); [discriminate|]. now split.
Qed.

Lemma strip_leaf (leaf tail : string) :
  strchr leaf "/" = None ->
  all_slashes tail = true ->
  strip_trailing_slashes (leaf ++ tail) = leaf.
Proof.
  intros Hleaf Htail. induction leaf as [|c leaf IH].
  - now apply all_slashes_strip.
  - apply strchr_head in Hleaf as (Hc & Hleaf).
    change (String c leaf ++ tail) with (String c (leaf ++ tail)).
    cbn [strip_trailing_slashes all_slashes]. rewrite Hc. cbn.
    f_equal. now apply IH.
Qed.

Lemma all_slashes_app_false (x y : string) :
  all_slashes y = false -> all_slashes (x ++ y) = false.
Proof.
  intros Hy. induction x as [|c x IH]; [exact Hy|].
  change (String c x ++ y) with (String c (x ++ y)).
  cbn [all_slashes]. rewrite IH. apply andb_false_r.
Qed.

Lemma strip_app (x y : string) :
  all_slashes y = false ->
  strip_trailing_slashes (x ++ y) = x ++ strip_trailing_slashes y.
Proof.
  intros Hy. induction x as [|c x IH]; [reflexivity|].
  change (String c x ++ y) with (String c (x ++ y)).
  cbn [strip_trailing_slashes all_slashes].
  rewrite (all_slashes_app_false x y Hy), andb_false_r.
  change (String c x ++ strip_trailing_slashes y)
    with (String c (x ++ strip_trailing_slashes y)).
  f_equal. exact IH.
Qed.

Lemma strrchr_none (s : string) (a : ascii) :
  strchr s a = None -> strrchr s a = None.
Proof.
  induction s as [|c s IH]; [reflexivity|]. intros H.
  apply strchr_head in H as (Hc & Hs). cbn. now rewrite (IH Hs), Hc.
Qed.

Lemma strrchr_last (parent leaf : string) :
  strchr leaf "/" = None ->
  strrchr (parent ++ String "/" leaf) "/" = Some (String.length parent).
Proof.
  intros Hleaf. induction parent as [|c parent IH].
  - change ("" ++ String "/" leaf) with (String "/" leaf). cbn [strrchr].
    now rewrite (strrchr_none _ _ Hleaf).
  - change (String c parent ++ String "/" leaf)
      with (String c (parent ++ String "/" leaf)).
    cbn [strrchr String.length]. now rewrite IH.
Qed.

Lemma advance_past (parent rest : string) (c : ascii) :
  advance (S (String.length parent)) (parent ++ String c rest) = rest.
Proof.
  induction parent as [|a parent IH]; [reflexivity|].
  change (String a parent ++ String c rest) with (String a (parent ++ String c rest)).
  cbn [String.length]. exact IH.
Qed.

Lemma cut_at_prefix (parent rest : string) :
  cut_at (parent ++ rest) (String.length parent) = parent.
Proof.
  unfold cut_at. induction parent as [|a parent IH].
  - destruct rest; reflexivity.
  - change (String a parent ++ rest) with (String a (parent ++ rest)).
    cbn [String.length substring]. f_equal. exact IH.
Qed.

Lemma strchr_leaf_tail (leaf tail : string) :
  strchr leaf "/" = None ->
  all_slashes tail = true ->
  match strchr (leaf ++ tail) "/" with
  | Some i => cut_at (leaf ++ tail) i
  | None => leaf ++ tail
  end = leaf.
Proof.
  intros Hleaf Htail. induction leaf as [|c leaf IH].
  - change ("" ++ tail) with tail. destruct tail as [|t tail]; [reflexivity|].
    cbn in Htail. apply andb_true_iff in Htail as (Ht & _).
    cbn [strchr]. now rewrite Ht.
  - apply strchr_head in Hleaf as (Hc & Hleaf). specialize (IH Hleaf).
    change (String c leaf ++ tail) with (String c (leaf ++ tail)).
    cbn [strchr]. rewrite Hc.
    destruct (strchr (leaf ++ tail) "/") as [i|].
    + unfold cut_at in *. cbn [substring]. f_equal. exact IH.
    + f_equal. exact IH.
Qed.

Section ForMakeFacts.
Context {W : Type}.
Variable ycb_eval_path : string -> Z -> Z -> W -> W * Z * errno_write.
Variable handlers_of : W -> handlers_ref.
Variable freenod : W -> W.
Local Open Scope Z_scope.

(** X17.  [ycb_eval_path_for_make] on a path [parent/leaf] followed by any
    number of ['/']: it evaluates [parent], the part before the last ['/']
    that a name follows, and sets [*name] to the last name with the ['/']
    that trail it.  When the evaluation succeeds on something that is not
    bound to the directory handlers it frees the node and fails with
    [EINVAL]; otherwise it returns what the evaluation returned. *)
Theorem ycb_eval_path_for_make_splits (parent leaf tail : string) (w : W)
    (name0 : option string) :
  strchr leaf "/" = None ->
  leaf <> "" ->
  all_slashes tail = true ->
  ycb_eval_path_for_make ycb_eval_path handlers_of freenod true true
    (parent ++ String "/" (leaf ++ tail)) w name0
  = (let '(w', r, e) :=
       ycb_eval_path parent (cast_size_t (Z.of_nat (String.length parent))) 0 w in
     if (r =? 0) && negb (is_directory_handlers (handlers_of w'))
     then (freenod w', Some (leaf ++ tail), -1, Some EINVAL)
     else (w', Some (leaf ++ tail), r, e)).
Proof.
  intros Hleaf Hne Htail. unfold ycb_eval_path_for_make. cbn [negb].
  assert (Hns : all_slashes (String "/" (leaf ++ tail)) = false).
  { destruct leaf as [|c leaf]; [congruence|].
    apply strchr_head in Hleaf as (Hc & _).
    change (String c leaf ++ tail) with (String c (leaf ++ tail)).
    cbn [all_slashes]. rewrite Hc. reflexivity. }
  rewrite (strip_app parent _ Hns).
  assert (Hstrip : strip_trailing_slashes (String "/" (leaf ++ tail))
                   = String "/" leaf).
  { cbn [strip_trailing_slashes]. rewrite Hns. f_equal. now apply strip_leaf. }
  rewrite Hstrip, (strrchr_last parent leaf Hleaf).
  rewrite advance_past, cut_at_prefix. reflexivity.
Qed.

(** X18.  A path without a directory part, that is a name without ['/']
    followed by any number of ['/']: [ycb_eval_path_for_make] evaluates [.]
    with the length of the whole path, sets [*name] to the whole path and
    returns what the evaluation returned, without looking at the handlers. *)
Theorem ycb_eval_path_for_make_no_parent (leaf tail : string) (w : W)
    (name0 : option string) (strdup2_ok : bool) :
  strchr leaf "/" = None ->
  all_slashes tail = true ->
  ycb_eval_path_for_make ycb_eval_path handlers_of freenod true strdup2_ok
    (leaf ++ tail) w name0
  = (let '(w', r, e) :=
       ycb_eval_path "." (cast_size_t (Z.of_nat (String.length (leaf ++ tail)))) 0 w in
     (w', Some (leaf ++ tail), r, e)).
Proof.
  intros Hleaf Htail. unfold ycb_eval_path_for_make. cbn [negb].
  rewrite (strip_leaf _ _ Hleaf Htail), (strrchr_none _ _ Hleaf). reflexivity.
Qed.

End ForMakeFacts.

(** X19.  The name that [ycb_eval_path_for_make] hands out is the last name
    of the path with the ['/'] that trail it; [ycb_mknod] cuts these off:
    creating [leaf] followed by ['/'] is creating [leaf]. *)
Theorem ycb_mknod_last_name {P : Platform} {E : Engine} (strdup_ok : bool)
    (fs : fs_state) (leaf tail : string) (mode the_dev : Z)
    (pathloc : rtems_filesystem_location_info_t) :
  strchr leaf "/" = None ->
  all_slashes tail = true ->
  ycb_mknod strdup_ok fs (leaf ++ tail) mode the_dev pathloc
  = ycb_mknod strdup_ok fs leaf mode the_dev pathloc.
Proof.
  intros Hleaf Htail. unfold ycb_mknod.
  rewrite (strchr_leaf_tail leaf tail Hleaf Htail), Hleaf. reflexivity.
Qed.

(** ** The type of a node *)

Section TypeFacts.
Context {P : Platform} {E : Engine}.
Local Open Scope Z_scope.

(** The type codes lie within [S_IFMT] and differ from each other and
    from 0. *)
Hypothesis Hdir : Z.land S_IFDIR S_IFMT = S_IFDIR.
Hypothesis Hreg : Z.land S_IFREG S_IFMT = S_IFREG.
Hypothesis Hlnk : Z.land S_IFLNK S_IFMT = S_IFLNK.
Hypothesis Hdir0 : S_IFDIR <> 0.
Hypothesis Hreg0 : S_IFREG <> 0.
Hypothesis Hdir_reg : S_IFDIR <> S_IFREG.
Hypothesis Hlnk_dir : S_IFLNK <> S_IFDIR.
Hypothesis Hlnk_reg : S_IFLNK <> S_IFREG.

Lemma type_bits_within (t : yaffs_obj_type) :
  Z.land (type_bits t) S_IFMT = type_bits t.
Proof. destruct t; cbn; auto using Z.land_0_l. Qed.

Lemma ycb_fstat_mode (fs : fs_state) (loc : rtems_filesystem_location_info_t)
    (buf st : stat) (obj0 obj : ptr) (o0 o : yaffs_obj) :
  node_access loc = Some obj0 ->
  objs fs !! obj0 = Some o0 ->
  yaffs_get_equivalent_obj fs obj0 = Some obj ->
  objs fs !! obj = Some o ->
  ycb_fstat fs loc buf = Ret (st, 0) ->
  Z.land (st_mode st) S_IFMT = type_bits (variant_type o).
Proof.
  intros Hloc Ho0 Heq Ho H. unfold ycb_fstat in H. rewrite Hloc in H.
  cbn [deref_opt run_bind] in H. rewrite (deref_Some _ _ _ Ho0) in H.
  cbn [run_bind] in H. rewrite Heq in H. cbn [deref_opt run_bind] in H.
  rewrite (deref_Some _ _ _ Ho) in H. cbn [run_bind] in H.
  apply run_bind_Ret_inv in H as (d & _ & H).
  destruct (data_bytes_per_chunk d =? 0); [discriminate|].
  inversion H; subst. cbn [st_mode].
  exact (proj1 (overlay_bits (yst_mode o) _ _ (type_bits_within (variant_type o)))).
Qed.

Lemma type_bits_classify (t : yaffs_obj_type) :
  (type_bits t =? S_IFDIR) = obj_type_eqb t YAFFS_OBJECT_TYPE_DIRECTORY
  /\ (type_bits t =? S_IFREG) = obj_type_eqb t YAFFS_OBJECT_TYPE_FILE.
Proof.
  destruct t; cbn [type_bits obj_type_eqb]; split;
    first [apply Z.eqb_refl
          | apply Z.eqb_neq; first [assumption | apply not_eq_sym; assumption]].
Qed.

(** X20.  The mode that [ycb_fstat] reports tells directories and regular
    files apart as the object engine does: [S_ISDIR] holds of it exactly for
    a directory and [S_ISREG] exactly for a file, the type being that of the
    equivalent object. *)
Theorem ycb_fstat_type_macros (fs : fs_state)
    (loc : rtems_filesystem_location_info_t) (buf st : stat) (obj0 obj : ptr)
    (o0 o : yaffs_obj) :
  node_access loc = Some obj0 ->
  objs fs !! obj0 = Some o0 ->
  yaffs_get_equivalent_obj fs obj0 = Some obj ->
  objs fs !! obj = Some o ->
  ycb_fstat fs loc buf = Ret (st, 0) ->
  S_ISDIR (st_mode st) = obj_type_eqb (variant_type o) YAFFS_OBJECT_TYPE_DIRECTORY
  /\ S_ISREG (st_mode st) = obj_type_eqb (variant_type o) YAFFS_OBJECT_TYPE_FILE.
Proof.
  intros Hloc Ho0 Heq Ho H.
  pose proof (ycb_fstat_mode _ _ _ _ _ _ _ _ Hloc Ho0 Heq Ho H) as Hm.
  unfold S_ISDIR, S_ISREG. rewrite Hm. apply type_bits_classify.
Qed.

(** X21.  [ycb_node_type] and [ycb_fstat] agree on an object that is its own
    equivalent: the node type is a directory exactly when [S_ISDIR] holds of
    the mode, a file exactly when [S_ISREG] does, and [EINVAL] is raised
    exactly for an object of unknown type.  [ycb_node_type] does not resolve
    a hard link, which it reports as such. *)
Theorem ycb_node_type_agrees (fs : fs_state)
    (loc : rtems_filesystem_location_info_t) (buf st : stat) (obj : ptr)
    (o : yaffs_obj) :
  node_access loc = Some obj ->
  objs fs !! obj = Some o ->
  yaffs_get_equivalent_obj fs obj = Some obj ->
  ycb_fstat fs loc buf = Ret (st, 0) ->
  exists t e,
    ycb_node_type fs loc = Ret (t, e)
    /\ (t = RTEMS_FILESYSTEM_DIRECTORY <-> S_ISDIR (st_mode st) = true)
    /\ (t = RTEMS_FILESYSTEM_MEMORY_FILE <-> S_ISREG (st_mode st) = true)
    /\ (t = RTEMS_FILESYSTEM_HARD_LINK
        <-> variant_type o = YAFFS_OBJECT_TYPE_HARDLINK)
    /\ (e = Some EINVAL <-> variant_type o = YAFFS_OBJECT_TYPE_UNKNOWN)
    /\ (e = None \/ (e = Some EINVAL /\ t = RTEMS_FILESYSTEM_INVALID)).
Proof.
  intros Hloc Ho Heq H.
  pose proof (ycb_fstat_mode _ _ _ _ _ _ _ _ Hloc Ho Heq Ho H) as Hm.
  destruct (type_bits_classify (variant_type o)) as (Hd & Hr).
  unfold S_ISDIR, S_ISREG. rewrite Hm, Hd, Hr.
  unfold ycb_node_type. rewrite Hloc. cbn [deref_opt run_bind].
  rewrite (deref_Some _ _ _ Ho). cbn [run_bind].
  destruct (variant_type o); cbn; eexists _, _; (split; [reflexivity|]);
    repeat split; intros; try discriminate; try congruence; auto.
  all: right; split; reflexivity.
Qed.

End TypeFacts.

(** ** The further properties on the small volumes *)

(** X3: [d//ln] resolves as [d/ln]. *)
Lemma h_find_object_surplus_divider_witness :
  @h_find_object_while rtems_platform Arena.engine 10 Arena.example_fs
    (Some 1%nat) "d//ln" None
  = @h_find_object_while rtems_platform Arena.engine 10 Arena.example_fs
      (Some 1%nat) "d/ln" None
  /\ @h_find_object_while rtems_platform Arena.engine 10 Arena.example_fs
       (Some 1%nat) "d/ln" None = Ret (Some 2%nat, None).
Proof.
  assert (Ha : Forall (fun c => @is_path_divider rtems_platform c = false)
                 (list_ascii_of_string "d")) by (repeat constructor).
  split; [|reflexivity].
  exact (@h_find_object_surplus_divider rtems_platform Arena.engine
           Arena.example_fs 10 (Some 1%nat) "d" "/" "ln" None Ha eq_refl).
Defined.

(** X4: the escape met in the alias of [/up] comes without an object and
    its suffix [x/y] starts with no divider. *)
Lemma h_find_object_signal_witness :
  @h_find_object rtems_platform Arena.engine 10 Arena.example_fs 0%nat None
    "/up/zz" None = Ret (None, Some "x/y")
  /\ @signal_ok rtems_platform (None, Some "x/y").
Proof.
  split; [reflexivity|].
  exact (@h_find_object_signal rtems_platform Arena.engine Arena.example_fs
           10 0%nat None "/up/zz" (None, Some "x/y") eq_refl).
Defined.

(** In the reference engine an object that is no hard link is its own
    equivalent. *)
Lemma arena_equivalent_identity (fs : fs_state) (q : ptr) (o : yaffs_obj) :
  objs fs !! q = Some o ->
  variant_type o <> YAFFS_OBJECT_TYPE_HARDLINK ->
  yaffs_get_equivalent_obj (Engine := Arena.engine) fs q = Some q.
Proof.
  intros Ho Hh. cbn. unfold Arena.get_equivalent_obj. rewrite Ho.
  destruct (variant_type o); try reflexivity. congruence.
Qed.

(** X5: following the link [/d/ln] gives the file [/a]; following links from
    [/a] gives [/a]. *)
Lemma h_follow_link_idempotent_witness :
  @h_follow_link rtems_platform Arena.engine 6 Arena.example_fs (Some 6%nat) None
  = Ret (Some 2%nat, None)
  /\ @h_follow_link rtems_platform Arena.engine 2 Arena.example_fs (Some 2%nat) None
     = Ret (Some 2%nat, None).
Proof.
  split; [reflexivity|].
  exact (@h_follow_link_idempotent rtems_platform Arena.engine Arena.example_fs
           6 0 (Some 6%nat) None None 2%nat
           (arena_equivalents_resolved _ example_links_resolved)
           example_parents_resolved example_roots_resolved
           (arena_equivalent_identity Arena.example_fs) eq_refl).
Defined.

Lemma plain_no_symlinks : no_symlinks Fixtures.plain_fs.
Proof.
  unfold no_symlinks.
  change (objs Fixtures.plain_fs) with Fixtures.plain_objs.
  unfold Fixtures.plain_objs.
  repeat (apply map_Forall_insert_2; [cbv beta; discriminate |]).
  intros k x Hk. rewrite lookup_empty in Hk. discriminate Hk.
Qed.

(** X6: on the volume without links, fuel 8 is enough for the four
    characters of [/d/a]. *)
Lemma h_find_object_terminates_witness :
  @h_find_object_while rtems_platform Arena.engine 8 Fixtures.plain_fs
    (Some 1%nat) "/d/a" None <> NoFuel.
Proof.
  apply (@h_find_object_terminates rtems_platform Arena.engine Fixtures.plain_fs
           8 (Some 1%nat) "/d/a" None plain_no_symlinks).
  cbn. lia.
Defined.

(** X7: the small volume mounted read-only refuses a create under the root
    and a write to [/a]. *)
Lemma read_only_volume_refuses_witness :
  @ycb_mknod rtems_platform Arena.engine true Fixtures.read_only_fs "new" 33188 0
    (Arena.loc_of 1)
  = Ret (Fixtures.read_only_fs, (-1)%Z, Some EROFS)
  /\ ycb_dir_rmnod (X := Fixtures.ops) Fixtures.read_only_fs
       (Arena.loc_of 1) (Arena.loc_of 1)
     = Ret (Fixtures.read_only_fs, (-1)%Z, Some EROFS).
Proof.
  destruct (@read_only_volume_refuses rtems_platform Arena.engine Fixtures.ops
              Fixtures.read_only_fs 1%nat _ (Arena.example_dev true true)
              eq_refl eq_refl eq_refl)
    as (Hmk & _ & _ & _ & Hrm).
  split; [apply Hmk | apply (proj1 (Hrm (Arena.loc_of 1)))].
Defined.

(** X8: creating [a] again under the root fails with [EEXIST] and changes
    nothing. *)
Lemma ycb_mknod_outcomes_witness :
  @ycb_mknod rtems_platform Arena.engine true Arena.example_fs "a" 33188 0
    (Arena.loc_of 1)
  = Ret (Arena.example_fs, (-1)%Z, Some EEXIST)
  /\ ((-1 = 0 /\ Some EEXIST = None)
      \/ (-1 = -1
          /\ exists c, Some EEXIST = Some c
                       /\ In c [ENOMEM; EROFS; EEXIST; ENOSPC; ENOSYS]
                       /\ (c <> ENOSPC -> Arena.example_fs = Arena.example_fs)))%Z.
Proof.
  split; [reflexivity|].
  exact (@ycb_mknod_outcomes rtems_platform Arena.engine true Arena.example_fs
           Arena.example_fs "a" 33188%Z 0%Z (Arena.loc_of 1) (-1)%Z (Some EEXIST)
           eq_refl).
Defined.

(** X9: [utime] through the hard link [/d/h] sets the times of the file
    [/a]. *)
Lemma ycb_utime_stores_witness :
  exists fs' o',
    @ycb_utime Arena.engine Arena.example_fs (Arena.loc_of 5) 111 222
    = Ret (fs', 0%Z, None)
    /\ objs fs' !! 2%nat = Some o'
    /\ yst_atime o' = 111%Z /\ yst_ctime o' = 111%Z /\ yst_mtime o' = 222%Z
    /\ objs fs' !! 5%nat = objs Arena.example_fs !! 5%nat.
Proof.
  destruct (@ycb_utime_stores Arena.engine Arena.example_fs (Arena.loc_of 5)
              111 222 5%nat 2%nat _ _ eq_refl eq_refl eq_refl eq_refl)
    as (fs' & o' & Hut & _ & Hother & Ho' & Ha & Hc & Hm & _).
  exists fs', o'. split; [exact Hut|]. split; [exact Ho'|].
  split; [exact Ha|]. split; [exact Hc|]. split; [exact Hm|].
  apply Hother. discriminate.
Defined.

(** X10: [utime] of [/d/h] with the access time -1 and the modification
    time 222, then [stat]: the times reported are -1 and 222. *)
Lemma ycb_utime_then_fstat_witness :
  exists fs1 st,
    @ycb_utime Arena.engine Arena.example_fs (Arena.loc_of 5) (-1) 222
    = Ret (fs1, 0%Z, None)
    /\ @ycb_fstat rtems_platform Arena.engine fs1 (Arena.loc_of 5)
         (Build_stat 0 0 0 0 0 0 0 0 0 0 0 0 0)
       = Ret (st, 0%Z)
    /\ st_atime st = (-1)%Z /\ st_ctime st = (-1)%Z /\ st_mtime st = 222%Z.
Proof.
  assert (Ha1 : (- 2 ^ 31 <= -1 < 2 ^ 31)%Z) by lia.
  assert (Hm1 : (- 2 ^ 31 <= 222 < 2 ^ 31)%Z) by lia.
  destruct (@ycb_utime_then_fstat rtems_platform Arena.engine Arena.example_fs
              (Arena.loc_of 5) (Build_stat 0 0 0 0 0 0 0 0 0 0 0 0 0) (-1) 222
              5%nat 2%nat _ _ (Arena.example_dev true false)
              eq_refl eq_refl eq_refl eq_refl eq_refl
              ltac:(discriminate) eq_refl Ha1 Hm1)
    as (st & Hut & Hst & Ha & Hc & Hm & _).
  eexists _, st. split; [exact Hut|]. split; [exact Hst|].
  split; [exact Ha|]. split; [exact Hc|]. exact Hm.
Defined.

(** X11: 600 bytes of buffer at the start of the root directory take two
    records of 280 bytes. *)
Lemma ycb_dir_read_fits_witness :
  exists iop' des,
    @ycb_dir_read rtems_platform Arena.engine Arena.example_fs
      (Arena.iop_of 1 0 None) 600
    = Ret (iop', des, 560%Z)
    /\ (Z.of_nat (length des) * 280 <= 600)%Z
    /\ offset iop' = 560%Z.
Proof.
  eexists _, _. split; [reflexivity|].
  destruct (@ycb_dir_read_fits rtems_platform Arena.engine Arena.example_fs
              (Arena.iop_of 1 0 None) _ 600 _ _
              ltac:(cbn; lia) ltac:(lia) eq_refl)
    as (Hfit & _ & Hoff & _).
  split; [exact Hfit | exact Hoff].
Defined.

(** X12: a read of one record and a read of two give the three records that
    one read with room for three gives. *)
Lemma ycb_dir_read_batches_compose_witness :
  exists iop1 iop2 des1 des2,
    @ycb_dir_read rtems_platform Arena.engine Arena.example_fs
      (Arena.iop_of 1 0 None) 300 = Ret (iop1, des1, 280%Z)
    /\ @ycb_dir_read rtems_platform Arena.engine Arena.example_fs iop1 600
       = Ret (iop2, des2, 560%Z)
    /\ @ycb_dir_read rtems_platform Arena.engine Arena.example_fs
         (Arena.iop_of 1 0 None) 840
       = Ret (iop2, (des1 ++ des2)%list, 840%Z)
    /\ map d_name (des1 ++ des2)%list = ["a"; "d"; "up"].
Proof.
  eexists _, _, _, _. split; [reflexivity|]. split; [reflexivity|].
  split; [|reflexivity].
  exact (@ycb_dir_read_batches_compose rtems_platform Arena.engine
           Arena.example_fs (Arena.iop_of 1 0 None) _ _ 300 600 280 560 _ _
           ltac:(cbn; lia) ltac:(lia) ltac:(lia) ltac:(cbn; lia)
           ltac:(vm_compute; reflexivity) eq_refl eq_refl).
Defined.

(** X13: the children of the root of the small volume are chained as [a],
    [d], [up]; a read with room for two records lists [a] and [d] and leaves
    the cursor on [up]. *)
Lemma ycb_dir_read_follows_chain_witness :
  sibling_chain Arena.example_fs 1 (Some 2%nat) [2%nat; 3%nat; 4%nat]
  /\ @ycb_dir_read_while rtems_platform Arena.engine 2 Arena.example_fs 1
       (Some 2%nat)
     = Ret ([Build_dirent 2 0 280 1 "a"; Build_dirent 3 0 280 1 "d"], Some 4%nat).
Proof.
  assert (Hchain : sibling_chain Arena.example_fs 1 (Some 2%nat)
                     [2%nat; 3%nat; 4%nat]).
  { cbn. split; [reflexivity|]. eexists. split; [reflexivity|].
    split; [reflexivity|]. split; [reflexivity|]. eexists.
    split; [reflexivity|]. split; [reflexivity|]. split; [reflexivity|].
    eexists. split; [reflexivity|]. split; reflexivity. }
  split; [exact Hchain|].
  apply (@ycb_dir_read_follows_chain rtems_platform Arena.engine 2
           Arena.example_fs 1 (Some 2%nat) [2%nat; 3%nat; 4%nat]
           [Build_dirent 2 0 280 1 "a"; Build_dirent 3 0 280 1 "d";
            Build_dirent 4 0 280 2 "up"] Hchain).
  repeat constructor; eexists _, _; repeat split; reflexivity.
Defined.

(** X14: a rewind returns 0; a seek to any other offset fails. *)
Lemma ycb_dir_lseek_rewinds_witness :
  ycb_dir_lseek (Arena.iop_of 1 560 (Some 4%nat)) 0 SEEK_SET
  = (Arena.iop_of 1 0 (Some 4%nat), 0%Z, None)
  /\ ycb_dir_lseek (Arena.iop_of 1 560 (Some 4%nat)) 280 SEEK_SET
     = (Arena.iop_of 1 560 (Some 4%nat), (-1)%Z, Some ENOTSUP).
Proof.
  destruct (@ycb_dir_lseek_rewinds rtems_platform Arena.engine
              (Arena.iop_of 1 560 (Some 4%nat)) 280 SEEK_SET) as (_ & Hno).
  split; [reflexivity|]. apply Hno. intros (_ & H). discriminate H.
Defined.

(** X15: seeking to the end of the 5000-byte file [/a] returns 5000, and a
    read of 100 bytes there gets none. *)
Lemma ycb_file_lseek_end_then_read_witness :
  exists iop',
    @ycb_file_lseek Arena.engine Arena.example_fs (Arena.iop_of 2 0 None) 0 SEEK_END
    = Ret (iop', 5000%Z, None)
    /\ @ycb_file_read Arena.engine Arena.example_fs iop' 100
       = Ret (Arena.example_fs, [], 0%Z, None).
Proof.
  assert (H : (0 <= 5000 <= INT_MAX)%Z /\ (0 <= 0)%Z /\ (5000 + 0 < 2 ^ 63)%Z
              /\ (0 <= 100 <= SIZE_MAX)%Z)
    by (unfold INT_MAX, SIZE_MAX; lia).
  destruct H as (HL & Hd & Hr & HN).
  destruct (@ycb_file_lseek_end_then_read Arena.engine Arena.example_fs
              (Arena.iop_of 2 0 None) 0 100 2%nat _ eq_refl eq_refl HL Hd Hr HN)
    as (iop' & Hseek & _ & Hread).
  exists iop'. split; [exact Hseek|]. rewrite Hread. reflexivity.
Defined.

(** X16: a seek with an unknown [whence] fails with [EINVAL]; a seek to -7
    succeeds and returns -7. *)
Lemma ycb_file_lseek_outcomes_witness :
  @ycb_file_lseek Arena.engine Arena.example_fs (Arena.iop_of 2 10 None) 5 7
  = Ret (Arena.iop_of 2 10 None, (-1)%Z, Some EINVAL)
  /\ @ycb_file_lseek Arena.engine Arena.example_fs (Arena.iop_of 2 10 None) (-7) SEEK_SET
     = Ret (Arena.iop_of 2 (-7) None, (-7)%Z, None)
  /\ pathinfo (Arena.iop_of 2 (-7) None) = pathinfo (Arena.iop_of 2 10 None).
Proof.
  split.
  { apply (proj1 (proj2 (proj2 (proj2
      (@ycb_file_lseek_outcomes Arena.engine Arena.example_fs
         (Arena.iop_of 2 10 None) 5 7))))); discriminate. }
  split.
  { exact (proj1 (@ycb_file_lseek_outcomes Arena.engine Arena.example_fs
                    (Arena.iop_of 2 10 None) (-7) SEEK_SET) eq_refl). }
  reflexivity.
Defined.

(** X17: [d/new//] is split into the directory [d], which is evaluated, and
    the name [new//]. *)
Lemma ycb_eval_path_for_make_splits_witness :
  ycb_eval_path_for_make Fixtures.record_eval_path
    (fun _ => yaffs_directory_handlers) (fun w => w) true true "d/new//" [] None
  = (["d"], Some "new//", 0%Z, None).
Proof.
  exact (@ycb_eval_path_for_make_splits (list string) Fixtures.record_eval_path
           (fun _ => yaffs_directory_handlers) (fun w => w) "d" "new" "//" [] None
           eq_refl ltac:(discriminate) eq_refl).
Defined.

(** X18: [new/] has no directory part: [.] is evaluated and the name is
    [new/]. *)
Lemma ycb_eval_path_for_make_no_parent_witness :
  ycb_eval_path_for_make Fixtures.record_eval_path
    (fun _ => other_handlers) (fun w => w) true true "new/" [] None
  = (["."], Some "new/", 0%Z, None).
Proof.
  exact (@ycb_eval_path_for_make_no_parent (list string) Fixtures.record_eval_path
           (fun _ => other_handlers) (fun w => w) "new" "/" [] None true
           eq_refl eq_refl).
Defined.

(** X19: creating [new//] under the root is creating [new]. *)
Lemma ycb_mknod_last_name_witness :
  @ycb_mknod rtems_platform Arena.engine true Arena.example_fs "new//" 33188 0
    (Arena.loc_of 1)
  = @ycb_mknod rtems_platform Arena.engine true Arena.example_fs "new" 33188 0
      (Arena.loc_of 1).
Proof.
  exact (@ycb_mknod_last_name rtems_platform Arena.engine true Arena.example_fs
           "new" "//" 33188%Z 0%Z (Arena.loc_of 1) eq_refl eq_refl).
Defined.

(** X20: [stat] of the hard link [/d/h] reports a regular file, [stat] being
    that of the file [/a]. *)
Lemma ycb_fstat_type_macros_witness :
  exists st,
    @ycb_fstat rtems_platform Arena.engine Arena.example_fs (Arena.loc_of 5)
      (Build_stat 0 0 0 0 0 0 0 0 0 0 0 0 0) = Ret (st, 0%Z)
    /\ @S_ISDIR rtems_platform (st_mode st) = false
    /\ @S_ISREG rtems_platform (st_mode st) = true.
Proof.
  eexists. split; [reflexivity|].
  exact (@ycb_fstat_type_macros rtems_platform Arena.engine
           eq_refl eq_refl eq_refl
           ltac:(discriminate) ltac:(discriminate) ltac:(discriminate)
           ltac:(discriminate) ltac:(discriminate)
           Arena.example_fs (Arena.loc_of 5)
           (Build_stat 0 0 0 0 0 0 0 0 0 0 0 0 0) _ 5%nat 2%nat _ _
           eq_refl eq_refl eq_refl eq_refl eq_refl).
Defined.

(** X21: the directory [/d] is a directory for [ycb_node_type] and for
    [stat]. *)
Lemma ycb_node_type_agrees_witness :
  exists st,
    @ycb_fstat rtems_platform Arena.engine Arena.example_fs (Arena.loc_of 3)
      (Build_stat 0 0 0 0 0 0 0 0 0 0 0 0 0) = Ret (st, 0%Z)
    /\ ycb_node_type Arena.example_fs (Arena.loc_of 3)
       = Ret (RTEMS_FILESYSTEM_DIRECTORY, None)
    /\ @S_ISDIR rtems_platform (st_mode st) = true.
Proof.
  eexists. split; [reflexivity|]. split; [reflexivity|].
  destruct (@ycb_node_type_agrees rtems_platform Arena.engine
              eq_refl eq_refl eq_refl
              ltac:(discriminate) ltac:(discriminate) ltac:(discriminate)
              ltac:(discriminate) ltac:(discriminate)
              Arena.example_fs (Arena.loc_of 3)
              (Build_stat 0 0 0 0 0 0 0 0 0 0 0 0 0) _ 3%nat _
              eq_refl eq_refl eq_refl eq_refl)
    as (t & e & Hnt & Hdir & _).
  apply Hdir. vm_compute in Hnt. now inversion Hnt.
Defined.

(** ** Long names, dots, and the end of a directory *)

Lemma substring_prefix (a x : string) :
  substring 0 (String.length a) (a ++ x) = a.
Proof. exact (cut_at_prefix a x). Qed.

Lemma Forall_chars_app (Q : ascii -> Prop) (a b : string) :
  Forall Q (list_ascii_of_string a) ->
  Forall Q (list_ascii_of_string b) ->
  Forall Q (list_ascii_of_string (a ++ b)).
Proof.
  intros Ha Hb. induction a as [|c a IH]; [exact Hb|].
  cbn in Ha. inversion Ha; subst.
  change (Forall Q (c :: list_ascii_of_string (a ++ b))). constructor; auto.
Qed.

Section NameFacts.
Context {P : Platform} {E : Engine}.
Variable fs : fs_state.

Lemma scan_name_seg (i : nat) (seg rest : string) :
  Forall (fun c => is_path_divider c = false) (list_ascii_of_string seg) ->
  rest = "" \/ starts_with_divider rest = true ->
  scan_name i (seg ++ rest)
  = (substring 0 (YAFFS_MAX_NAME_LENGTH - i) seg, rest).
Proof.
  intros Hseg Hrest. revert i. induction seg as [|c seg IH]; intros i.
  - change ("" ++ rest)%string with rest.
    assert (substring 0 (YAFFS_MAX_NAME_LENGTH - i) "" = "") as ->
      by now destruct (YAFFS_MAX_NAME_LENGTH - i)%nat.
    destruct rest as [|d rest]; [reflexivity|].
    destruct Hrest as [Hr|Hr]; [discriminate|]. cbn in Hr.
    cbn [scan_name]. now rewrite Hr.
  - cbn in Hseg. inversion Hseg as [|? ? Hc Hseg']; subst.
    change (String c seg ++ rest)%string with (String c (seg ++ rest)).
    cbn [scan_name]. rewrite Hc.
    destruct (Nat.ltb_spec i YAFFS_MAX_NAME_LENGTH) as [Hlt|Hge].
    + rewrite (IH Hseg' (S i)).
      replace (YAFFS_MAX_NAME_LENGTH - i)%nat
        with (S (YAFFS_MAX_NAME_LENGTH - S i)) by lia.
      reflexivity.
    + rewrite (IH Hseg' i).
      replace (YAFFS_MAX_NAME_LENGTH - i)%nat with 0%nat by lia.
      cbn. now destruct seg.
Qed.

(** X22.  Names are looked up by their first [YAFFS_MAX_NAME_LENGTH]
    characters: two paths whose next names agree on a prefix [a] of that
    length resolve alike, whatever follows [a] in the two names. *)
Theorem h_find_object_long_names (n : nat) (dir : option ptr)
    (a x y rest : string) (out : option string) :
  a <> "" ->
  String.length a = YAFFS_MAX_NAME_LENGTH ->
  Forall (fun c => is_path_divider c = false) (list_ascii_of_string a) ->
  Forall (fun c => is_path_divider c = false) (list_ascii_of_string x) ->
  Forall (fun c => is_path_divider c = false) (list_ascii_of_string y) ->
  rest = "" \/ starts_with_divider rest = true ->
  h_find_object_while n fs dir (a ++ x ++ rest) out
  = h_find_object_while n fs dir (a ++ y ++ rest) out.
Proof.
  intros Hne Hlen Ha Hx Hy Hrest.
  destruct n as [|n]; [reflexivity|]. destruct dir as [p|]; [|reflexivity].
  cbn [h_find_object_while].
  assert (Hskip : forall z, skip_dividers (a ++ z) = (a ++ z)%string).
  { intros z. destruct a as [|c a]; [congruence|].
    cbn in Ha. inversion Ha as [|? ? Hc _]; subst.
    change (String c a ++ z)%string with (String c (a ++ z)).
    cbn [skip_dividers]. now rewrite Hc. }
  assert (Hscan : forall z,
             Forall (fun c => is_path_divider c = false) (list_ascii_of_string z) ->
             scan_name 0 (a ++ z ++ rest) = (a, rest)).
  { intros z Hz. rewrite string_app_assoc.
    rewrite (scan_name_seg 0 (a ++ z) rest (Forall_chars_app _ _ _ Ha Hz) Hrest).
    rewrite Nat.sub_0_r, <- Hlen. now rewrite substring_prefix. }
  rewrite !Hskip, (Hscan x Hx), (Hscan y Hy). reflexivity.
Qed.

(** X23.  The names [.] and [..]: [.] leaves the object in hand as it is,
    and [..] replaces it by its parent when it has one; neither looks at the
    type of the object nor follows a link, and the rest of the path is
    resolved from there. *)
Theorem h_find_object_dots (n : nat) (p : ptr) (rest : string)
    (out : option string) :
  is_path_divider "." = false ->
  (2 <= YAFFS_MAX_NAME_LENGTH)%nat ->
  rest = "" \/ starts_with_divider rest = true ->
  h_find_object_while (S n) fs (Some p) (String "." rest) out
  = (if is_empty rest then Ret (Some p, out)
     else h_find_object_while n fs (Some p) rest out)
  /\ (forall o up,
        objs fs !! p = Some o ->
        parent o = Some up ->
        h_find_object_while (S n) fs (Some p) (String "." (String "." rest)) out
        = (if is_empty rest then Ret (Some up, out)
           else h_find_object_while n fs (Some up) rest out)).
Proof.
  intros Hdot Hmax Hrest.
  assert (H1 : Forall (fun c => is_path_divider c = false) (list_ascii_of_string "."))
    by (repeat constructor; exact Hdot).
  assert (H2 : Forall (fun c => is_path_divider c = false) (list_ascii_of_string ".."))
    by (repeat constructor; exact Hdot).
  pose proof (scan_name_seg 0 "." rest H1 Hrest) as Hs1.
  pose proof (scan_name_seg 0 ".." rest H2 Hrest) as Hs2.
  rewrite Nat.sub_0_r in Hs1, Hs2.
  destruct YAFFS_MAX_NAME_LENGTH as [|[|m]]; [lia | lia |].
  change ("." ++ rest)%string with (String "." rest) in Hs1.
  change (".." ++ rest)%string with (String "." (String "." rest)) in Hs2.
  assert (E1 : substring 0 (S (S m)) "." = ".") by reflexivity.
  assert (E2 : substring 0 (S (S m)) ".." = "..") by (cbn; now destruct m).
  rewrite E1 in Hs1. rewrite E2 in Hs2.
  split.
  - cbn [h_find_object_while skip_dividers]. rewrite Hdot, Hs1. reflexivity.
  - intros o up Ho Hup.
    cbn [h_find_object_while skip_dividers]. rewrite Hdot, Hs2.
    cbn [String.eqb Ascii.eqb Bool.eqb]. cbn.
    rewrite (deref_Some _ _ _ Ho). cbn [run_bind]. rewrite Hup. reflexivity.
Qed.

End NameFacts.

(** X24.  The end of a directory: a read on a handle whose cursor is NULL at
    an offset other than 0, or at offset 0 on a directory without children,
    writes no record and returns 0, for any size of the buffer, and leaves
    the offset as it is and the cursor NULL. *)
Theorem ycb_dir_read_at_end {P : Platform} {E : Engine} (fs : fs_state)
    (iop : rtems_libio_t) (count : Z) (obj : ptr) (o : yaffs_obj) :
  node_access (pathinfo iop) = Some obj ->
  objs fs !! obj = Some o ->
  sizeof_dirent <> 0%Z ->
  (- 2 ^ 63 <= offset iop < 2 ^ 63)%Z ->
  (offset iop <> 0%Z /\ data1 iop = None)
  \/ (offset iop = 0%Z /\ variant o = dir_variant (children_of obj)) ->
  ycb_dir_read fs iop count
  = Ret ({| pathinfo := pathinfo iop; offset := offset iop; data1 := None;
            iop_size := iop_size iop |}, [], 0%Z).
Proof.
  intros Hloc Ho Hsz Hoff Hend.
  rewrite (ycb_dir_read_unfold fs iop count obj o Hloc Ho Hsz).
  assert (Hcur : (if (offset iop =? 0)%Z then
                    match variant o with
                    | dir_variant first =>
                        if list_head_eqb first (children_of obj) then Ret None
                        else do e <- list_entry first; Ret (Some e)
                    | _ => Fault
                    end
                  else Ret (data1 iop)) = Ret None).
  { destruct Hend as [(Hnz & Hd)|(Hz & Hv)].
    - apply Z.eqb_neq in Hnz. now rewrite Hnz, Hd.
    - rewrite Hz, Hv. cbn. now rewrite Nat.eqb_refl. }
  rewrite Hcur. cbn [run_bind]. rewrite ycb_dir_read_while_null.
  cbn [run_bind fst snd].
  assert (Hz : cast_ssize_t
                 (cast_size_t (Z.of_nat (length (@nil dirent)) * sizeof_dirent))
               = 0%Z) by reflexivity.
  rewrite Hz, Z.add_0_r.
  unfold cast_off64. rewrite wrap_signed_small by lia. reflexivity.
Qed.

(** X22: with names of at most three characters, [dxyz] is looked up as
    [dxy], as [dxyq] is. *)
Lemma h_find_object_long_names_witness :
  @h_find_object_while Fixtures.short_names_platform Arena.engine 5
    Arena.example_fs (Some 1%nat) "dxyz/a" None
  = @h_find_object_while Fixtures.short_names_platform Arena.engine 5
      Arena.example_fs (Some 1%nat) "dxyq/a" None.
Proof.
  assert (Hf : forall s : string,
             strchr s "/" = None ->
             Forall (fun c => @is_path_divider Fixtures.short_names_platform c = false)
               (list_ascii_of_string s)).
  { induction s as [|c s IH]; intros Hs; [constructor|].
    apply strchr_head in Hs as (Hc & Hs).
    cbn. constructor; [|now apply IH].
    change (@is_path_divider Fixtures.short_names_platform c = false).
    change (is_path_divider_from "/" c = false).
    cbn [is_path_divider_from]. now rewrite Ascii.eqb_sym, Hc. }
  exact (@h_find_object_long_names Fixtures.short_names_platform Arena.engine
           Arena.example_fs 5 (Some 1%nat) "dxy" "z" "q" "/a" None
           ltac:(discriminate) eq_refl (Hf "dxy" eq_refl) (Hf "z" eq_refl)
           (Hf "q" eq_refl) (or_intror eq_refl)).
Defined.

(** X23: from the directory [/d], [./h] is the hard link target found from
    [/d], and [../a] is found from the root. *)
Lemma h_find_object_dots_witness :
  @h_find_object_while rtems_platform Arena.engine 10 Arena.example_fs
    (Some 3%nat) "./h" None
  = @h_find_object_while rtems_platform Arena.engine 9 Arena.example_fs
      (Some 3%nat) "/h" None
  /\ @h_find_object_while rtems_platform Arena.engine 10 Arena.example_fs
       (Some 3%nat) "../a" None
     = @h_find_object_while rtems_platform Arena.engine 9 Arena.example_fs
         (Some 1%nat) "/a" None.
Proof.
  destruct (@h_find_object_dots rtems_platform Arena.engine Arena.example_fs 9
              3%nat "/h" None eq_refl ltac:(cbn; lia) (or_intror eq_refl))
    as (Hdot & _).
  destruct (@h_find_object_dots rtems_platform Arena.engine Arena.example_fs 9
              3%nat "/a" None eq_refl ltac:(cbn; lia) (or_intror eq_refl))
    as (_ & Hdotdot).
  split; [exact Hdot|]. exact (Hdotdot _ 1%nat eq_refl eq_refl).
Defined.

(** X24: after the three children of the root have been read the next read
    returns 0. *)
Lemma ycb_dir_read_at_end_witness :
  @ycb_dir_read rtems_platform Arena.engine Arena.example_fs
    (Arena.iop_of 1 840 None) 6000
  = Ret (Arena.iop_of 1 840 None, [], 0%Z).
Proof.
  pose proof (@ycb_dir_read_at_end rtems_platform Arena.engine Arena.example_fs
                (Arena.iop_of 1 840 None) 6000 1%nat _ eq_refl eq_refl) as H.
  assert (H1 : @sizeof_dirent rtems_platform <> 0%Z) by discriminate.
  assert (H2 : (- 2 ^ 63 <= offset (Arena.iop_of 1%nat 840 None) < 2 ^ 63)%Z)
    by (cbn; lia).
  apply (H H1 H2). left. split; [discriminate | reflexivity].
Defined.

(** ** Truncating and reading *)

(** X25.  [ycb_file_ftruncate] hands the object and the length to
    [yaffs_resize_file].  When the engine answers [YAFFS_FAIL] it returns -1
    with [EIO] and leaves the handle as it was; on any other answer it
    returns 0 and caches the new length in the handle.  The graph is the one
    the engine left, and the offset is never moved.  After a truncation to a
    length at or below the offset, with an engine that then reports that
    length, the next read asks for 0 bytes. *)
Theorem ycb_file_ftruncate_then_read {E : Engine} {X : EngineOps}
    (fs fs' : fs_state) (iop : rtems_libio_t) (length N r : Z)
    (obj : ptr) (o : yaffs_obj) :
  node_access (pathinfo iop) = Some obj ->
  objs fs !! obj = Some o ->
  yaffs_resize_file fs obj length = (fs', r) ->
  (r = YAFFS_FAIL ->
   ycb_file_ftruncate fs iop length = Ret (fs', iop, (-1)%Z, Some EIO))
  /\ (r <> YAFFS_FAIL ->
      let iop' := set_iop_size iop length in
      ycb_file_ftruncate fs iop length = Ret (fs', iop', 0%Z, None)
      /\ offset iop' = offset iop
      /\ pathinfo iop' = pathinfo iop
      /\ iop_size iop' = length
      /\ (yaffs_get_obj_length fs' obj = length ->
          (0 <= length <= INT_MAX)%Z ->
          (length <= offset iop)%Z ->
          (0 <= N <= SIZE_MAX)%Z ->
          (exists o', objs fs' !! obj = Some o') ->
          ycb_file_read fs' iop' N
          = (let '(fs2, bytes, nr) := yaffs_file_rd fs' obj (offset iop) 0 in
             if (nr <? 0)%Z then Ret (fs2, bytes, (-1)%Z, Some ENOSPC)
             else Ret (fs2, bytes, nr, None)))).
Proof.
  intros Hloc Ho Hrs.
  assert (Hrun : ycb_file_ftruncate fs iop length
                 = if (r =? YAFFS_FAIL)%Z then Ret (fs', iop, (-1)%Z, Some EIO)
                   else Ret (fs', set_iop_size iop length, 0%Z, None)).
  { unfold ycb_file_ftruncate. rewrite Hloc. cbn [deref_opt run_bind].
    rewrite (deref_Some _ _ _ Ho). cbn [run_bind]. now rewrite Hrs. }
  split.
  - intros ->. rewrite Hrun. reflexivity.
  - intros Hr iop'. apply Z.eqb_neq in Hr. rewrite Hrun, Hr.
    split; [reflexivity|]. split; [reflexivity|]. split; [reflexivity|].
    split; [reflexivity|].
    intros Hlen HL Hle HN (o' & Ho').
    unfold ycb_file_read. subst iop'. cbn [pathinfo set_iop_size offset].
    rewrite Hloc. cbn [deref_opt run_bind].
    rewrite (deref_Some _ _ _ Ho'). cbn [run_bind]. rewrite Hlen.
    assert (Hreq : read_request length (offset iop) N = 0%Z).
    { rewrite read_request_clamped; unfold INT_MAX in *; lia. }
    rewrite Hreq. reflexivity.
Qed.

(** X25: truncating [/a] to 100 bytes with the handle at offset 4990; the
    read that follows gets no byte.  The reference engine refuses to resize
    the directory [/d]: [EIO]. *)
Lemma ycb_file_ftruncate_then_read_witness :
  (exists fs' iop',
     ycb_file_ftruncate (X := Fixtures.ops) Arena.example_fs
       (Arena.iop_of 2 4990 None) 100
     = Ret (fs', iop', 0%Z, None)
     /\ iop_size iop' = 100%Z /\ offset iop' = 4990%Z
     /\ @ycb_file_read Arena.engine fs' iop' 50 = Ret (fs', [], 0%Z, None))
  /\ ycb_file_ftruncate (X := Fixtures.ops) Arena.example_fs
       (Arena.iop_of 3 0 None) 100
     = Ret (Arena.example_fs, Arena.iop_of 3 0 None, (-1)%Z, Some EIO).
Proof.
  split.
  - pose (res := @yaffs_resize_file Fixtures.ops Arena.example_fs 2%nat 100).
    assert (Hres : res = (fst res, snd res)) by reflexivity.
    assert (Hok : snd res <> YAFFS_FAIL) by discriminate.
    destruct (proj2 (@ycb_file_ftruncate_then_read Arena.engine Fixtures.ops
                       Arena.example_fs (fst res) (Arena.iop_of 2 4990 None)
                       100 50 (snd res) 2%nat _ eq_refl eq_refl Hres) Hok)
      as (Hrun & Hoff & _ & Hsize & Hread).
    eexists _, _. split; [exact Hrun|]. split; [exact Hsize|].
    split; [exact Hoff|].
    rewrite Hread.
    + reflexivity.
    + reflexivity.
    + unfold INT_MAX. lia.
    + cbn. lia.
    + unfold SIZE_MAX. lia.
    + eexists. reflexivity.
  - pose (res := @yaffs_resize_file Fixtures.ops Arena.example_fs 3%nat 100).
    assert (Hres : res = (Arena.example_fs, YAFFS_FAIL)) by reflexivity.
    exact (proj1 (@ycb_file_ftruncate_then_read Arena.engine Fixtures.ops
                    Arena.example_fs Arena.example_fs (Arena.iop_of 3 0 None)
                    100 0 YAFFS_FAIL 3%nat _ eq_refl eq_refl Hres) eq_refl).
Defined.
